(** * Pixeltable: views, the catalog's dependents graph and the DataFrame builder

    A shallow embedding of [pixeltable/catalog/view.py] and
    [pixeltable/dataframe.py].  Python objects that are shared and updated in
    place (catalog handles, DataFrames, order-by lists) live in explicit heaps
    indexed by addresses; exceptions are explicit outcomes; everything the two
    modules import from elsewhere (the expression system, TableVersion,
    the planner, the backing store) is an interface the development is
    parameterised over. *)

From Stdlib Require Import Ascii String ZArith.
From stdpp Require Import gmap strings list fin_maps pretty.

Open Scope string_scope.
Open Scope list_scope.

(** ** Python exceptions and the state-and-exception monad *)

Module Py.

(** [Error] is [pixeltable.exceptions.Error] with its message; the others are
    the built-in exceptions the modelled code can raise.  [Dangling] is the
    model's own: an address that is not in the heap was dereferenced, which no
    Python program can do. *)
Inductive exn : Type :=
| Error (msg : string)
| AssertionError
| KeyError
| ValueError
| TypeError (msg : string)
| Dangling.

Inductive outcome (A : Type) : Type :=
| Ok (a : A)
| Raise (e : exn).
Arguments Ok {A} a.
Arguments Raise {A} e.

(** A computation over a state [S]: it returns a value or raises, and in both
    cases leaves a state behind (an exception does not roll anything back). *)
Definition M (S A : Type) : Type := S -> outcome A * S.

Definition ret {S A} (a : A) : M S A := fun s => (Ok a, s).
Definition raise {S A} (e : exn) : M S A := fun s => (Raise e, s).
Definition bind {S A B} (m : M S A) (k : A -> M S B) : M S B :=
  fun s => match m s with
           | (Ok a, s') => k a s'
           | (Raise e, s') => (Raise e, s')
           end.
Definition get {S} : M S S := fun s => (Ok s, s).
Definition put {S} (s : S) : M S unit := fun _ => (Ok tt, s).
Definition modify {S} (f : S -> S) : M S unit := fun s => (Ok tt, f s).

(** [assert c]: the Python statement of that name. *)
Definition assert {S} (c : bool) : M S unit :=
  if c then ret tt else raise AssertionError.

(** Lift a pure outcome. *)
Definition lift {S A} (o : outcome A) : M S A := fun s => (o, s).

(** A [for] loop whose body only checks: run [f] on each element in order and
    stop at the first exception. *)
Fixpoint for_each {S A} (f : A -> M S unit) (l : list A) : M S unit :=
  match l with
  | [] => ret tt
  | x :: l' => bind (f x) (fun _ => for_each f l')
  end.

(** [repr] of a [str] that holds no quote and no backslash, which is the case
    of every catalog name (names are valid identifiers). *)
Definition repr (s : string) : string := "'" +:+ s +:+ "'".

End Py.

Import Py.

Notation "'do' x <- m ; k" := (Py.bind m (fun x => k))
  (at level 10, x name, m at level 100, k at level 200,
   format "'[v' 'do'  x  <-  m ;  '/' k ']'").
Notation "'do_' m ; k" := (Py.bind m (fun _ => k))
  (at level 10, m at level 100, k at level 200,
   format "'[v' 'do_'  m ;  '/' k ']'").

(** ** Table versions and their ancestry chains *)

Abbreviation UUID := N.
Abbreviation addr := positive.

Module TableVersion.

(** Modelled from the spec: [TableVersion], the class of
    [catalog/table_version.py].  "identity = (table_id, version) ...
    [is_snapshot] flag"; [name] is what [tbl_name()] prints.  Only the
    attributes that view.py and dataframe.py read are kept. *)
Record t : Type := {
  id : UUID;
  name : string;
  version : Z;
  is_snapshot : bool
}.

#[global] Instance eq_dec : EqDecision t.
Proof. solve_decision. Defined.

End TableVersion.

Module TableVersionPath.

(** Modelled from the spec: [TableVersionPath], the class of
    [catalog/table_version_path.py].
    "recursive structure { tbl_version, base: Optional<TableVersionPath> }". *)
#[warnings="-register-all"]
Inductive t : Type :=
| Path (tbl_version : TableVersion.t) (base : option t).

Definition tbl_version (p : t) : TableVersion.t :=
  match p with Path tv _ => tv end.
Definition base (p : t) : option t :=
  match p with Path _ b => b end.

(** Modelled from the spec: "enumeration of all versions in the chain", the
    path's own version first. *)
Fixpoint get_tbl_versions (p : t) : list TableVersion.t :=
  match p with
  | Path tv None => [tv]
  | Path tv (Some b) => tv :: get_tbl_versions b
  end.

(** Modelled from the spec: "[is_snapshot()] is true iff every TableVersion in
    the chain is a snapshot version". *)
Fixpoint is_snapshot (p : t) : bool :=
  match p with
  | Path tv None => TableVersion.is_snapshot tv
  | Path tv (Some b) => TableVersion.is_snapshot tv && is_snapshot b
  end.

Definition tbl_id (p : t) : UUID := TableVersion.id (tbl_version p).
Definition tbl_name (p : t) : string := TableVersion.name (tbl_version p).

(** Modelled from the spec: "lookup of an ancestor by table id". *)
Fixpoint find_tbl_version (p : t) (i : UUID) : option TableVersion.t :=
  match p with
  | Path tv b =>
      if decide (TableVersion.id tv = i) then Some tv
      else match b with
           | None => None
           | Some b' => find_tbl_version b' i
           end
  end.

End TableVersionPath.

(** The same sequencing for a computation that touches no state. *)
Definition obind {A B} (o : outcome A) (k : A -> outcome B) : outcome B :=
  match o with
  | Ok a => k a
  | Raise e => Raise e
  end.

Notation "'check' x <- o ; k" := (obind o (fun x => k))
  (at level 10, x name, o at level 100, k at level 200,
   format "'[v' 'check'  x  <-  o ;  '/' k ']'").
Notation "'check_' o ; k" := (obind o (fun _ => k))
  (at level 10, o at level 100, k at level 200,
   format "'[v' 'check_'  o ;  '/' k ']'").

(** ** Catalog handles *)

Module Table.

(** The attributes [Table.__init__] sets that view.py reads, and [is_dropped],
    the instance attribute that [View._drop] creates ([None]: absent). *)
Record t : Type := {
  _id : UUID;
  _dir_id : UUID;
  _name : string;
  _tbl_version_path : TableVersionPath.t;
  _is_dropped : bool;
  is_dropped : option bool
}.

Definition set_is_dropped (x : t) (b : bool) : t :=
  {| _id := _id x; _dir_id := _dir_id x; _name := _name x;
     _tbl_version_path := _tbl_version_path x;
     _is_dropped := _is_dropped x; is_dropped := Some b |}.

End Table.

(** ** The expression system, as view.py and dataframe.py use it

    [pixeltable.exprs], [pixeltable.type_system] and [is_valid_identifier] are
    imported by both modules: they are the operations of this interface.  Expressions are values here; [copy] and
    [copy.deepcopy] of an expression are therefore the identity. *)
Class ExprSystem : Type := {
  Expr : Type;
  ColumnType : Type;
  (** [exprs.Variable], a subclass of [Expr] *)
  Variable_ : Type;
  (** any Python object: what [select], [where], [group_by], [order_by],
      [bind] and the iterator arguments accept *)
  Any : Type;
  (** the structured forms [as_dict] produces *)
  ExprDict : Type;
  PathDict : Type;
  TableVersionDict : Type;
  ColumnType_eq_dec :: EqDecision ColumnType;
  (** [ColumnType] *)
  nullable : ColumnType -> bool;
  is_bool_type : ColumnType -> bool;
  is_invalid_type : ColumnType -> bool;
  IntType : ColumnType;
  str_ColumnType : ColumnType -> string;
  (** [Expr] *)
  expr_col_type : Expr -> ColumnType;
  default_column_name : Expr -> option string;
  is_bound_by : Expr -> TableVersionPath.t -> bool;
  retarget : Expr -> TableVersionPath.t -> Expr;
  as_dict : Expr -> ExprDict;
  from_dict : ExprDict -> Expr;
  (** [var.name], [var.col_type], and the variable seen as an [Expr] *)
  var_name : Variable_ -> string;
  var_col_type : Variable_ -> ColumnType;
  var_expr : Variable_ -> Expr;
  (** [Expr.list_subexprs(expr_list, expr_class=Variable)] *)
  list_subexprs_Variable : list Expr -> list Variable_;
  (** the expression that [e.substitute(spec)] leaves in place of [e], and the
      list that [Expr.list_substitute(l, spec)] leaves in place of [l];
      [spec] is the dictionary's items in insertion order *)
  substitute : Expr -> list (Expr * Expr) -> Expr;
  list_substitute : list Expr -> list (Expr * Expr) -> list Expr;
  (** [isinstance(o, exprs.Expr)], [isinstance(o, dict)], [isinstance(o, list)],
      [isinstance(o, catalog.Table)] *)
  as_Expr : Any -> option Expr;
  is_dict : Any -> bool;
  is_list : Any -> bool;
  as_Table : Any -> option Table.t;
  InlineDict : Any -> Expr;
  InlineList : Any -> Expr;
  Literal : Any -> Expr;
  from_object : Any -> option Expr;
  (** [str(o)] and [str(type(o))], as an f-string prints them *)
  str_Any : Any -> string;
  str_type : Any -> string;
  (** [[ColumnRef(col) for col in tbl.columns()]] *)
  column_refs : TableVersionPath.t -> list Expr;
  is_valid_identifier : string -> bool;
  (** [TableVersionPath.as_dict], [TableVersionPath.from_dict],
      [TableVersion.as_dict], [TableVersion.from_dict] *)
  path_as_dict : TableVersionPath.t -> PathDict;
  path_from_dict : PathDict -> TableVersionPath.t;
  tbl_version_as_dict : TableVersion.t -> TableVersionDict;
  tbl_version_from_dict : TableVersionDict -> TableVersion.t
}.

Definition copy `{ExprSystem} (e : Expr) : Expr := e.

Module Column.
Section with_exprs.
Context `{ES : ExprSystem}.

(** Modelled from the spec: [Column], the class of [catalog/column.py].
    "schema unit: name, type, nullability, stored/computed flag, optional
    derivation expression"; nullability is an attribute of the type, as
    view.py reads it ([col.col_type.nullable]). *)
Record t : Type := {
  name : string;
  col_type : ColumnType;
  stored : bool;
  is_computed : bool;
  value_expr : option Expr
}.

(** [Column(name, col_type, stored=...)] *)
Definition init (name : string) (col_type : ColumnType) (stored : bool) : t :=
  {| name := name; col_type := col_type; stored := stored;
     is_computed := false; value_expr := None |}.

(** [col.set_value_expr(e)] *)
Definition set_value_expr (col : t) (e : Expr) : t :=
  {| name := name col; col_type := col_type col; stored := stored col;
     is_computed := is_computed col; value_expr := Some e |}.

End with_exprs.
End Column.

(** ** The catalog and the world *)

(** An object of the [Table] family on the heap: a [View] adds [_base_id] and
    [_snapshot_only]. *)
Inductive SchemaObject : Type :=
| ATable (tbl : Table.t)
| AView (tbl : Table.t) (_base_id : UUID) (_snapshot_only : bool).

Definition table_of (o : SchemaObject) : Table.t :=
  match o with ATable x | AView x _ _ => x end.

Module Catalog.

(** [Catalog.get()]: the two dictionaries of the singleton.  Values are
    references to handles (addresses), as in the source. *)
Record t : Type := {
  tbls : gmap UUID addr;
  tbl_dependents : gmap UUID (list addr)
}.

Definition set_tbls (c : t) (m : gmap UUID addr) : t :=
  {| tbls := m; tbl_dependents := tbl_dependents c |}.
Definition set_tbl_dependents (c : t) (m : gmap UUID (list addr)) : t :=
  {| tbls := tbls c; tbl_dependents := m |}.

End Catalog.

(** The state view.py runs in: the heap of handles, the catalog and the
    backing store. *)
Record World (DB : Type) : Type := {
  objs : gmap addr SchemaObject;
  cat : Catalog.t;
  db : DB
}.
Arguments objs {DB} _.
Arguments cat {DB} _.
Arguments db {DB} _.

Definition set_objs {DB} (w : World DB) (o : gmap addr SchemaObject) : World DB :=
  {| objs := o; cat := cat w; db := db w |}.
Definition set_cat {DB} (w : World DB) (c : Catalog.t) : World DB :=
  {| objs := objs w; cat := c; db := db w |}.
Definition set_db {DB} (w : World DB) (d : DB) : World DB :=
  {| objs := objs w; cat := cat w; db := d |}.

(** Run a computation on the backing store inside the world. *)
Definition lift_db {DB A} (m : M DB A) : M (World DB) A :=
  fun w => let '(r, d) := m (db w) in (r, set_db w d).

(** [o = heap[a]] *)
Definition deref {DB} (a : addr) : M (World DB) SchemaObject :=
  fun w => match objs w !! a with
           | Some o => (Ok o, w)
           | None => (Raise Dangling, w)
           end.

Module ViewMd.
Section with_exprs.
Context `{ES : ExprSystem}.

(** [md_schema.ViewMd], built in [View._create]; the table id stands for its
    [hex] rendering. *)
Record t : Type := {
  is_snapshot : bool;
  predicate : option ExprDict;
  base_versions : list (UUID * option Z);
  iterator_class_fqn : option string;
  iterator_args : option ExprDict
}.

End with_exprs.
End ViewMd.

(** ** What view.py imports from the rest of the catalog

    [TableVersion.create], [TableVersion.delete_md],
    [TableVersion.create_snapshot_copy], [Table._create_columns],
    [Table._verify_column], [Table._check_is_dropped], [Table._drop], the
    planner's view-load plan with [store_tbl.insert_rows], the session's
    commit, and the [ComponentIterator] classes. *)
Class CatalogEnv `{ES : ExprSystem} : Type := {
  DB : Type;
  Iterator : Type;
  BoundArgs : Type;
  MediaValidation : Type;
  UpdateStatus : Type;
  _POS_COLUMN_NAME : string;
  create_snapshot_copy : TableVersion.t -> TableVersion.t;
  _create_columns : Any -> outcome (list Column.t);
  Table_verify_column : Column.t -> list string -> outcome unit;
  _check_is_dropped : Table.t -> outcome unit;
  Table_drop : addr -> M (World DB) unit;
  (** [iterator_cls.__module__], [iterator_cls.__name__] *)
  iterator_module : Iterator -> string;
  iterator_name : Iterator -> string;
  (** the body of the [try] block of [View._create]: bind the arguments to the
      signature of the iterator's [__init__] and type-check them *)
  bind_iterator_args : Iterator -> Any -> outcome BoundArgs;
  (** [iterator_cls.output_schema] on the bound arguments: the output fields in order,
      and the names of the unstored ones *)
  output_schema : Iterator -> BoundArgs -> list (string * ColumnType) * list string;
  TableVersion_create :
    UUID -> string -> list Column.t -> Z -> string -> MediaValidation ->
    TableVersionPath.t -> ViewMd.t -> M DB (UUID * option TableVersion.t);
  (** [Planner.create_view_load_plan] followed by [store_tbl.insert_rows] *)
  load_view : TableVersionPath.t -> Z -> M DB unit;
  session_commit : M DB unit;
  delete_md : UUID -> M DB unit
}.

(** [l.remove(x)]: drop the first occurrence; [None] when there is none
    (Python raises [ValueError]). *)
Fixpoint list_remove (x : addr) (l : list addr) : option (list addr) :=
  match l with
  | [] => None
  | y :: l' => if decide (y = x) then Some l'
               else cons y <$> list_remove x l'
  end.

(** ** catalog/view.py *)

Module View.
Section with_env.
Context `{ES : ExprSystem} `{CE : !CatalogEnv}.

Abbreviation W := (World DB).

Definition _display_name : string := "view".

(** [View._verify_column]; [existing_query_names] is passed on unchanged and
    is part of what [Table._verify_column] stands for. *)
Definition _verify_column (col : Column.t) (existing_column_names : list string)
  : outcome unit :=
  if negb (nullable (Column.col_type col)) && negb (Column.is_computed col)
  then Raise (Error ("Column " +:+ Column.name col
                     +:+ ": non-computed columns in views must be nullable"))
  else Table_verify_column col existing_column_names.

(** Modelled from the spec: [Table._verify_schema], which [View] inherits
    from [catalog/table.py].  "Validate every additional column": each column
    goes through the class's [_verify_column] in order, together with the
    names seen before it. *)
Fixpoint _verify_schema_from (column_names : list string) (schema : list Column.t)
  : outcome unit :=
  match schema with
  | [] => Ok tt
  | col :: rest =>
      check_ _verify_column col column_names;
      _verify_schema_from (column_names ++ [Column.name col]) rest
  end.

Definition _verify_schema (schema : list Column.t) : outcome unit :=
  _verify_schema_from [] schema.

(** [View._create], lines 60-65: the filter must be bound by the base. *)
Definition check_predicate (base : TableVersionPath.t) (predicate : option Expr)
  : outcome (option Expr) :=
  match predicate with
  | Some p =>
      if negb (is_bound_by p base)
      then Raise (Error ("Filter cannot be computed in the context of the base "
                         +:+ TableVersionPath.tbl_name base))
      else Ok (Some (copy p))
  | None => Ok None
  end.

(** [View._create], lines 67-74: the loop over the value expressions. *)
Fixpoint check_value_exprs (base : TableVersionPath.t) (columns : list Column.t)
  : outcome unit :=
  match columns with
  | [] => Ok tt
  | col :: rest =>
      if negb (Column.is_computed col) then check_value_exprs base rest
      else
        match Column.value_expr col with
        | Some e =>
            if negb (is_bound_by e base)
            then Raise (Error ("Column " +:+ Column.name col
                   +:+ ": value expression cannot be computed in the context of the base "
                   +:+ TableVersionPath.tbl_name base))
            else check_value_exprs base rest
        | None => check_value_exprs base rest
        end
  end.

(** [View._create], lines 103-108: the position column, then one column per
    output field. *)
Definition iterator_cols (output_dict : list (string * ColumnType))
    (unstored_cols : list string) : list Column.t :=
  [Column.init _POS_COLUMN_NAME IntType false]
  ++ map (fun '(col_name, col_type) =>
            Column.init col_name col_type (negb (bool_decide (col_name ∈ unstored_cols))))
         output_dict.

(** [View._create], lines 110-113: the loop that rejects a name collision. *)
Fixpoint check_duplicates (iterator_col_names : list string) (columns : list Column.t)
  : outcome unit :=
  match columns with
  | [] => Ok tt
  | col :: rest =>
      if bool_decide (Column.name col ∈ iterator_col_names)
      then Raise (Error ("Duplicate name: column " +:+ Column.name col
                         +:+ " is already present in the iterator output schema"))
      else check_duplicates iterator_col_names rest
  end.

(** [View._create], lines 76-114: the body of [if iterator_cls is not None]. *)
Definition add_iterator_columns (iterator_cls : Iterator) (iterator_args : option Any)
    (columns : list Column.t) : outcome (list Column.t) :=
  match iterator_args with
  | None => Raise AssertionError
  | Some args =>
      check bound_args <-
        match bind_iterator_args iterator_cls args with
        | Raise (TypeError e) =>
            Raise (Error ("Cannot instantiate iterator with given arguments: " +:+ e))
        | r => r
        end;
      let '(output_dict, unstored_cols) := output_schema iterator_cls bound_args in
      let iterator_cols := iterator_cols output_dict unstored_cols in
      let iterator_col_names := map Column.name iterator_cols in
      check_ check_duplicates iterator_col_names columns;
      Ok (iterator_cols ++ columns)
  end.

(** [View._create], lines 57-114: everything before the session is opened.
    It returns the columns and the copied predicate. *)
Definition validate (base : TableVersionPath.t) (additional_columns : Any)
    (predicate : option Expr) (iterator_cls : option Iterator)
    (iterator_args : option Any) : outcome (list Column.t * option Expr) :=
  check columns <- _create_columns additional_columns;
  check_ _verify_schema columns;
  check predicate <- check_predicate base predicate;
  check_ check_value_exprs base columns;
  check columns <-
    match iterator_cls with
    | Some it => add_iterator_columns it iterator_args columns
    | None => Ok columns
    end;
  Ok (columns, predicate).

(** [View._get_snapshot_path] *)
Fixpoint _get_snapshot_path (tbl_version_path : TableVersionPath.t)
  : outcome TableVersionPath.t :=
  if TableVersionPath.is_snapshot tbl_version_path then Ok tbl_version_path
  else
    match tbl_version_path with
    | TableVersionPath.Path tbl_version base =>
        check tbl_version <-
          (if negb (TableVersion.is_snapshot tbl_version)
           then let copy := create_snapshot_copy tbl_version in
                if TableVersion.is_snapshot copy then Ok copy
                else Raise AssertionError
           else Ok tbl_version);
        match base with
        | Some b =>
            check b' <- _get_snapshot_path b;
            Ok (TableVersionPath.Path tbl_version (Some b'))
        | None => Ok (TableVersionPath.Path tbl_version None)
        end
    end.

(** [View.__init__]: [Table.__init__] sets the handle's attributes (a new
    handle is not dropped), then the base must have a dependents entry.  The
    new object is returned by its address. *)
Definition __init__ (id dir_id : UUID) (name : string)
    (tbl_version_path : TableVersionPath.t) (base_id : UUID) (snapshot_only : bool)
  : M W addr :=
  do w <- get;
  do_ assert (bool_decide (base_id ∈ dom (Catalog.tbl_dependents (cat w))));
  let self := fresh (dom (objs w)) in
  let tbl := {| Table._id := id; Table._dir_id := dir_id; Table._name := name;
                Table._tbl_version_path := tbl_version_path;
                Table._is_dropped := false; Table.is_dropped := None |} in
  do_ put (set_objs w (<[self := AView tbl base_id snapshot_only]> (objs w)));
  ret self.

(** [cat.tbl_dependents[k] = l] *)
Definition set_dependents (k : UUID) (l : list addr) : M W unit :=
  modify (fun w =>
    set_cat w (Catalog.set_tbl_dependents (cat w)
                 (<[k := l]> (Catalog.tbl_dependents (cat w))))).

(** [cat.tbl_dependents[k].append(a)] *)
Definition append_dependent (k : UUID) (a : addr) : M W unit :=
  do w <- get;
  match Catalog.tbl_dependents (cat w) !! k with
  | Some l => set_dependents k (l ++ [a])
  | None => raise KeyError
  end.

(** [cat.tbl_dependents[k].remove(a)] *)
Definition remove_dependent (k : UUID) (a : addr) : M W unit :=
  do w <- get;
  match Catalog.tbl_dependents (cat w) !! k with
  | Some l =>
      match list_remove a l with
      | Some l' => set_dependents k l'
      | None => raise ValueError
      end
  | None => raise KeyError
  end.

(** [del cat.tbl_dependents[k]] *)
Definition del_dependents (k : UUID) : M W unit :=
  do w <- get;
  match Catalog.tbl_dependents (cat w) !! k with
  | Some _ =>
      put (set_cat w (Catalog.set_tbl_dependents (cat w)
                        (delete k (Catalog.tbl_dependents (cat w)))))
  | None => raise KeyError
  end.

(** [cat.tbls[k] = a] *)
Definition set_tbl (k : UUID) (a : addr) : M W unit :=
  modify (fun w =>
    set_cat w (Catalog.set_tbls (cat w) (<[k := a]> (Catalog.tbls (cat w))))).

(** [del cat.tbls[k]] *)
Definition del_tbl (k : UUID) : M W unit :=
  do w <- get;
  match Catalog.tbls (cat w) !! k with
  | Some _ =>
      put (set_cat w (Catalog.set_tbls (cat w) (delete k (Catalog.tbls (cat w)))))
  | None => raise KeyError
  end.

(** [View._create], lines 116-166: the body of [with orm.Session(...)], run
    on the validated columns and predicate. *)
Definition persist (dir_id : UUID) (name : string) (base : TableVersionPath.t)
    (columns : list Column.t) (predicate : option Expr) (is_snapshot : bool)
    (num_retained_versions : Z) (comment : string) (media_validation : MediaValidation)
    (iterator_cls : option Iterator) (iterator_args : option Any) : M W addr :=
  let iterator_args_expr := InlineDict <$> iterator_args in
  let iterator_class_fqn :=
    (fun it => iterator_module it +:+ "." +:+ iterator_name it) <$> iterator_cls in
  do base_version_path <- lift (if is_snapshot then _get_snapshot_path base else Ok base);
  let base_versions :=
    map (fun tbl_version =>
           (TableVersion.id tbl_version,
            if is_snapshot || TableVersion.is_snapshot tbl_version
            then Some (TableVersion.version tbl_version) else None))
        (TableVersionPath.get_tbl_versions base_version_path) in
  (* if this is a snapshot, retarget all exprs to the snapshot tbl versions *)
  let predicate :=
    if is_snapshot then (fun p => retarget p base_version_path) <$> predicate
    else predicate in
  let iterator_args_expr :=
    if is_snapshot then (fun e => retarget e base_version_path) <$> iterator_args_expr
    else iterator_args_expr in
  let columns :=
    if is_snapshot
    then map (fun col =>
                match Column.value_expr col with
                | Some e => Column.set_value_expr col (retarget e base_version_path)
                | None => col
                end) columns
    else columns in
  let view_md :=
    {| ViewMd.is_snapshot := is_snapshot;
       ViewMd.predicate := as_dict <$> predicate;
       ViewMd.base_versions := base_versions;
       ViewMd.iterator_class_fqn := iterator_class_fqn;
       ViewMd.iterator_args := as_dict <$> iterator_args_expr |} in
  do created <- lift_db (TableVersion_create dir_id name columns num_retained_versions
                           comment media_validation base_version_path view_md);
  let '(id, tbl_version) := created in
  do view <-
    match tbl_version with
    | None =>
        (* this is purely a snapshot: we use the base's tbl version path *)
        __init__ id dir_id name base_version_path (TableVersionPath.tbl_id base) true
    | Some tbl_version =>
        let path := TableVersionPath.Path tbl_version (Some base_version_path) in
        do view <- __init__ id dir_id name path (TableVersionPath.tbl_id base) false;
        do_ lift_db (load_view path (TableVersion.version tbl_version));
        ret view
    end;
  do_ lift_db session_commit;
  do_ set_dependents id [];
  do_ append_dependent (TableVersionPath.tbl_id base) view;
  do_ set_tbl id view;
  ret view.

(** [View._create] *)
Definition _create (dir_id : UUID) (name : string) (base : TableVersionPath.t)
    (additional_columns : Any) (predicate : option Expr) (is_snapshot : bool)
    (num_retained_versions : Z) (comment : string) (media_validation : MediaValidation)
    (iterator_cls : option Iterator) (iterator_args : option Any) : M W addr :=
  do validated <- lift (validate base additional_columns predicate iterator_cls iterator_args);
  persist dir_id name base validated.1 validated.2 is_snapshot num_retained_versions
    comment media_validation iterator_cls iterator_args.

(** [self.is_dropped = True] *)
Definition setattr_is_dropped (self : addr) (b : bool) : M W unit :=
  do o <- deref self;
  let o' := match o with
            | ATable x => ATable (Table.set_is_dropped x b)
            | AView x base_id snapshot_only =>
                AView (Table.set_is_dropped x b) base_id snapshot_only
            end in
  modify (fun w => set_objs w (<[self := o']> (objs w))).

(** The receiver of a [View] method: an address that holds a [View]. *)
Definition deref_view (self : addr) : M W (Table.t * UUID * bool) :=
  do o <- deref self;
  match o with
  | AView x base_id snapshot_only => ret (x, base_id, snapshot_only)
  | ATable _ => raise Dangling
  end.

(** [View._drop], lines 198-199: verify all dependents are deleted by now. *)
Definition check_dependents_dropped (deps : list addr) : M W unit :=
  for_each (fun dep => do o <- deref dep;
                       assert (Table._is_dropped (table_of o))) deps.

(** [View._drop], lines 201-208: the branch of a [snapshot_only] view. *)
Definition drop_snapshot_only (self : addr) (tbl : Table.t) : M W unit :=
  (* there is not TableVersion to drop *)
  do_ lift (_check_is_dropped tbl);
  do_ setattr_is_dropped self true;
  do_ lift_db (delete_md (Table._id tbl));
  (* update catalog *)
  del_tbl (Table._id tbl).

(** [View._drop], lines 211-212: leave the base's dependents and give up the
    view's own entry. *)
Definition unlink (self : addr) : M W unit :=
  do v <- deref_view self;
  let '(tbl, base_id, _) := v in
  do_ remove_dependent base_id self;
  del_dependents (Table._id tbl).

(** [View._drop] *)
Definition _drop (self : addr) : M W unit :=
  do v <- deref_view self;
  let '(tbl, _, snapshot_only) := v in
  do w <- get;
  do deps <- match Catalog.tbl_dependents (cat w) !! Table._id tbl with
             | Some deps => ret deps
             | None => raise KeyError
             end;
  do_ check_dependents_dropped deps;
  do_ (if snapshot_only then drop_snapshot_only self tbl else Table_drop self);
  unlink self.

(** [View.insert]: whatever the arguments, it raises. *)
Definition insert (self : addr) (rows : option Any) (print_stats : bool)
    (on_error : string) (kwargs : Any) : M W UpdateStatus :=
  do v <- deref_view self;
  let '(tbl, _, _) := v in
  raise (Error (_display_name +:+ " " +:+ repr (Table._name tbl)
                +:+ ": cannot insert into view")).

(** [View.delete] *)
Definition delete (self : addr) (where_ : option Expr) : M W UpdateStatus :=
  do v <- deref_view self;
  let '(tbl, _, _) := v in
  raise (Error (_display_name +:+ " " +:+ repr (Table._name tbl)
                +:+ ": cannot delete from view")).

End with_env.
End View.

(** ** Python dictionaries with string keys, in insertion order *)

(** [d[k] = v]: an existing key keeps its position. *)
Fixpoint dict_set {V} (k : string) (v : V) (d : list (string * V)) : list (string * V) :=
  match d with
  | [] => [(k, v)]
  | (k', v') :: d' =>
      if decide (k' = k) then (k, v) :: d' else (k', v') :: dict_set k v d'
  end.

(** [{k: v for k, v in items}] *)
Definition dict_of_items {V} (items : list (string * V)) : list (string * V) :=
  foldl (fun d kv => dict_set kv.1 kv.2 d) [] items.

(** [", ".join(l)] *)
Fixpoint join_comma (l : list string) : string :=
  match l with
  | [] => EmptyString
  | [s] => s
  | s :: l' => s +:+ ", " +:+ join_comma l'
  end.

(** The one-character string that holds a double quote. *)
Definition dquote : string := String "034"%char EmptyString.

(** ** dataframe.py *)

Module DataFrame.
Section with_exprs.
Context `{ES : ExprSystem}.

(** The attributes of a [DataFrame] object.  The order-by clause is a
    reference to a list object: [order_by] updates that list in place.  The
    other attributes hold values which no method of the class updates in
    place. *)
Record t : Type := {
  tbl : TableVersionPath.t;
  _select_list_exprs : list Expr;
  _schema : list (string * ColumnType);
  select_list : option (list (Expr * option string));
  where_clause : option Expr;
  group_by_clause : option (list Expr);
  grouping_tbl : option TableVersion.t;
  order_by_clause : option addr;
  limit_val : option Z
}.

(** The heap: DataFrame objects and order-by list objects, each kind with its
    own addresses. *)
Record Heap : Type := {
  frames : gmap addr t;
  lists : gmap addr (list (Expr * bool))
}.

Definition set_frames (h : Heap) (f : gmap addr t) : Heap :=
  {| frames := f; lists := lists h |}.
Definition set_lists (h : Heap) (l : gmap addr (list (Expr * bool))) : Heap :=
  {| frames := frames h; lists := l |}.

Definition get_frame (self : addr) : M Heap t :=
  fun h => match frames h !! self with
           | Some df => (Ok df, h)
           | None => (Raise Dangling, h)
           end.

Definition read_list (a : addr) : M Heap (list (Expr * bool)) :=
  fun h => match lists h !! a with
           | Some l => (Ok l, h)
           | None => (Raise Dangling, h)
           end.

(** A new list object. *)
Definition alloc_list (l : list (Expr * bool)) : M Heap addr :=
  fun h => let a := fresh (dom (lists h)) in
           (Ok a, set_lists h (<[a := l]> (lists h))).

(** [l.extend(items)], in place. *)
Definition extend_list (a : addr) (items : list (Expr * bool)) : M Heap unit :=
  do l <- read_list a;
  modify (fun h => set_lists h (<[a := l ++ items]> (lists h))).

(** [copy.deepcopy] of an optional list object: a new list with copies of the
    entries. *)
Definition deepcopy_list (o : option addr) : M Heap (option addr) :=
  match o with
  | None => ret None
  | Some a => do l <- read_list a;
              do a' <- alloc_list (map (fun p => (copy p.1, p.2)) l);
              ret (Some a')
  end.

(** The entries of an optional list object. *)
Definition read_opt_list (o : option addr) : M Heap (option (list (Expr * bool))) :=
  match o with
  | None => ret None
  | Some a => do l <- read_list a; ret (Some l)
  end.

(** [DataFrame._select_list_check_rep] *)
Definition _select_list_check_rep (select_list : option (list (Expr * option string)))
  : outcome unit :=
  match select_list with
  | None => Ok tt
  | Some l =>
      if negb (0 <? length l)%nat then Raise AssertionError
      else if forallb (fun ent => match ent.2 with
                                  | Some s => is_valid_identifier s
                                  | None => true
                                  end) l
           then Ok tt else Raise AssertionError
  end.

(** The inner loop of [_normalize_select_list]:
    [for j in range(1, len(out_names) + 1)]; [column_name] is the candidate of
    the previous round. *)
Fixpoint find_unused (default_name : string) (seen_out_names : gset string)
    (js : list nat) (column_name : string) : string :=
  match js with
  | [] => column_name
  | j :: js' =>
      let column_name := default_name +:+ "_" +:+ pretty j in
      if bool_decide (column_name ∉ seen_out_names) then column_name
      else find_unused default_name seen_out_names js' column_name
  end.

(** The name [_normalize_select_list] gives to entry [i]. *)
Definition column_name_of (i : nat) (expr : Expr) (name : option string)
    (out_names : list string) (seen_out_names : gset string) : string :=
  match name with
  | None =>
      match default_column_name expr with
      | Some default_name =>
          if bool_decide (default_name ∈ seen_out_names)
          then find_unused default_name seen_out_names
                 (seq 1 (length out_names)) default_name
          else default_name
      | None => "col_" +:+ pretty i
      end
  | Some name => name
  end.

(** The outer loop of [_normalize_select_list]. *)
Fixpoint normalize_loop (i : nat) (select_list : list (Expr * option string))
    (out_exprs : list Expr) (out_names : list string) (seen_out_names : gset string)
  : list Expr * list string * gset string :=
  match select_list with
  | [] => (out_exprs, out_names, seen_out_names)
  | (expr, name) :: rest =>
      let column_name := column_name_of i expr name out_names seen_out_names in
      normalize_loop (S i) rest (out_exprs ++ [expr]) (out_names ++ [column_name])
        ({[column_name]} ∪ seen_out_names)
  end.

(** [DataFrame._normalize_select_list] *)
Definition _normalize_select_list (tbl : TableVersionPath.t)
    (select_list : option (list (Expr * option string)))
  : outcome (list Expr * list string) :=
  let select_list :=
    match select_list with
    | None => map (fun e => (e, None)) (column_refs tbl)
    | Some l => l
    end in
  let '(out_exprs, out_names, seen_out_names) := normalize_loop 0 select_list [] [] ∅ in
  if negb (length out_exprs =? length out_names)%nat then Raise AssertionError
  else if negb (bool_decide (list_to_set out_names = seen_out_names))
       then Raise AssertionError
       else Ok (out_exprs, out_names).

(** [DataFrame.__init__]; the new object is returned by its address. *)
Definition __init__ (tbl : TableVersionPath.t)
    (select_list : option (list (Expr * option string)))
    (where_clause : option Expr) (group_by_clause : option (list Expr))
    (grouping_tbl : option TableVersion.t) (order_by_clause : option addr)
    (limit : option Z) : M Heap addr :=
  do_ lift (_select_list_check_rep select_list);
  (* exprs contain execution state and therefore cannot be shared *)
  let select_list := (map (fun ent => (copy ent.1, ent.2))) <$> select_list in
  do normalized <- lift (_normalize_select_list tbl select_list);
  let '(select_list_exprs, column_names) := normalized in
  do_ lift (_select_list_check_rep
              (Some (zip select_list_exprs (map Some column_names))));
  do_ assert (length column_names =? length select_list_exprs)%nat;
  let schema := dict_of_items (zip column_names (map expr_col_type select_list_exprs)) in
  let where_clause := copy <$> where_clause in
  do_ assert (negb (bool_decide (is_Some group_by_clause))
              || negb (bool_decide (is_Some grouping_tbl)));
  let group_by_clause := map copy <$> group_by_clause in
  do order_by_clause <- deepcopy_list order_by_clause;
  fun h =>
    let self := fresh (dom (frames h)) in
    (Ok self,
     set_frames h (<[self := {| tbl := tbl;
                                _select_list_exprs := select_list_exprs;
                                _schema := schema;
                                select_list := select_list;
                                where_clause := where_clause;
                                group_by_clause := group_by_clause;
                                grouping_tbl := grouping_tbl;
                                order_by_clause := order_by_clause;
                                limit_val := limit |}]> (frames h))).

(** The loop of [DataFrame._vars] over the variables found. *)
Fixpoint unique_vars_loop (vars : list Variable_) (unique_vars : gmap string Variable_)
  : outcome (gmap string Variable_) :=
  match vars with
  | [] => Ok unique_vars
  | var :: rest =>
      match unique_vars !! var_name var with
      | None => unique_vars_loop rest (<[var_name var := var]> unique_vars)
      | Some first =>
          if bool_decide (var_col_type first ≠ var_col_type var)
          then Raise (Error ("Multiple definitions of parameter " +:+ var_name var))
          else unique_vars_loop rest unique_vars
      end
  end.

(** The expressions [_vars] collects, given the entries of the order-by list. *)
Definition all_exprs (df : t) (order_by : option (list (Expr * bool))) : list Expr :=
  _select_list_exprs df
  ++ match where_clause df with Some w => [w] | None => [] end
  ++ match group_by_clause df with Some g => g | None => [] end
  ++ match order_by with Some o => map fst o | None => [] end.

(** [DataFrame._vars] *)
Definition _vars (self : addr) : M Heap (gmap string Variable_) :=
  do df <- get_frame self;
  do order_by <- read_opt_list (order_by_clause df);
  let vars := list_subexprs_Variable (all_exprs df order_by) in
  lift (unique_vars_loop vars ∅).

(** [DataFrame.parameters] *)
Definition parameters (self : addr) : M Heap (gmap string ColumnType) :=
  do vars <- _vars self;
  ret (var_col_type <$> vars).

(** The loop of [DataFrame.bind] over [args.items()]; [var_exprs] is the
    dictionary built so far, as its items in insertion order. *)
Fixpoint bind_loop (vars : gmap string Variable_) (args : list (string * Any))
    (var_exprs : list (Expr * Expr)) : outcome (list (Expr * Expr)) :=
  match args with
  | [] => Ok var_exprs
  | (arg_name, arg_val) :: rest =>
      match vars !! arg_name with
      | None =>
          (* ignore unused variables *)
          bind_loop vars rest var_exprs
      | Some var =>
          match from_object arg_val with
          | None => Raise (Error ("Cannot convert argument " +:+ str_Any arg_val
                                  +:+ " to a Pixeltable expression"))
          | Some arg_expr => bind_loop vars rest (var_exprs ++ [(var_expr var, arg_expr)])
          end
      end
  end.

(** [DataFrame.bind] *)
Definition bind (self : addr) (args : list (string * Any)) : M Heap addr :=
  do df <- get_frame self;
  let select_list_exprs := map copy (_select_list_exprs df) in
  let where_clause := copy <$> where_clause df in
  let group_by_clause := map copy <$> group_by_clause df in
  do order_by <- read_opt_list (order_by_clause df);
  let order_by_exprs := map (fun p => copy p.1) <$> order_by in
  do vars <- _vars self;
  do var_exprs <- lift (bind_loop vars args []);
  let select_list_exprs := list_substitute select_list_exprs var_exprs in
  let where_clause := (fun w => substitute w var_exprs) <$> where_clause in
  let group_by_clause := (fun g => list_substitute g var_exprs) <$> group_by_clause in
  let order_by_exprs := (fun o => list_substitute o var_exprs) <$> order_by_exprs in
  let select_list := zip select_list_exprs (map (fun kv => Some kv.1) (_schema df)) in
  do order_by_clause <-
    match order_by_exprs, order_by with
    | Some exprs, Some o => do a <- alloc_list (zip exprs (map snd o)); ret (Some a)
    | _, _ => ret None
    end;
  __init__ (tbl df) (Some select_list) where_clause group_by_clause (grouping_tbl df)
    order_by_clause (limit_val df).

(** [DataFrame.select], lines 467-469: the names of the named items. *)
Fixpoint check_names (named_items : list (string * Any)) : outcome unit :=
  match named_items with
  | [] => Ok tt
  | (name, _) :: rest =>
      if negb (is_valid_identifier name)
      then Raise (Error ("Invalid name: " +:+ name))
      else check_names rest
  end.

(** [DataFrame.select], lines 475-487: wrap what is not an expression. *)
Fixpoint wrap_items (base_list : list (Any * option string))
  : outcome (list (Expr * option string)) :=
  match base_list with
  | [] => Ok []
  | (raw_expr, name) :: rest =>
      let expr :=
        match as_Expr raw_expr with
        | Some e => e
        | None => if is_dict raw_expr then InlineDict raw_expr
                  else if is_list raw_expr then InlineList raw_expr
                  else Literal raw_expr
        end in
      if is_invalid_type (expr_col_type expr)
      then Raise (Error ("Invalid type: " +:+ str_Any raw_expr))
      else check rest' <- wrap_items rest; Ok ((expr, name) :: rest')
  end.

(** [[j for j, x in enumerate(names) if x == name]], counting from [j]. *)
Fixpoint positions_of (name : string) (j : nat) (names : list string) : list nat :=
  match names with
  | [] => []
  | x :: rest => if decide (x = name) then j :: positions_of name (S j) rest
                 else positions_of name (S j) rest
  end.

(** [DataFrame.select], lines 492-499: no name may occur twice. *)
Fixpoint check_repeated (all_names : list string) (seen : gset string)
    (names : list string) : outcome unit :=
  match names with
  | [] => Ok tt
  | name :: rest =>
      if bool_decide (name ∈ seen)
      then Raise (Error ("Repeated column name " +:+ dquote +:+ name +:+ dquote
                         +:+ " in select() at positions: "
                         +:+ join_comma (map pretty (positions_of name 0 all_names))))
      else check_repeated all_names ({[name]} ∪ seen) rest
  end.

(** [DataFrame.select]; keyword names are always [str]. *)
Definition select (self : addr) (items : list Any) (named_items : list (string * Any))
  : M Heap addr :=
  do df <- get_frame self;
  if bool_decide (is_Some (select_list df))
  then raise (Error "Select list already specified")
  else
    do_ lift (check_names named_items);
    let base_list := map (fun expr => (expr, None)) items
                     ++ map (fun kv => (kv.2, Some kv.1)) named_items in
    if (length base_list =? 0)%nat then ret self
    else
      do select_list <- lift (wrap_items base_list);
      do normalized <- lift (_normalize_select_list (tbl df) (Some select_list));
      do_ lift (check_repeated normalized.2 ∅ normalized.2);
      __init__ (tbl df) (Some select_list) (where_clause df) (group_by_clause df)
        (grouping_tbl df) (order_by_clause df) (limit_val df).

(** [DataFrame.where] *)
Definition where_ (self : addr) (pred : Any) : M Heap addr :=
  do df <- get_frame self;
  match as_Expr pred with
  | None => raise (Error ("Where() requires a Pixeltable expression, but instead got "
                          +:+ str_type pred))
  | Some pred =>
      if negb (is_bool_type (expr_col_type pred))
      then raise (Error ("Where(): expression needs to return bool, but instead returns "
                         +:+ str_ColumnType (expr_col_type pred)))
      else __init__ (tbl df) (select_list df) (Some pred) (group_by_clause df)
             (grouping_tbl df) (order_by_clause df) (limit_val df)
  end.

(** The loop of [DataFrame.group_by]: it ends with the grouping table, if one
    was given. *)
Fixpoint group_by_loop (df : t) (n_items : nat) (grouping_items : list Any)
  : outcome (option TableVersion.t) :=
  match grouping_items with
  | [] => Ok None
  | item :: rest =>
      match as_Table item with
      | Some tbl_handle =>
          if (1 <? n_items)%nat
          then Raise (Error "group_by(): only one table can be specified")
          else
            (* the grouping table must be a base of self.tbl *)
            let item_path := Table._tbl_version_path tbl_handle in
            match TableVersionPath.find_tbl_version (tbl df)
                    (TableVersionPath.tbl_id item_path) with
            | Some base =>
                if bool_decide (TableVersion.id base = TableVersionPath.tbl_id (tbl df))
                then Raise (Error ("group_by(): " +:+ Table._name tbl_handle
                                   +:+ " is not a base table of "
                                   +:+ TableVersionPath.tbl_name (tbl df)))
                else Ok (Some (TableVersionPath.tbl_version item_path))
            | None =>
                Raise (Error ("group_by(): " +:+ Table._name tbl_handle
                              +:+ " is not a base table of "
                              +:+ TableVersionPath.tbl_name (tbl df)))
            end
      | None =>
          match as_Expr item with
          | None => Raise (Error ("Invalid expression in group_by(): " +:+ str_Any item))
          | Some _ => group_by_loop df n_items rest
          end
      end
  end.

(** [list(grouping_items)], each item being an expression by then. *)
Definition exprs_of (items : list Any) : list Expr :=
  omap as_Expr items.

(** [DataFrame.group_by] *)
Definition group_by (self : addr) (grouping_items : list Any) : M Heap addr :=
  do df <- get_frame self;
  if bool_decide (is_Some (group_by_clause df))
  then raise (Error "Group-by already specified")
  else
    do grouping_tbl <- lift (group_by_loop df (length grouping_items) grouping_items);
    let group_by_clause :=
      match grouping_tbl with
      | None => Some (exprs_of grouping_items)
      | Some _ => None
      end in
    __init__ (tbl df) (select_list df) (where_clause df) group_by_clause grouping_tbl
      (order_by_clause df) (limit_val df).

(** [DataFrame.order_by], lines 561-563. *)
Fixpoint check_order_exprs (expr_list : list Any) : outcome (list Expr) :=
  match expr_list with
  | [] => Ok []
  | e :: rest =>
      match as_Expr e with
      | None => Raise (Error ("Invalid expression in order_by(): " +:+ str_Any e))
      | Some e' => check rest' <- check_order_exprs rest; Ok (e' :: rest')
      end
  end.

(** [DataFrame.order_by]: the receiver's own list object, when it has one, is
    the one that is extended. *)
Definition order_by (self : addr) (expr_list : list Any) (asc : bool) : M Heap addr :=
  do df <- get_frame self;
  do exprs <- lift (check_order_exprs expr_list);
  do order_by_clause <-
    match order_by_clause df with
    | Some a => ret a
    | None => alloc_list []
    end;
  do_ extend_list order_by_clause (map (fun e => (copy e, asc)) exprs);
  __init__ (tbl df) (select_list df) (where_clause df) (group_by_clause df)
    (grouping_tbl df) (Some order_by_clause) (limit_val df).

(** [DataFrame.limit]; [n] is an [int]. *)
Definition limit (self : addr) (n : Z) : M Heap addr :=
  do df <- get_frame self;
  __init__ (tbl df) (select_list df) (where_clause df) (group_by_clause df)
    (grouping_tbl df) (order_by_clause df) (Some n).

(** The dictionary [as_dict] returns: its keys are fixed. *)
Record Dict : Type := {
  d_classname : string;
  d_tbl : PathDict;
  d_select_list : option (list (ExprDict * option string));
  d_where_clause : option ExprDict;
  d_group_by_clause : option (list ExprDict);
  d_grouping_tbl : option TableVersionDict;
  d_order_by_clause : option (list (ExprDict * bool));
  d_limit_val : option Z
}.

(** [DataFrame.as_dict] *)
Definition as_dict_ (self : addr) : M Heap Dict :=
  do df <- get_frame self;
  do order_by <- read_opt_list (order_by_clause df);
  ret {| d_classname := "DataFrame";
         d_tbl := path_as_dict (tbl df);
         d_select_list := map (fun ent => (as_dict ent.1, ent.2)) <$> select_list df;
         d_where_clause := as_dict <$> where_clause df;
         d_group_by_clause := map as_dict <$> group_by_clause df;
         d_grouping_tbl := tbl_version_as_dict <$> grouping_tbl df;
         d_order_by_clause := map (fun ent => (as_dict ent.1, ent.2)) <$> order_by;
         d_limit_val := limit_val df |}.

(** [DataFrame.from_dict] *)
Definition from_dict_ (d : Dict) : M Heap addr :=
  let tbl := path_from_dict (d_tbl d) in
  let select_list := map (fun ent => (from_dict ent.1, ent.2)) <$> d_select_list d in
  let where_clause := from_dict <$> d_where_clause d in
  let group_by_clause := map from_dict <$> d_group_by_clause d in
  let grouping_tbl := tbl_version_from_dict <$> d_grouping_tbl d in
  do order_by_clause <-
    match d_order_by_clause d with
    | Some o => do a <- alloc_list (map (fun ent => (from_dict ent.1, ent.2)) o);
                ret (Some a)
    | None => ret None
    end;
  let limit_val := d_limit_val d in
  __init__ tbl select_list where_clause group_by_clause grouping_tbl order_by_clause
    limit_val.

End with_exprs.
End DataFrame.

(** ** dataframe.py: mutation through a DataFrame and its description *)

Module DataFrameOps.
Section with_store.
Context `{ES : ExprSystem}.

(** What these methods use from elsewhere: the backing store as
    [TableVersion.update] and [TableVersion.delete] see it, the status they
    return, [TableVersionPath.is_insertable] and [Expr.display_str] (with
    [inline=False]). *)
Variable Store : Type.
Variable Status : Type.
Variable tbl_version_update : TableVersion.t -> Any -> option Expr -> bool -> M Store Status.
Variable tbl_version_delete : TableVersion.t -> option Expr -> M Store Status.
Variable is_insertable : TableVersionPath.t -> bool.
Variable display_str : Expr -> string.

(** The DataFrame objects together with the backing store. *)
Record State : Type := {
  heap : DataFrame.Heap;
  store : Store
}.

Definition on_heap {A} (m : M DataFrame.Heap A) : M State A :=
  fun s => let '(r, h) := m (heap s) in (r, {| heap := h; store := store s |}).

Definition on_store {A} (m : M Store A) : M State A :=
  fun s => let '(r, d) := m (store s) in (r, {| heap := heap s; store := d |}).

(** [DataFrame._validate_mutable] *)
Definition _validate_mutable (self : addr) (op_name : string) : M DataFrame.Heap unit :=
  do df <- DataFrame.get_frame self;
  if bool_decide (is_Some (DataFrame.group_by_clause df))
     || bool_decide (is_Some (DataFrame.grouping_tbl df))
  then raise (Error ("Cannot use `" +:+ op_name +:+ "` after `group_by`"))
  else if bool_decide (is_Some (DataFrame.order_by_clause df))
  then raise (Error ("Cannot use `" +:+ op_name +:+ "` after `order_by`"))
  else if bool_decide (is_Some (DataFrame.select_list df))
  then raise (Error ("Cannot use `" +:+ op_name +:+ "` after `select`"))
  else if bool_decide (is_Some (DataFrame.limit_val df))
  then raise (Error ("Cannot use `" +:+ op_name +:+ "` after `limit`"))
  else ret tt.

(** [DataFrame.update] *)
Definition update (self : addr) (value_spec : Any) (cascade : bool) : M State Status :=
  do_ on_heap (_validate_mutable self "update");
  do df <- on_heap (DataFrame.get_frame self);
  on_store (tbl_version_update (TableVersionPath.tbl_version (DataFrame.tbl df))
              value_spec (DataFrame.where_clause df) cascade).

(** [DataFrame.delete] *)
Definition delete (self : addr) : M State Status :=
  do_ on_heap (_validate_mutable self "delete");
  do df <- on_heap (DataFrame.get_frame self);
  if negb (is_insertable (DataFrame.tbl df))
  then raise (Error "Cannot delete from view")
  else on_store (tbl_version_delete (TableVersionPath.tbl_version (DataFrame.tbl df))
                   (DataFrame.where_clause df)).

(** [[''] * (n - 1)] *)
Definition blanks (n : nat) : list string := replicate (n - 1) EmptyString.

(** [DataFrame._description]: the two columns, [Heading] and [Info], from which
    the pandas frame is made. *)
Definition _description (self : addr) : M DataFrame.Heap (list string * list string) :=
  do df <- DataFrame.get_frame self;
  do order_by <- DataFrame.read_opt_list (DataFrame.order_by_clause df);
  do sel <-
    (match DataFrame.select_list df with
     | Some l =>
         do_ assert (0 <? length l)%nat;
         ret ("Select" :: blanks (length l), map fst (DataFrame._schema df))
     | None => ret ([], [])
     end : M DataFrame.Heap (list string * list string));
  let whr :=
    match DataFrame.where_clause df with
    | Some w => (["Where"], [display_str w])
    | None => ([], [])
    end in
  let grp :=
    match DataFrame.group_by_clause df with
    | Some g => ("Group By" :: blanks (length g), map display_str g)
    | None => ([], [])
    end in
  let ord :=
    match order_by with
    | Some o => ("Order By" :: blanks (length o),
                 map (fun e : Expr * bool => display_str e.1 +:+ " "
                               +:+ (if e.2 then "asc" else "desc")) o)
    | None => ([], [])
    end in
  let lim :=
    match DataFrame.limit_val df with
    | Some n => (["Limit"], [pretty n])
    | None => ([], [])
    end in
  let heading_vals := sel.1 ++ whr.1 ++ grp.1 ++ ord.1 ++ lim.1 in
  let info_vals := sel.2 ++ whr.2 ++ grp.2 ++ ord.2 ++ lim.2 in
  do_ assert (0 <? length heading_vals)%nat;
  do_ assert (0 <? length info_vals)%nat;
  do_ assert (length heading_vals =? length info_vals)%nat;
  ret (heading_vals, info_vals).

End with_store.
End DataFrameOps.

(** ** dataframe.py: DataFrameResultSet *)

Module DataFrameResultSet.
Section with_values.

(** The values of the cells, the column types and how an f-string prints an
    index. *)
Variable V : Type.
Variable CT : Type.

(** What [__getitem__] tells apart in an index: a [str], an [int], anything
    else, or a tuple of such. *)
Inductive atom : Type :=
| AStr (s : string)
| AInt (z : Z)
| AOther.

Inductive index : Type :=
| Single (a : atom)
| Tuple (items : list atom).

Variable str_index : index -> string.

(** The exceptions of this class: those of [Py], and [IndexError]. *)
Inductive raised : Type :=
| Exn (e : exn)
| IndexError.

Inductive result (A : Type) : Type :=
| Val (a : A)
| Fail (r : raised).
Arguments Val {A} a.
Arguments Fail {A} r.

Definition rbind {A B} (r : result A) (k : A -> result B) : result B :=
  match r with
  | Val a => k a
  | Fail e => Fail e
  end.

(** A comprehension: the values in order, up to the first failure. *)
Fixpoint collect_all {A B} (f : A -> result B) (l : list A) : result (list B) :=
  match l with
  | [] => Val []
  | x :: l' => rbind (f x) (fun y => rbind (collect_all f l') (fun ys => Val (y :: ys)))
  end.

(** [l[i]] for a list and an [int]: a negative index counts from the end. *)
Definition py_getitem {A} (l : list A) (i : Z) : result A :=
  let n := Z.of_nat (length l) in
  let j := if (i <? 0)%Z then (i + n)%Z else i in
  if ((j <? 0) || (n <=? j))%Z then Fail IndexError
  else match l !! Z.to_nat j with
       | Some x => Val x
       | None => Fail IndexError
       end.

(** [l.index(x)]: the first position of [x]. *)
Fixpoint list_index (x : string) (l : list string) : option nat :=
  match l with
  | [] => None
  | y :: l' => if decide (y = x) then Some 0%nat else S <$> list_index x l'
  end.

(** The object: its rows, and the column names taken from the schema, a
    dictionary. *)
Record t : Type := {
  _rows : list (list V);
  _col_names : list string;
  schema : list (string * CT)
}.

(** [DataFrameResultSet.__init__] *)
Definition __init__ (rows : list (list V)) (schema : list (string * CT)) : t :=
  {| _rows := rows; _col_names := map fst schema; schema := schema |}.

(** [DataFrameResultSet.__len__] *)
Definition __len__ (self : t) : nat := length (_rows self).

(** [DataFrameResultSet._reverse]: the object after the call. *)
Definition _reverse (self : t) : t :=
  {| _rows := reverse (_rows self); _col_names := _col_names self;
     schema := schema self |}.

(** [DataFrameResultSet._row_to_dict] *)
Definition _row_to_dict (self : t) (row_idx : Z) : result (list (string * V)) :=
  rbind (collect_all
           (fun i => rbind (py_getitem (_col_names self) (Z.of_nat i)) (fun name =>
                     rbind (py_getitem (_rows self) row_idx) (fun row =>
                     rbind (py_getitem row (Z.of_nat i)) (fun v => Val (name, v)))))
           (seq 0 (length (_col_names self))))
        (fun items => Val (dict_of_items items)).

(** What [__getitem__] returns: a column, a row or a cell. *)
Inductive item : Type :=
| Column (values : list V)
| Row (d : list (string * V))
| Cell (v : V).

(** [DataFrameResultSet.__getitem__] *)
Definition __getitem__ (self : t) (idx : index) : result item :=
  match idx with
  | Single (AStr name) =>
      if negb (bool_decide (name ∈ _col_names self))
      then Fail (Exn (Error ("Invalid column name: " +:+ name)))
      else
        match list_index name (_col_names self) with
        | None => Fail (Exn ValueError)
        | Some col_idx =>
            rbind (collect_all (fun row => py_getitem row (Z.of_nat col_idx)) (_rows self))
                  (fun values => Val (Column values))
        end
  | Single (AInt row_idx) =>
      rbind (_row_to_dict self row_idx) (fun d => Val (Row d))
  | Tuple [i0; i1] =>
      match i0, i1 with
      | AInt row_idx, AStr name =>
          if negb (bool_decide (name ∈ _col_names self))
          then Fail (Exn (Error ("Invalid column name: " +:+ name)))
          else
            match list_index name (_col_names self) with
            | None => Fail (Exn ValueError)
            | Some col_idx =>
                rbind (py_getitem (_rows self) row_idx) (fun row =>
                rbind (py_getitem row (Z.of_nat col_idx)) (fun v => Val (Cell v)))
            end
      | AInt row_idx, AInt col_idx =>
          rbind (py_getitem (_rows self) row_idx) (fun row =>
          rbind (py_getitem row col_idx) (fun v => Val (Cell v)))
      | _, _ =>
          Fail (Exn (Error
            ("Bad index, expected [<row idx>, <column name | column index>]: "
             +:+ str_index idx)))
      end
  | _ => Fail (Exn (Error ("Bad index: " +:+ str_index idx)))
  end.

(** [DataFrameResultSet.__iter__]: what the generator yields, one entry per
    row. *)
Definition __iter__ (self : t) : list (result (list (string * V))) :=
  map (fun i => _row_to_dict self (Z.of_nat i)) (seq 0 (__len__ self)).

(** A result set as a query produces it: every row has one cell per column. *)
Definition rectangular (self : t) : Prop :=
  Forall (fun row => length row = length (_col_names self)) (_rows self).

End with_values.

Arguments Val {A} a.
Arguments Fail {A} r.

End DataFrameResultSet.

(** * The vocabulary of the properties *)

Module ViewTerms.
Section with_env.
Context `{ES : ExprSystem} `{CE : !CatalogEnv}.

(** What [_get_snapshot_path] does to one version of the chain. *)
Definition pinned (tv : TableVersion.t) : TableVersion.t :=
  if TableVersion.is_snapshot tv then tv else create_snapshot_copy tv.

(** An exception of the column checks is an [Error] of view.py or whatever
    [Table._verify_column] raised. *)
Definition raised_by_check (e : exn) : Prop :=
  (exists msg, e = Error msg) \/
  (exists col names, Table_verify_column col names = Raise e).

(** Every entry refers to a handle that is marked dropped. *)
Definition all_dropped (w : World DB) (deps : list addr) : Prop :=
  Forall (fun dep => exists o, objs w !! dep = Some o
                               /\ Table._is_dropped (table_of o) = true) deps.

(** The world after the [snapshot_only] branch: the handle gets its
    [is_dropped] attribute, the store is the one [delete_md] leaves, and the
    view's id leaves [tbls]. *)
Definition after_drop_snapshot_only (self : addr) (tbl : Table.t) (base_id : UUID)
    (d : DB) (w : World DB) : World DB :=
  {| objs := <[self := AView (Table.set_is_dropped tbl true) base_id true]> (objs w);
     cat := Catalog.set_tbls (cat w) (delete (Table._id tbl) (Catalog.tbls (cat w)));
     db := d |}.

End with_env.
End ViewTerms.

Module DataFrameTerms.
Section with_exprs.
Context `{ES : ExprSystem}.

(** The checks of [__init__], which depend on the arguments only: they yield
    the normalized select list. *)
Definition init_checks (tbl : TableVersionPath.t)
    (select_list : option (list (Expr * option string)))
    (group_by_clause : option (list Expr)) (grouping_tbl : option TableVersion.t)
  : outcome (list Expr * list string) :=
  check_ DataFrame._select_list_check_rep select_list;
  check n <- DataFrame._normalize_select_list tbl select_list;
  check_ DataFrame._select_list_check_rep (Some (zip n.1 (map Some n.2)));
  if negb (length n.2 =? length n.1)%nat then Raise AssertionError
  else if negb (negb (bool_decide (is_Some group_by_clause))
                || negb (bool_decide (is_Some grouping_tbl)))
       then Raise AssertionError
       else Ok n.

(** The object [__init__] fills in. *)
Definition frame_of (tbl : TableVersionPath.t)
    (select_list : option (list (Expr * option string)))
    (where_clause : option Expr) (group_by_clause : option (list Expr))
    (grouping_tbl : option TableVersion.t) (order_by_clause : option addr)
    (limit : option Z) (n : list Expr * list string) : DataFrame.t :=
  {| DataFrame.tbl := tbl;
     DataFrame._select_list_exprs := n.1;
     DataFrame._schema := dict_of_items (zip n.2 (map expr_col_type n.1));
     DataFrame.select_list := select_list;
     DataFrame.where_clause := where_clause;
     DataFrame.group_by_clause := group_by_clause;
     DataFrame.grouping_tbl := grouping_tbl;
     DataFrame.order_by_clause := order_by_clause;
     DataFrame.limit_val := limit |}.

(** Nothing that was in the heap is changed: the heap only grows. *)
Definition preserved (h h' : DataFrame.Heap) : Prop :=
  (forall x df, DataFrame.frames h !! x = Some df -> DataFrame.frames h' !! x = Some df) /\
  (forall a l, DataFrame.lists h !! a = Some l -> DataFrame.lists h' !! a = Some l).

(** The variables found in a DataFrame, given the entries of its order-by
    list. *)
Definition vars_of (df : DataFrame.t) (order_by : option (list (Expr * bool)))
  : list Variable_ :=
  list_subexprs_Variable (DataFrame.all_exprs df order_by).

(** No name is declared with two types. *)
Definition consistent (vars : list Variable_) : Prop :=
  forall v1 v2, v1 ∈ vars -> v2 ∈ vars ->
    var_name v1 = var_name v2 -> var_col_type v1 = var_col_type v2.

(** The arguments of [bind] that name a variable of the DataFrame. *)
Definition named_in (unique_vars : gmap string Variable_) (args : list (string * Any))
  : list (string * Any) :=
  filter (fun kv => is_Some (unique_vars !! kv.1)) args.

(** [var_exprs] maps the variable named by the argument to the expression
    made from the argument's value. *)
Definition binds (unique_vars : gmap string Variable_) (kv : string * Any)
    (entry : Expr * Expr) : Prop :=
  exists v, unique_vars !! kv.1 = Some v /\ entry.1 = var_expr v
            /\ from_object kv.2 = Some entry.2.

(** What the round trip needs from the serializers of expressions, paths and
    table versions, none of which is defined in dataframe.py. *)
Class SerialLaws : Prop := {
  from_dict_as_dict : forall e : Expr, from_dict (as_dict e) = e;
  path_from_dict_as_dict :
    forall p : TableVersionPath.t, path_from_dict (path_as_dict p) = p;
  tbl_version_from_dict_as_dict :
    forall tv : TableVersion.t, tbl_version_from_dict (tbl_version_as_dict tv) = tv
}.

(** The state of an object that [__init__] has filled in: its attributes
    passed the checks, and the normalized select list and the schema are the
    ones computed from them. *)
Definition valid (df : DataFrame.t) : Prop :=
  exists n,
    init_checks (DataFrame.tbl df) (DataFrame.select_list df)
      (DataFrame.group_by_clause df) (DataFrame.grouping_tbl df) = Ok n /\
    DataFrame._select_list_exprs df = n.1 /\
    DataFrame._schema df = dict_of_items (zip n.2 (map expr_col_type n.1)).

(** The heaps that the methods of the class build: every object is as
    [__init__] leaves it and its order-by list, if it has one, is in the
    heap. *)
Definition wf (h : DataFrame.Heap) : Prop :=
  forall x df, DataFrame.frames h !! x = Some df ->
    valid df /\
    forall a, DataFrame.order_by_clause df = Some a -> is_Some (DataFrame.lists h !! a).

End with_exprs.
End DataFrameTerms.

(** ** The value of a DataFrame and the names of its columns *)

Module DataFrameValue.
Section with_exprs.
Context `{ES : ExprSystem}.

(** How [_normalize_select_list] names entry [i] of the select list, [earlier]
    being the names of the entries before it: a name given by the caller is
    kept; an expression without a default name is called [col_i]; a default
    name is kept when no earlier entry has it, and otherwise gets the first
    suffix [_1], [_2], ... that makes it differ from every earlier name. *)
Definition named_as (i : nat) (expr : Expr) (name : option string)
    (earlier : list string) (column_name : string) : Prop :=
  match name with
  | Some s => column_name = s
  | None =>
      match default_column_name expr with
      | None => column_name = "col_" +:+ pretty i
      | Some d =>
          ((d ∉ earlier) /\ column_name = d) \/
          ((d ∈ earlier) /\
           exists j, 1 <= j <= length earlier /\
             column_name = d +:+ "_" +:+ pretty j /\
             (column_name ∉ earlier) /\
             forall j', 1 <= j' < j -> d +:+ "_" +:+ pretty j' ∈ earlier)
      end
  end.

(** The select list [_normalize_select_list] works on: the one given, or one
    unnamed entry per column of the table. *)
Definition expanded (tbl : TableVersionPath.t)
    (select_list : option (list (Expr * option string))) : list (Expr * option string) :=
  match select_list with
  | None => map (fun e => (e, None)) (column_refs tbl)
  | Some l => l
  end.

(** The entries of the order-by list of an object, read from the heap. *)
Definition entries (h : DataFrame.Heap) (df : DataFrame.t)
  : option (list (Expr * bool)) :=
  match DataFrame.order_by_clause df with
  | Some a => DataFrame.lists h !! a
  | None => None
  end.

(** The query an object stands for: its attributes, with the order-by list
    by its entries instead of its address. *)
Record t : Type := {
  tbl : TableVersionPath.t;
  select_list_exprs : list Expr;
  schema : list (string * ColumnType);
  select_list : option (list (Expr * option string));
  where_clause : option Expr;
  group_by_clause : option (list Expr);
  grouping_tbl : option TableVersion.t;
  order_by_clause : option (list (Expr * bool));
  limit_val : option Z
}.

Definition query_of (h : DataFrame.Heap) (df : DataFrame.t) : t :=
  {| tbl := DataFrame.tbl df;
     select_list_exprs := DataFrame._select_list_exprs df;
     schema := DataFrame._schema df;
     select_list := DataFrame.select_list df;
     where_clause := DataFrame.where_clause df;
     group_by_clause := DataFrame.group_by_clause df;
     grouping_tbl := DataFrame.grouping_tbl df;
     order_by_clause := entries h df;
     limit_val := DataFrame.limit_val df |}.

Definition with_where (q : t) (w : option Expr) : t :=
  {| tbl := tbl q; select_list_exprs := select_list_exprs q; schema := schema q;
     select_list := select_list q; where_clause := w;
     group_by_clause := group_by_clause q; grouping_tbl := grouping_tbl q;
     order_by_clause := order_by_clause q; limit_val := limit_val q |}.

Definition with_limit (q : t) (n : option Z) : t :=
  {| tbl := tbl q; select_list_exprs := select_list_exprs q; schema := schema q;
     select_list := select_list q; where_clause := where_clause q;
     group_by_clause := group_by_clause q; grouping_tbl := grouping_tbl q;
     order_by_clause := order_by_clause q; limit_val := n |}.

Definition with_grouping (q : t) (g : option (list Expr)) (gt : option TableVersion.t) : t :=
  {| tbl := tbl q; select_list_exprs := select_list_exprs q; schema := schema q;
     select_list := select_list q; where_clause := where_clause q;
     group_by_clause := g; grouping_tbl := gt;
     order_by_clause := order_by_clause q; limit_val := limit_val q |}.

Definition with_order (q : t) (o : option (list (Expr * bool))) : t :=
  {| tbl := tbl q; select_list_exprs := select_list_exprs q; schema := schema q;
     select_list := select_list q; where_clause := where_clause q;
     group_by_clause := group_by_clause q; grouping_tbl := grouping_tbl q;
     order_by_clause := o; limit_val := limit_val q |}.

Definition with_select (q : t) (sl : list (Expr * option string)) (names : list string) : t :=
  {| tbl := tbl q; select_list_exprs := map fst sl;
     schema := zip names (map (fun ent => expr_col_type ent.1) sl);
     select_list := Some sl; where_clause := where_clause q;
     group_by_clause := group_by_clause q; grouping_tbl := grouping_tbl q;
     order_by_clause := order_by_clause q; limit_val := limit_val q |}.

(** [a] is a new object of [h'] that stands for the query [q], and its
    order-by list, if it has one, is a list object that [h] does not have. *)
Definition builds (h : DataFrame.Heap) (a : addr) (h' : DataFrame.Heap) (q : t) : Prop :=
  DataFrame.frames h !! a = None /\
  exists df', DataFrame.frames h' !! a = Some df' /\
    query_of h' df' = q /\
    forall a0, DataFrame.order_by_clause df' = Some a0 -> DataFrame.lists h !! a0 = None.

(** What [_description] needs of an object to return: some clause is set, the
    schema has as many entries as the select list, and neither the group-by
    clause nor the order-by list is empty. *)
Definition describable (h : DataFrame.Heap) (df : DataFrame.t) : Prop :=
  (is_Some (DataFrame.select_list df) \/ is_Some (DataFrame.where_clause df) \/
   is_Some (DataFrame.group_by_clause df) \/ is_Some (DataFrame.order_by_clause df) \/
   is_Some (DataFrame.limit_val df)) /\
  (forall l, DataFrame.select_list df = Some l ->
     length (DataFrame._schema df) = length l) /\
  DataFrame.group_by_clause df <> Some [] /\
  entries h df <> Some [].

(** The heading column of a description: one row per entry of the info
    column, the first row of each clause bearing the name of the clause. *)
Definition description_heading (h : DataFrame.Heap) (df : DataFrame.t) : list string :=
  match DataFrame.select_list df with
  | Some l => "Select" :: replicate (length l - 1) EmptyString
  | None => []
  end
  ++ match DataFrame.where_clause df with
     | Some _ => ["Where"]
     | None => []
     end
  ++ match DataFrame.group_by_clause df with
     | Some g => "Group By" :: replicate (length g - 1) EmptyString
     | None => []
     end
  ++ match entries h df with
     | Some o => "Order By" :: replicate (length o - 1) EmptyString
     | None => []
     end
  ++ match DataFrame.limit_val df with
     | Some _ => ["Limit"]
     | None => []
     end.

(** The info column of a description: the keys of the schema when a select
    list is set, the predicate, the group-by expressions, the order-by
    entries with their direction, and the limit. *)
Definition description_info (display_str : Expr -> string) (h : DataFrame.Heap)
    (df : DataFrame.t) : list string :=
  match DataFrame.select_list df with
  | Some _ => map fst (DataFrame._schema df)
  | None => []
  end
  ++ match DataFrame.where_clause df with
     | Some w => [display_str w]
     | None => []
     end
  ++ match DataFrame.group_by_clause df with
     | Some g => map display_str g
     | None => []
     end
  ++ match entries h df with
     | Some o => map (fun e : Expr * bool =>
                        display_str e.1 +:+ " " +:+ (if e.2 then "asc" else "desc")) o
     | None => []
     end
  ++ match DataFrame.limit_val df with
     | Some n => [pretty n]
     | None => []
     end.

End with_exprs.
End DataFrameValue.

(** * A small instance

    A concrete expression system and catalog environment, used to run the
    definitions above on explicit inputs. *)

Module Demo.

Inductive ctype : Type :=
| CInt (nullable : bool)
| CBool
| CString
| CJson
| CInvalid.

#[global] Instance ctype_eq_dec : EqDecision ctype.
Proof. solve_decision. Defined.

Inductive expr : Type :=
| ColumnRef (tbl : UUID) (name : string) (ty : ctype)
| Var (name : string) (ty : ctype)
| LiteralInt (z : Z)
| LiteralStr (s : string)
| Less (a b : expr)
| Inline (is_dict : bool) (payload : Z)
| Unknown.

#[global] Instance expr_eq_dec : EqDecision expr.
Proof. solve_decision. Defined.

Inductive any : Type :=
| AExpr (e : expr)
| AInt (z : Z)
| AStr (s : string)
| ADict (payload : Z)
| AList (payload : Z)
| ATableHandle (t : Table.t)
| ASchema (cols : list (string * (ctype + expr)))
| AObject.

Definition ctype_nullable (ty : ctype) : bool :=
  match ty with CInt b => b | _ => true end.

Definition ctype_str (ty : ctype) : string :=
  match ty with
  | CInt _ => "Int" | CBool => "Bool" | CString => "String"
  | CJson => "Json" | CInvalid => "Invalid"
  end.

Definition type_of (e : expr) : ctype :=
  match e with
  | ColumnRef _ _ ty | Var _ ty => ty
  | LiteralInt _ => CInt false
  | LiteralStr _ => CString
  | Less _ _ => CBool
  | Inline _ _ => CJson
  | Unknown => CInvalid
  end.

Definition class_name (e : expr) : string :=
  match e with
  | ColumnRef _ _ _ => "ColumnRef" | Var _ _ => "Variable"
  | LiteralInt _ | LiteralStr _ => "Literal" | Less _ _ => "Comparison"
  | Inline true _ => "InlineDict" | Inline false _ => "InlineList"
  | Unknown => "Literal"
  end.

(** Every column reference names a table of the path. *)
Fixpoint bound_by (e : expr) (p : TableVersionPath.t) : bool :=
  match e with
  | ColumnRef t _ _ => bool_decide (is_Some (TableVersionPath.find_tbl_version p t))
  | Less a b => bound_by a p && bound_by b p
  | _ => true
  end.

Fixpoint variables_in (e : expr) : list (string * ctype) :=
  match e with
  | Var n ty => [(n, ty)]
  | Less a b => variables_in a ++ variables_in b
  | _ => []
  end.

(** The first entry of [spec] whose key is [e]. *)
Fixpoint spec_lookup (e : expr) (spec : list (expr * expr)) : option expr :=
  match spec with
  | [] => None
  | (old, new) :: rest => if decide (e = old) then Some new else spec_lookup e rest
  end.

Fixpoint subst (e : expr) (spec : list (expr * expr)) : expr :=
  match spec_lookup e spec with
  | Some new => new
  | None =>
      match e with
      | Less a b => Less (subst a spec) (subst b spec)
      | _ => e
      end
  end.

Definition to_expr (o : any) : option expr :=
  match o with
  | AExpr e => Some e
  | AInt z => Some (LiteralInt z)
  | AStr s => Some (LiteralStr s)
  | ADict p => Some (Inline true p)
  | AList p => Some (Inline false p)
  | ATableHandle _ | ASchema _ | AObject => None
  end.

Definition literal (o : any) : expr :=
  match o with
  | AInt z => LiteralInt z
  | AStr s => LiteralStr s
  | _ => Unknown
  end.

Definition payload_of (o : any) : Z :=
  match o with ADict p | AList p => p | _ => 0%Z end.

Definition any_str (o : any) : string :=
  match o with
  | AExpr _ => "<expr>" | AInt z => pretty z | AStr s => s
  | ADict _ => "{...}" | AList _ => "[...]" | ATableHandle t => Table._name t
  | ASchema _ => "{...}" | AObject => "<object>"
  end.

Definition any_type_str (o : any) : string :=
  match o with
  | AExpr _ => "<class 'Expr'>" | AInt _ => "<class 'int'>" | AStr _ => "<class 'str'>"
  | ADict _ | ASchema _ => "<class 'dict'>" | AList _ => "<class 'list'>"
  | ATableHandle _ => "<class 'Table'>" | AObject => "<class 'object'>"
  end.

(** The columns of the tables of the instance: table 10 has [c1] and [c2],
    the others have none. *)
Definition columns_of (i : UUID) : list (string * ctype) :=
  if decide (i = 10%N) then [("c1", CInt true); ("c2", CString)] else [].

Definition path_column_refs (p : TableVersionPath.t) : list expr :=
  flat_map (fun tv => map (fun c => ColumnRef (TableVersion.id tv) c.1 c.2)
                          (columns_of (TableVersion.id tv)))
           (TableVersionPath.get_tbl_versions p).

Definition valid_identifier (s : string) : bool :=
  match s with
  | EmptyString => false
  | String c _ => negb (Ascii.ltb c "A"%char)
  end.

Fixpoint path_of_versions (tv : TableVersion.t) (l : list TableVersion.t)
  : TableVersionPath.t :=
  match l with
  | [] => TableVersionPath.Path tv None
  | tv' :: l' => TableVersionPath.Path tv (Some (path_of_versions tv' l'))
  end.

Definition no_version : TableVersion.t :=
  {| TableVersion.id := 0; TableVersion.name := "none";
     TableVersion.version := 0; TableVersion.is_snapshot := false |}.

Definition path_decode (l : list TableVersion.t) : TableVersionPath.t :=
  match l with
  | [] => TableVersionPath.Path no_version None
  | tv :: l' => path_of_versions tv l'
  end.

#[global] Instance ES : ExprSystem := {|
  Expr := expr;
  ColumnType := ctype;
  Variable_ := string * ctype;
  Any := any;
  ExprDict := string * expr;
  PathDict := list TableVersion.t;
  TableVersionDict := UUID * string * Z * bool;
  nullable := ctype_nullable;
  is_bool_type := fun ty => bool_decide (ty = CBool);
  is_invalid_type := fun ty => bool_decide (ty = CInvalid);
  IntType := CInt false;
  str_ColumnType := ctype_str;
  expr_col_type := type_of;
  default_column_name := fun e => match e with ColumnRef _ n _ => Some n | _ => None end;
  is_bound_by := bound_by;
  retarget := fun e _ => e;
  as_dict := fun e => (class_name e, e);
  from_dict := snd;
  var_name := fst;
  var_col_type := snd;
  var_expr := fun v => Var v.1 v.2;
  list_subexprs_Variable := flat_map variables_in;
  substitute := subst;
  list_substitute := fun l spec => map (fun e => subst e spec) l;
  as_Expr := fun o => match o with AExpr e => Some e | _ => None end;
  is_dict := fun o => match o with ADict _ | ASchema _ => true | _ => false end;
  is_list := fun o => match o with AList _ => true | _ => false end;
  as_Table := fun o => match o with ATableHandle t => Some t | _ => None end;
  InlineDict := fun o => Inline true (payload_of o);
  InlineList := fun o => Inline false (payload_of o);
  Literal := literal;
  from_object := to_expr;
  str_Any := any_str;
  str_type := any_type_str;
  column_refs := path_column_refs;
  is_valid_identifier := valid_identifier;
  path_as_dict := TableVersionPath.get_tbl_versions;
  path_from_dict := path_decode;
  tbl_version_as_dict := fun tv =>
    (TableVersion.id tv, TableVersion.name tv, TableVersion.version tv,
     TableVersion.is_snapshot tv);
  tbl_version_from_dict := fun d =>
    {| TableVersion.id := d.1.1.1; TableVersion.name := d.1.1.2;
       TableVersion.version := d.1.2; TableVersion.is_snapshot := d.2 |}
|}.

(** The backing store of the instance: the next table id, the ids that have
    metadata and the ids that have a physical table. *)
Record store : Type := {
  next_id : UUID;
  metadata : list UUID;
  physical : list UUID
}.

Inductive iterator : Type := FrameIterator.

Definition column_of_spec (c : string * (ctype + expr)) : Column.t :=
  match c.2 with
  | inl ty => {| Column.name := c.1; Column.col_type := ty; Column.stored := true;
                 Column.is_computed := false; Column.value_expr := None |}
  | inr e => {| Column.name := c.1; Column.col_type := type_of e; Column.stored := true;
                Column.is_computed := true; Column.value_expr := Some e |}
  end.

Definition create_columns (o : any) : outcome (list Column.t) :=
  match o with
  | ASchema cols => Ok (map column_of_spec cols)
  | _ => Raise (Error "additional_columns must be a dict")
  end.

Definition verify_column (col : Column.t) (names : list string) : outcome unit :=
  if negb (valid_identifier (Column.name col))
  then Raise (Error ("Invalid column name: " +:+ Column.name col))
  else if bool_decide (Column.name col ∈ names)
       then Raise (Error ("Duplicate column name: " +:+ Column.name col))
       else Ok tt.

Definition check_not_dropped (t : Table.t) : outcome unit :=
  if Table._is_dropped t then Raise (Error (Table._name t +:+ " has been dropped"))
  else Ok tt.

Definition drop_version (i : UUID) (s : store) : store :=
  {| next_id := next_id s;
     metadata := filter (fun j => j <> i) (metadata s);
     physical := filter (fun j => j <> i) (physical s) |}.

Definition mark_dropped (o : SchemaObject) : SchemaObject :=
  let set x := {| Table._id := Table._id x; Table._dir_id := Table._dir_id x;
                  Table._name := Table._name x;
                  Table._tbl_version_path := Table._tbl_version_path x;
                  Table._is_dropped := true; Table.is_dropped := Table.is_dropped x |} in
  match o with
  | ATable x => ATable (set x)
  | AView x b s => AView (set x) b s
  end.

(** The generic drop: the table version goes, the handle is marked dropped
    and leaves [tbls]. *)
Definition table_drop (self : addr) : M (World store) unit :=
  do o <- deref self;
  do_ lift (check_not_dropped (table_of o));
  Py.modify (fun w =>
    {| objs := <[self := mark_dropped o]> (objs w);
       cat := Catalog.set_tbls (cat w)
                (base.delete (Table._id (table_of o)) (Catalog.tbls (cat w)));
       db := drop_version (Table._id (table_of o)) (db w) |}).

Definition version_create (dir_id : UUID) (name : string) (columns : list Column.t)
    (num_retained_versions : Z) (comment : string) (media_validation : bool)
    (base_path : TableVersionPath.t) (view_md : ViewMd.t)
  : M store (UUID * option TableVersion.t) :=
  fun s =>
    let i := next_id s in
    if ViewMd.is_snapshot view_md
       && bool_decide (ViewMd.predicate view_md = None)
       && bool_decide (ViewMd.iterator_class_fqn view_md = None)
       && (length columns =? 0)%nat
    then (Ok (i, None),
          {| next_id := N.succ i; metadata := i :: metadata s; physical := physical s |})
    else (Ok (i, Some {| TableVersion.id := i; TableVersion.name := name;
                         TableVersion.version := 0;
                         TableVersion.is_snapshot := ViewMd.is_snapshot view_md |}),
          {| next_id := N.succ i; metadata := i :: metadata s;
             physical := i :: physical s |}).

#[global] Instance CE : CatalogEnv := {|
  DB := store;
  Iterator := iterator;
  BoundArgs := Z;
  MediaValidation := bool;
  UpdateStatus := unit;
  _POS_COLUMN_NAME := "pos";
  create_snapshot_copy := fun tv =>
    {| TableVersion.id := TableVersion.id tv; TableVersion.name := TableVersion.name tv;
       TableVersion.version := TableVersion.version tv;
       TableVersion.is_snapshot := true |};
  _create_columns := create_columns;
  Table_verify_column := verify_column;
  _check_is_dropped := check_not_dropped;
  Table_drop := table_drop;
  iterator_module := fun _ => "pixeltable.iterators.video";
  iterator_name := fun _ => "FrameIterator";
  bind_iterator_args := fun _ o =>
    match o with
    | ADict p => Ok p
    | _ => Raise (TypeError "missing a required argument: 'video'")
    end;
  output_schema := fun _ _ =>
    ([("frame_idx", CInt false); ("frame", CJson)], ["frame"]);
  TableVersion_create := version_create;
  load_view := fun _ _ => Py.ret tt;
  session_commit := Py.ret tt;
  delete_md := fun i =>
    Py.modify (fun s => {| next_id := next_id s;
                           metadata := filter (fun j => j <> i) (metadata s);
                           physical := physical s |})
|}.

(** *** Inputs *)

Definition tv10 : TableVersion.t :=
  {| TableVersion.id := 10; TableVersion.name := "t";
     TableVersion.version := 3; TableVersion.is_snapshot := false |}.

Definition tv11 : TableVersion.t :=
  {| TableVersion.id := 11; TableVersion.name := "v";
     TableVersion.version := 0; TableVersion.is_snapshot := false |}.

Definition base_path : TableVersionPath.t := TableVersionPath.Path tv10 None.

Definition view_path : TableVersionPath.t :=
  TableVersionPath.Path tv11 (Some base_path).

Definition c1 : expr := ColumnRef 10 "c1" (CInt true).
Definition c2 : expr := ColumnRef 10 "c2" CString.

(** [c1 < 7], and [c1 < x] with a variable [x]. *)
Definition c1_small : expr := Less c1 (LiteralInt 7).
Definition c1_below_x : expr := Less c1 (Var "x" (CInt false)).

(** A catalog with the table [t] alone. *)
Definition w0 : World store :=
  {| objs := {[ 1%positive :=
                  ATable {| Table._id := 10; Table._dir_id := 1; Table._name := "t";
                            Table._tbl_version_path := base_path;
                            Table._is_dropped := false; Table.is_dropped := None |} ]};
     cat := {| Catalog.tbls := {[ 10%N := 1%positive ]};
               Catalog.tbl_dependents := {[ 10%N := [] ]} |};
     db := {| next_id := 11; metadata := [10%N]; physical := [10%N] |} |}.

(** The world after [create_view('v', t.where(c1 < 7))]. *)
Definition w_view : World store :=
  (View._create 1 "v" base_path (ASchema []) (Some c1_small) false 1 "a view" true
     None None w0).2.

(** The world after [create_view('s', t, is_snapshot=True)]. *)
Definition w_snapshot : World store :=
  (View._create 1 "s" base_path (ASchema []) None true 1 "a snapshot" true
     None None w0).2.

(** The handle of the view [v] in [w_view]. *)
Definition v_handle : Table.t :=
  {| Table._id := 11; Table._dir_id := 1; Table._name := "v";
     Table._tbl_version_path := view_path;
     Table._is_dropped := false; Table.is_dropped := None |}.

(** The handle of the snapshot [s] in [w_snapshot]. *)
Definition s_handle : Table.t :=
  {| Table._id := 11; Table._dir_id := 1; Table._name := "s";
     Table._tbl_version_path :=
       TableVersionPath.Path
         {| TableVersion.id := 10; TableVersion.name := "t";
            TableVersion.version := 3; TableVersion.is_snapshot := true |} None;
     Table._is_dropped := false; Table.is_dropped := None |}.

(** Declared columns: a non-computed column that is not nullable. *)
Definition strict_columns : any := ASchema [("n", inl (CInt false))].

(** Declared columns: a column named like an output field of the iterator. *)
Definition clashing_columns : any := ASchema [("frame", inl CJson)].

(** Declared columns: one nullable column. *)
Definition plain_columns : any := ASchema [("note", inl CString)].

Definition empty_heap : DataFrame.Heap :=
  {| DataFrame.frames := ∅; DataFrame.lists := ∅ |}.

(** [t.where(c1 < x)]: object 1. *)
Definition h_where : DataFrame.Heap :=
  (DataFrame.__init__ base_path None (Some c1_below_x) None None None None empty_heap).2.

(** Arguments for [bind]: [x] with a value and an unused [y]; [x] alone; [x]
    with an object that is no expression. *)
Definition args_x_y : list (string * any) := [("x", AInt 5); ("y", AObject)].
Definition args_x : list (string * any) := [("x", AInt 5)].
Definition args_object : list (string * any) := [("x", AObject)].

(** [df = t.order_by(c1)]: object 1 is the bare query, object 2 is [df], whose
    order-by list is list 2. *)
Definition h_bare : DataFrame.Heap :=
  (DataFrame.__init__ base_path None None None None None None empty_heap).2.
Definition h_ordered : DataFrame.Heap :=
  (DataFrame.order_by 1 [AExpr c1] true h_bare).2.

(** The attributes of [df], object 2 of [h_ordered]. *)
Definition df_ordered : DataFrame.t :=
  {| DataFrame.tbl := base_path;
     DataFrame._select_list_exprs := [c1; c2];
     DataFrame._schema := [("c1", CInt true); ("c2", CString)];
     DataFrame.select_list := None;
     DataFrame.where_clause := None;
     DataFrame.group_by_clause := None;
     DataFrame.grouping_tbl := None;
     DataFrame.order_by_clause := Some 2%positive;
     DataFrame.limit_val := None |}.

(** The positional arguments of [df.order_by(c2, asc=False)]. *)
Definition order_args : list any := [AExpr c2].

(** [t.select(c1)]: object 1 is the bare query, object 2 has a select list. *)
Definition h_selected : DataFrame.Heap :=
  (DataFrame.select 1 [AExpr c1] [] h_bare).2.

End Demo.

(** *** More inputs *)

Module DemoMore.
Import Demo.

(** A select list that uses [c1] twice, a literal and a named column. *)
Definition sl_twice : list (expr * option string) :=
  [(c1, None); (c1, None); (LiteralInt 3, None); (c2, Some "two")].

(** A select list without names, in which [c1] occurs twice. *)
Definition sl_defaults : list (expr * option string) :=
  [(c1, None); (c1, None); (c2, None)].

(** Arguments for [order_by] and [group_by]: an expression, then an object
    that is none. *)
Definition items_bad : list any := [AExpr c1; AObject].

(** Items for [select]: [c1] twice, and [c2] under a name; [c1], and [c2]
    under the name [c1]. *)
Definition items_c1_c1 : list any := [AExpr c1; AExpr c1].
Definition named_two : list (string * any) := [("two", AExpr c2)].
Definition items_c1 : list any := [AExpr c1].
Definition named_c1 : list (string * any) := [("c1", AExpr c2)].

(** The handle of the table [t]. *)
Definition t_handle : Table.t :=
  {| Table._id := 10; Table._dir_id := 1; Table._name := "t";
     Table._tbl_version_path := base_path;
     Table._is_dropped := false; Table.is_dropped := None |}.

(** The attributes of the bare query over [t], object 1 of [h_bare], and of
    [t.where(c1 < x)], object 1 of [h_where]. *)
Definition df_bare : @DataFrame.t ES :=
  {| DataFrame.tbl := base_path;
     DataFrame._select_list_exprs := [c1; c2];
     DataFrame._schema := [("c1", CInt true); ("c2", CString)];
     DataFrame.select_list := None;
     DataFrame.where_clause := None;
     DataFrame.group_by_clause := None;
     DataFrame.grouping_tbl := None;
     DataFrame.order_by_clause := None;
     DataFrame.limit_val := None |}.

Definition df_where : @DataFrame.t ES :=
  {| DataFrame.tbl := base_path;
     DataFrame._select_list_exprs := [c1; c2];
     DataFrame._schema := [("c1", CInt true); ("c2", CString)];
     DataFrame.select_list := None;
     DataFrame.where_clause := Some c1_below_x;
     DataFrame.group_by_clause := None;
     DataFrame.grouping_tbl := None;
     DataFrame.order_by_clause := None;
     DataFrame.limit_val := None |}.

(** The attributes of the bare query over the view [v], whose columns are
    those of [t]. *)
Definition df_view : @DataFrame.t ES :=
  {| DataFrame.tbl := view_path;
     DataFrame._select_list_exprs := [c1; c2];
     DataFrame._schema := [("c1", CInt true); ("c2", CString)];
     DataFrame.select_list := None;
     DataFrame.where_clause := None;
     DataFrame.group_by_clause := None;
     DataFrame.grouping_tbl := None;
     DataFrame.order_by_clause := None;
     DataFrame.limit_val := None |}.

(** The bare query over the view [v]: object 1. *)
Definition h_view : DataFrame.Heap :=
  (DataFrame.__init__ view_path None None None None None None empty_heap).2.

(** [t.select(c1, c1, two=c2)] on the bare query: object 2 of the result. *)
Definition h_selected_three : DataFrame.Heap :=
  (DataFrame.select 1 items_c1_c1 named_two h_bare).2.

(** [t.where(c1 < 7)] on the bare query: object 2 of the result. *)
Definition h_filtered : DataFrame.Heap :=
  (DataFrame.where_ 1 (AExpr c1_small) h_bare).2.

(** [t.limit(5)] on the bare query: object 2 of the result. *)
Definition h_limited : DataFrame.Heap :=
  (DataFrame.limit 1 5 h_bare).2.

(** The snapshot [s] taken out of the dependents of [t]. *)
Definition w_unlisted : World store :=
  {| objs := objs w_snapshot;
     cat := Catalog.set_tbl_dependents (cat w_snapshot)
              (<[10%N := []]> (Catalog.tbl_dependents (cat w_snapshot)));
     db := db w_snapshot |}.

(** The snapshot [s] without its own dependents entry. *)
Definition w_no_entry : World store :=
  {| objs := objs w_snapshot;
     cat := Catalog.set_tbl_dependents (cat w_snapshot)
              (base.delete 11%N (Catalog.tbl_dependents (cat w_snapshot)));
     db := db w_snapshot |}.

(** A backing store that logs the calls it gets: the operation, the id of
    the table version and the predicate. *)
Definition log : Type := list (string * UUID * option expr).

Definition log_update (tv : TableVersion.t) (value_spec : any) (where_ : option expr)
    (cascade : bool) : M log nat :=
  fun s => (Ok 1, ("update", TableVersion.id tv, where_) :: s).

Definition log_delete (tv : TableVersion.t) (where_ : option expr) : M log nat :=
  fun s => (Ok 1, ("delete", TableVersion.id tv, where_) :: s).

(** A path is insertable when it is the path of a table that is no
    snapshot. *)
Definition insertable (p : TableVersionPath.t) : bool :=
  negb (bool_decide (is_Some (TableVersionPath.base p)))
  && negb (TableVersion.is_snapshot (TableVersionPath.tbl_version p)).

(** A result set with two rows and the columns [a] and [b]. *)
Definition rs_two : DataFrameResultSet.t Z ctype :=
  DataFrameResultSet.__init__ Z ctype [[1; 2]; [3; 4]]%Z [("a", CInt true); ("b", CInt true)].

(** How an f-string prints an index. *)
Definition atom_str (a : DataFrameResultSet.atom) : string :=
  match a with
  | DataFrameResultSet.AStr s => Py.repr s
  | DataFrameResultSet.AInt z => pretty z
  | DataFrameResultSet.AOther => "<object>"
  end.

Definition index_str (i : DataFrameResultSet.index) : string :=
  match i with
  | DataFrameResultSet.Single a => atom_str a
  | DataFrameResultSet.Tuple items => "(" +:+ join_comma (map atom_str items) +:+ ")"
  end.

End DemoMore.

(** * Properties *)

(** ** Reasoning about computations *)

Lemma bind_Ok_inv {S A B} (m : M S A) (k : A -> M S B) s b s' :
  Py.bind m k s = (Ok b, s') ->
  exists a s1, m s = (Ok a, s1) /\ k a s1 = (Ok b, s').
Proof.
  unfold Py.bind. destruct (m s) as [[a|e] s1]; intros H.
  - eauto.
  - discriminate.
Qed.

Lemma bind_Ok {S A B} (m : M S A) (k : A -> M S B) s a s1 :
  m s = (Ok a, s1) -> Py.bind m k s = k a s1.
Proof. unfold Py.bind. intros ->. reflexivity. Qed.

Lemma bind_Raise {S A B} (m : M S A) (k : A -> M S B) s e s1 :
  m s = (Raise e, s1) -> Py.bind m k s = (Raise e, s1).
Proof. unfold Py.bind. intros ->. reflexivity. Qed.

Lemma lift_Ok_inv {S A} (o : outcome A) (s s' : S) a :
  lift o s = (Ok a, s') -> o = Ok a /\ s' = s.
Proof. unfold lift. intros [= -> ->]. auto. Qed.

Lemma obind_Ok_inv {A B} (o : outcome A) (k : A -> outcome B) b :
  obind o k = Ok b -> exists a, o = Ok a /\ k a = Ok b.
Proof. destruct o as [a|e]; simpl; [eauto | discriminate]. Qed.

(** A computation on the backing store leaves the heap and the catalog alone. *)
Lemma lift_db_frame {DB A} (m : M DB A) (w w' : World DB) r :
  lift_db m w = (r, w') -> objs w' = objs w /\ cat w' = cat w.
Proof.
  unfold lift_db. destruct (m (db w)) as [r0 d]. intros [= <- <-]. auto.
Qed.

(** A fresh address holds nothing. *)
Lemma fresh_addr_None {A} (m : gmap addr A) : m !! fresh (dom m) = None.
Proof. apply not_elem_of_dom. apply is_fresh. Qed.

(** ** Ancestry chains *)

Module TableVersionPathSpec.

(** The induction principle of a chain: the generated one says nothing about
    the optional base. *)
Lemma chain_ind (P : TableVersionPath.t -> Prop) :
  (forall tv, P (TableVersionPath.Path tv None)) ->
  (forall tv b, P b -> P (TableVersionPath.Path tv (Some b))) ->
  forall p, P p.
Proof.
  intros Hnil Hcons.
  fix IH 1. intros [tv [b|]].
  - apply Hcons, IH.
  - apply Hnil.
Qed.

(** [is_snapshot()] holds exactly when every version of the chain is a
    snapshot version. *)
Lemma is_snapshot_iff (p : TableVersionPath.t) :
  TableVersionPath.is_snapshot p = true <->
  Forall (fun tv => TableVersion.is_snapshot tv = true)
         (TableVersionPath.get_tbl_versions p).
Proof.
  induction p as [tv|tv b IH] using chain_ind; simpl.
  - split.
    + intros H. constructor; [exact H | constructor].
    + intros H. inversion H; assumption.
  - rewrite andb_true_iff, IH. split.
    + intros [H1 H2]. constructor; assumption.
    + intros H. inversion H; auto.
Qed.

End TableVersionPathSpec.

(** ** catalog/view.py *)

Module ViewSpec.
Import TableVersionPathSpec ViewTerms.
Section with_env.
Context `{ES : ExprSystem} `{CE : !CatalogEnv}.

Lemma pinned_snapshot_chain (p : TableVersionPath.t) :
  TableVersionPath.is_snapshot p = true ->
  map pinned (TableVersionPath.get_tbl_versions p) = TableVersionPath.get_tbl_versions p.
Proof.
  rewrite is_snapshot_iff. intros H.
  induction H as [|tv l Htv _ IH]; simpl; [reflexivity|].
  unfold pinned at 1. rewrite Htv, IH. reflexivity.
Qed.

(** The versions of the path that [_get_snapshot_path] returns, when the
    snapshot copies are snapshot versions. *)
Lemma get_snapshot_path_versions
    (Hcopy : forall tv, TableVersion.is_snapshot (create_snapshot_copy tv) = true)
    (p : TableVersionPath.t) :
  exists p', View._get_snapshot_path p = Ok p' /\
    TableVersionPath.get_tbl_versions p'
    = map pinned (TableVersionPath.get_tbl_versions p).
Proof.
  induction p as [tv|tv b IH] using chain_ind.
  - simpl. destruct (TableVersion.is_snapshot tv) eqn:Htv; simpl.
    + exists (TableVersionPath.Path tv None). simpl. unfold pinned. rewrite Htv. auto.
    + rewrite Hcopy. simpl. eexists; split; [reflexivity|].
      simpl. unfold pinned. rewrite Htv. reflexivity.
  - destruct IH as (b' & Hb' & Hvers).
    destruct (TableVersionPath.is_snapshot (TableVersionPath.Path tv (Some b))) eqn:Hsnap.
    + exists (TableVersionPath.Path tv (Some b)). split.
      * simpl. simpl in Hsnap. rewrite Hsnap. reflexivity.
      * symmetry. apply pinned_snapshot_chain. exact Hsnap.
    + exists (TableVersionPath.Path (pinned tv) (Some b')). split.
      * simpl. simpl in Hsnap. rewrite Hsnap. unfold pinned.
        destruct (TableVersion.is_snapshot tv) eqn:Htv; simpl.
        -- rewrite Hb'. reflexivity.
        -- rewrite Hcopy. simpl. rewrite Hb'. reflexivity.
      * simpl. rewrite Hvers. reflexivity.
Qed.

Lemma get_snapshot_path_fixed (p : TableVersionPath.t) :
  TableVersionPath.is_snapshot p = true -> View._get_snapshot_path p = Ok p.
Proof. intros H. destruct p as [tv [b|]]; simpl in *; rewrite H; reflexivity. Qed.

(** C3. With [is_snapshot] true, view creation computes the snapshot path
    with [_get_snapshot_path].  Provided a snapshot copy is a snapshot version
    of the same table, the call returns a path whose versions are those of the
    input, in the same order, each non-snapshot version replaced by its
    snapshot copy and each snapshot version kept; so every version of the
    result is a snapshot version, the chain has the same length and the same
    table ids in the same order, [is_snapshot()] of the result is true, and a
    path that is already a snapshot is returned as it is. *)
Theorem get_snapshot_path_spec
    (Hcopy : forall tv, TableVersion.is_snapshot (create_snapshot_copy tv) = true)
    (Hid : forall tv, TableVersion.id (create_snapshot_copy tv) = TableVersion.id tv)
    (p : TableVersionPath.t) :
  exists p',
    View._get_snapshot_path p = Ok p' /\
    TableVersionPath.get_tbl_versions p'
      = map pinned (TableVersionPath.get_tbl_versions p) /\
    Forall (fun tv => TableVersion.is_snapshot tv = true)
           (TableVersionPath.get_tbl_versions p') /\
    length (TableVersionPath.get_tbl_versions p')
      = length (TableVersionPath.get_tbl_versions p) /\
    map TableVersion.id (TableVersionPath.get_tbl_versions p')
      = map TableVersion.id (TableVersionPath.get_tbl_versions p) /\
    TableVersionPath.is_snapshot p' = true /\
    (TableVersionPath.is_snapshot p = true -> p' = p).
Proof.
  destruct (get_snapshot_path_versions Hcopy p) as (p' & Hp' & Hvers).
  assert (Hall : Forall (fun tv => TableVersion.is_snapshot tv = true)
                        (TableVersionPath.get_tbl_versions p')).
  { rewrite Hvers. apply Forall_forall. intros tv' Hin.
    apply list_elem_of_fmap in Hin as (tv & -> & _).
    unfold pinned. destruct (TableVersion.is_snapshot tv) eqn:Htv; auto. }
  exists p'. repeat split; try assumption.
  - rewrite Hvers. apply length_map.
  - rewrite Hvers, map_map. apply map_ext. intros tv. unfold pinned.
    destruct (TableVersion.is_snapshot tv); auto.
  - apply is_snapshot_iff. exact Hall.
  - intros Hsnap. rewrite (get_snapshot_path_fixed p Hsnap) in Hp'. congruence.
Qed.

(** C2. On a view, [insert] and [delete] raise [Error] whatever their
    arguments are, and the world they leave behind (the heap of handles, the
    catalog and the backing store, hence the view's rows and versions) is the
    one they started in. *)
Theorem insert_delete_raise (w : World DB) (self : addr) (tbl : Table.t)
    (base_id : UUID) (snapshot_only : bool)
    (rows : option Any) (print_stats : bool) (on_error : string) (kwargs : Any)
    (where_ : option Expr) :
  objs w !! self = Some (AView tbl base_id snapshot_only) ->
  View.insert self rows print_stats on_error kwargs w
    = (Raise (Error ("view " +:+ Py.repr (Table._name tbl) +:+ ": cannot insert into view")), w)
  /\ View.delete self where_ w
    = (Raise (Error ("view " +:+ Py.repr (Table._name tbl) +:+ ": cannot delete from view")), w).
Proof.
  intros Hself. unfold View.insert, View.delete, View.deref_view, deref, Py.bind.
  rewrite Hself. split; reflexivity.
Qed.

(** *** Validation in [View._create] *)

Lemma verify_schema_from_Raise names columns e :
  View._verify_schema_from names columns = Raise e -> raised_by_check e.
Proof.
  revert names. induction columns as [|col rest IH]; intros names; simpl.
  - discriminate.
  - unfold View._verify_column.
    destruct (negb (nullable (Column.col_type col)) && negb (Column.is_computed col)).
    + simpl. intros [= <-]. left. eauto.
    + destruct (Table_verify_column col names) as [[]|e'] eqn:Hsuper; simpl.
      * apply IH.
      * intros [= <-]. right. eauto.
Qed.

Lemma verify_schema_from_Ok names columns col :
  View._verify_schema_from names columns = Ok tt -> col ∈ columns ->
  nullable (Column.col_type col) || Column.is_computed col = true.
Proof.
  revert names. induction columns as [|c rest IH]; intros names Hok Hin.
  - inversion Hin.
  - simpl in Hok. apply obind_Ok_inv in Hok as ([] & Hc & Hrest).
    apply elem_of_cons in Hin as [->|Hin]; [|eauto].
    unfold View._verify_column in Hc.
    destruct (nullable (Column.col_type c)), (Column.is_computed c);
      simpl in *; auto; discriminate.
Qed.

Lemma check_predicate_Raise base predicate e :
  View.check_predicate base predicate = Raise e -> exists msg, e = Error msg.
Proof.
  destruct predicate as [p|]; simpl; [|discriminate].
  destruct (is_bound_by p base); simpl; [discriminate|]. intros [= <-]. eauto.
Qed.

Lemma check_predicate_Ok base predicate r p :
  View.check_predicate base predicate = Ok r -> predicate = Some p ->
  is_bound_by p base = true.
Proof.
  intros H ->. simpl in H. destruct (is_bound_by p base); [reflexivity|discriminate].
Qed.

Lemma check_value_exprs_Raise base columns e :
  View.check_value_exprs base columns = Raise e -> exists msg, e = Error msg.
Proof.
  induction columns as [|col rest IH]; simpl; [discriminate|].
  destruct (Column.is_computed col); simpl; [|exact IH].
  destruct (Column.value_expr col) as [ex|]; [|exact IH].
  destruct (is_bound_by ex base); simpl; [exact IH|]. intros [= <-]. eauto.
Qed.

Lemma check_value_exprs_Ok base columns col ex :
  View.check_value_exprs base columns = Ok tt -> col ∈ columns ->
  Column.is_computed col = true -> Column.value_expr col = Some ex ->
  is_bound_by ex base = true.
Proof.
  induction columns as [|c rest IH]; intros Hok Hin Hcomp Hex.
  - inversion Hin.
  - simpl in Hok. apply elem_of_cons in Hin as [->|Hin].
    + rewrite Hcomp, Hex in Hok. simpl in Hok.
      destruct (is_bound_by ex base); [reflexivity|discriminate].
    + apply IH; auto.
      destruct (Column.is_computed c); simpl in Hok; [|exact Hok].
      destruct (Column.value_expr c) as [ex'|]; [|exact Hok].
      destruct (is_bound_by ex' base); simpl in Hok; [exact Hok|discriminate].
Qed.

(** A failed validation ends [_create] there, in the world it started in. *)
Lemma create_validate_Raise dir_id name base additional_columns predicate is_snapshot
    num_retained_versions comment media_validation iterator_cls iterator_args e (w : World DB) :
  View.validate base additional_columns predicate iterator_cls iterator_args = Raise e ->
  View._create dir_id name base additional_columns predicate is_snapshot
    num_retained_versions comment media_validation iterator_cls iterator_args w
  = (Raise e, w).
Proof. intros H. unfold View._create, Py.bind, lift. rewrite H. reflexivity. Qed.

Lemma create_validate_Ok dir_id name base additional_columns predicate is_snapshot
    num_retained_versions comment media_validation iterator_cls iterator_args
    columns predicate' (w : World DB) :
  View.validate base additional_columns predicate iterator_cls iterator_args
    = Ok (columns, predicate') ->
  View._create dir_id name base additional_columns predicate is_snapshot
    num_retained_versions comment media_validation iterator_cls iterator_args w
  = View.persist dir_id name base columns predicate' is_snapshot
      num_retained_versions comment media_validation iterator_cls iterator_args w.
Proof. intros H. unfold View._create, Py.bind, lift. rewrite H. reflexivity. Qed.

(** C6. When the declared columns hold a non-computed column that is not
    nullable, or a computed column whose value expression is not bound by the
    base, or when the predicate is not bound by the base, [_create] raises (an
    [Error] of view.py, or what [Table._verify_column] raised on an earlier
    column) and the world it leaves behind, the catalog's [tbls] and
    [tbl_dependents] and the backing store included, is the one it started
    in. *)
Theorem create_rejects_invalid dir_id name base additional_columns predicate is_snapshot
    num_retained_versions comment media_validation iterator_cls iterator_args
    (w : World DB) (columns : list Column.t) :
  _create_columns additional_columns = Ok columns ->
  (exists col, col ∈ columns /\ nullable (Column.col_type col) = false
               /\ Column.is_computed col = false) \/
  (exists col ex, col ∈ columns /\ Column.is_computed col = true
                  /\ Column.value_expr col = Some ex /\ is_bound_by ex base = false) \/
  (exists p, predicate = Some p /\ is_bound_by p base = false) ->
  exists e,
    View._create dir_id name base additional_columns predicate is_snapshot
      num_retained_versions comment media_validation iterator_cls iterator_args w
    = (Raise e, w)
    /\ raised_by_check e.
Proof.
  intros Hcols Hbad.
  cut (exists e, View.validate base additional_columns predicate iterator_cls iterator_args
                 = Raise e /\ raised_by_check e).
  { intros (e & He & Hk). exists e. split; [|exact Hk].
    apply create_validate_Raise. exact He. }
  unfold View.validate. rewrite Hcols. simpl.
  unfold View._verify_schema.
  destruct (View._verify_schema_from [] columns) as [[]|e] eqn:Hschema; simpl.
  2:{ exists e. split; [reflexivity|]. eapply verify_schema_from_Raise; eauto. }
  destruct (View.check_predicate base predicate) as [p'|e] eqn:Hpred; simpl.
  2:{ exists e. split; [reflexivity|]. left. eapply check_predicate_Raise; eauto. }
  destruct (View.check_value_exprs base columns) as [[]|e] eqn:Hval; simpl.
  2:{ exists e. split; [reflexivity|]. left. eapply check_value_exprs_Raise; eauto. }
  exfalso. destruct Hbad as [(col & Hin & Hnull & Hcomp)|[(col & ex & Hin & Hcomp & Hex & Hb)|(p & -> & Hb)]].
  - pose proof (verify_schema_from_Ok _ _ _ Hschema Hin) as H.
    rewrite Hnull, Hcomp in H. discriminate.
  - pose proof (check_value_exprs_Ok _ _ _ _ Hval Hin Hcomp Hex) as H. congruence.
  - pose proof (check_predicate_Ok _ _ _ _ Hpred eq_refl) as H. congruence.
Qed.

(** *** Component views *)

Lemma iterator_col_names output_dict unstored_cols :
  map Column.name (View.iterator_cols output_dict unstored_cols)
  = _POS_COLUMN_NAME :: map fst output_dict.
Proof.
  unfold View.iterator_cols. simpl. f_equal.
  rewrite map_map. apply map_ext. intros [n ty]. reflexivity.
Qed.

Lemma check_duplicates_Raise names columns e :
  View.check_duplicates names columns = Raise e -> exists msg, e = Error msg.
Proof.
  induction columns as [|col rest IH]; simpl; [discriminate|].
  case_bool_decide; [intros [= <-]; eauto | exact IH].
Qed.

Lemma check_duplicates_Ok names columns col :
  View.check_duplicates names columns = Ok tt -> col ∈ columns ->
  Column.name col ∉ names.
Proof.
  induction columns as [|c rest IH]; intros Hok Hin.
  - inversion Hin.
  - simpl in Hok. case_bool_decide; [discriminate|].
    apply elem_of_cons in Hin as [->|Hin]; auto.
Qed.

(** C7. With an iterator class, the columns that the validation hands to the
    rest of [_create] are the position column (an unstored integer column),
    then one column per output field of the iterator in the iterator's order,
    stored exactly when the field is not among the iterator's unstored names,
    then the declared columns; and when a declared column bears the name of
    the position column or of an output field, [_create] raises and leaves
    the world as it was (for the name of the position column, also when the
    iterator arguments are missing or rejected). *)
Theorem iterator_columns_spec base additional_columns predicate
    (it : Iterator) (iterator_args : option Any) :
  (forall columns predicate' dir_id name is_snapshot num_retained_versions comment
          media_validation (w : World DB),
     View.validate base additional_columns predicate (Some it) iterator_args
       = Ok (columns, predicate') ->
     (exists user_columns args bound_args,
       _create_columns additional_columns = Ok user_columns /\
       iterator_args = Some args /\
       bind_iterator_args it args = Ok bound_args /\
       columns =
         Column.init _POS_COLUMN_NAME IntType false
         :: map (fun field =>
                   Column.init field.1 field.2
                     (negb (bool_decide (field.1 ∈ (output_schema it bound_args).2))))
                (output_schema it bound_args).1
         ++ user_columns) /\
     View._create dir_id name base additional_columns predicate is_snapshot
       num_retained_versions comment media_validation (Some it) iterator_args w
     = View.persist dir_id name base columns predicate' is_snapshot
         num_retained_versions comment media_validation (Some it) iterator_args w)
  /\
  (forall user_columns args bound_args col dir_id name is_snapshot
          num_retained_versions comment media_validation (w : World DB),
     _create_columns additional_columns = Ok user_columns ->
     iterator_args = Some args ->
     bind_iterator_args it args = Ok bound_args ->
     col ∈ user_columns ->
     Column.name col = _POS_COLUMN_NAME
       \/ Column.name col ∈ map fst (output_schema it bound_args).1 ->
     exists e,
       View._create dir_id name base additional_columns predicate is_snapshot
         num_retained_versions comment media_validation (Some it) iterator_args w
       = (Raise e, w)
       /\ raised_by_check e)
  /\
  (forall user_columns col dir_id name is_snapshot
          num_retained_versions comment media_validation (w : World DB),
     _create_columns additional_columns = Ok user_columns ->
     col ∈ user_columns ->
     Column.name col = _POS_COLUMN_NAME ->
     exists e,
       View._create dir_id name base additional_columns predicate is_snapshot
         num_retained_versions comment media_validation (Some it) iterator_args w
       = (Raise e, w)).
Proof.
  split; [|split].
  - intros columns predicate' dir_id name is_snapshot nrv comment mv w Hval.
    split; [|apply create_validate_Ok; exact Hval].
    unfold View.validate in Hval.
    apply obind_Ok_inv in Hval as (user_columns & Hcols & Hval).
    apply obind_Ok_inv in Hval as ([] & _ & Hval).
    apply obind_Ok_inv in Hval as (p' & _ & Hval).
    apply obind_Ok_inv in Hval as ([] & _ & Hval).
    apply obind_Ok_inv in Hval as (cols & Hit & Hval).
    injection Hval as <- <-.
    unfold View.add_iterator_columns in Hit.
    destruct iterator_args as [args|]; [|discriminate].
    apply obind_Ok_inv in Hit as (bound_args & Hbind & Hit).
    assert (Hbound : bind_iterator_args it args = Ok bound_args).
    { destruct (bind_iterator_args it args) as [b|[]]; congruence. }
    destruct (output_schema it bound_args) as [output_dict unstored_cols] eqn:Hout.
    apply obind_Ok_inv in Hit as ([] & _ & Hit). injection Hit as <-.
    exists user_columns, args, bound_args. repeat split; try assumption.
    rewrite Hout. unfold View.iterator_cols. simpl. do 2 f_equal.
    apply map_ext. intros [n ty]. reflexivity.
  - intros user_columns args bound_args col dir_id name is_snapshot nrv comment mv w
           Hcols -> Hbound Hin Hname.
    cut (exists e, View.validate base additional_columns predicate (Some it) (Some args)
                   = Raise e /\ raised_by_check e).
    { intros (e & He & Hk). exists e. split; [|exact Hk].
      apply create_validate_Raise. exact He. }
    unfold View.validate. rewrite Hcols. simpl. unfold View._verify_schema.
    destruct (View._verify_schema_from [] user_columns) as [[]|e] eqn:Hschema; simpl.
    2:{ exists e. split; [reflexivity|]. eapply verify_schema_from_Raise; eauto. }
    destruct (View.check_predicate base predicate) as [p'|e] eqn:Hpred; simpl.
    2:{ exists e. split; [reflexivity|]. left. eapply check_predicate_Raise; eauto. }
    destruct (View.check_value_exprs base user_columns) as [[]|e] eqn:Hval; simpl.
    2:{ exists e. split; [reflexivity|]. left. eapply check_value_exprs_Raise; eauto. }
    rewrite Hbound. simpl.
    destruct (output_schema it bound_args) as [output_dict unstored_cols] eqn:Hout.
    pose proof (iterator_col_names output_dict unstored_cols) as Hnames.
    unfold View.iterator_cols in Hnames. simpl in Hnames.
    injection Hnames as Hnames. rewrite Hnames.
    destruct (View.check_duplicates (_POS_COLUMN_NAME :: map fst output_dict) user_columns)
      as [[]|e] eqn:Hdup; simpl.
    + exfalso. apply (check_duplicates_Ok _ _ _ Hdup Hin).
      simpl in Hname. destruct Hname as [->|Hname]; [left | right; exact Hname].
    + exists e. split; [reflexivity|]. left. eapply check_duplicates_Raise; eauto.
  - intros user_columns col dir_id name is_snapshot nrv comment mv w Hcols Hin Hname.
    cut (exists e, View.validate base additional_columns predicate (Some it) iterator_args
                   = Raise e).
    { intros (e & He). exists e. apply create_validate_Raise. exact He. }
    unfold View.validate. rewrite Hcols. simpl. unfold View._verify_schema.
    destruct (View._verify_schema_from [] user_columns) as [[]|e]; simpl; [|eauto].
    destruct (View.check_predicate base predicate) as [p'|e]; simpl; [|eauto].
    destruct (View.check_value_exprs base user_columns) as [[]|e]; simpl; [|eauto].
    destruct iterator_args as [args|]; simpl; [|eauto].
    destruct (bind_iterator_args it args) as [bound_args|e]; simpl.
    + destruct (output_schema it bound_args) as [output_dict unstored_cols].
      pose proof (iterator_col_names output_dict unstored_cols) as Hnames.
      unfold View.iterator_cols in Hnames. simpl in Hnames.
      injection Hnames as Hnames. rewrite Hnames.
      destruct (View.check_duplicates (_POS_COLUMN_NAME :: map fst output_dict)
                  user_columns) as [[]|e] eqn:Hdup; simpl; [|eauto].
      exfalso. apply (check_duplicates_Ok _ _ _ Hdup Hin). rewrite Hname. left.
    + destruct e; simpl; eauto.
Qed.

(** *** Registration in the catalog *)

Lemma view_init_Ok_inv id dir_id name path base_id snapshot_only (w w' : World DB) a :
  View.__init__ id dir_id name path base_id snapshot_only w = (Ok a, w') ->
  a = fresh (dom (objs w)) /\
  base_id ∈ dom (Catalog.tbl_dependents (cat w)) /\
  w' = set_objs w
         (<[a := AView {| Table._id := id; Table._dir_id := dir_id; Table._name := name;
                          Table._tbl_version_path := path;
                          Table._is_dropped := false; Table.is_dropped := None |}
                       base_id snapshot_only]> (objs w)).
Proof.
  unfold View.__init__, Py.bind, Py.get, Py.assert, Py.put, Py.ret, Py.raise.
  case_bool_decide; [|discriminate]. intros [= <- <-]. auto.
Qed.

(** C4. After a successful [_create], the new handle [a] is a new object
    holding a view whose base id is the id of the base path; [tbls] maps the
    view's id to [a]; provided the view's id is not the base's id, the view's
    id maps to the empty list in [tbl_dependents] and the base's list is the
    one from before the call with [a] appended at its end (once: [a] is in no
    list that refers to objects of the heap from before the call); the
    entries of all other ids are as before. *)
Theorem create_registers dir_id name base additional_columns predicate is_snapshot
    num_retained_versions comment media_validation iterator_cls iterator_args
    (w w' : World DB) (a : addr) :
  View._create dir_id name base additional_columns predicate is_snapshot
    num_retained_versions comment media_validation iterator_cls iterator_args w
  = (Ok a, w') ->
  exists tbl snapshot_only old,
    objs w !! a = None /\
    objs w' !! a = Some (AView tbl (TableVersionPath.tbl_id base) snapshot_only) /\
    Table._is_dropped tbl = false /\
    Catalog.tbl_dependents (cat w) !! TableVersionPath.tbl_id base = Some old /\
    Catalog.tbls (cat w') !! Table._id tbl = Some a /\
    (Table._id tbl <> TableVersionPath.tbl_id base ->
       Catalog.tbl_dependents (cat w') !! Table._id tbl = Some [] /\
       Catalog.tbl_dependents (cat w') !! TableVersionPath.tbl_id base = Some (old ++ [a])) /\
    (Forall (fun x => is_Some (objs w !! x)) old -> a ∉ old) /\
    (forall k, k <> Table._id tbl -> k <> TableVersionPath.tbl_id base ->
       Catalog.tbl_dependents (cat w') !! k = Catalog.tbl_dependents (cat w) !! k).
Proof.
  intros H. unfold View._create in H.
  apply bind_Ok_inv in H as ([columns predicate'] & w0 & Hval & H).
  apply lift_Ok_inv in Hval as [_ ->]. simpl in H.
  unfold View.persist in H.
  apply bind_Ok_inv in H as (bvp & w0 & Hbvp & H).
  apply lift_Ok_inv in Hbvp as [_ ->].
  apply bind_Ok_inv in H as ([id tvo] & w1 & Hcreate & H).
  apply lift_db_frame in Hcreate as [Ho1 Hc1].
  apply bind_Ok_inv in H as (view & w2 & Hview & H).
  apply bind_Ok_inv in H as ([] & w3 & Hcommit & H).
  apply lift_db_frame in Hcommit as [Ho3 Hc3].
  assert (Hw2 : exists tbl so,
             view = fresh (dom (objs w)) /\
             TableVersionPath.tbl_id base ∈ dom (Catalog.tbl_dependents (cat w)) /\
             objs w2 = <[view := AView tbl (TableVersionPath.tbl_id base) so]> (objs w) /\
             cat w2 = cat w /\ Table._id tbl = id /\ Table._is_dropped tbl = false).
  { destruct tvo as [tv|].
    - apply bind_Ok_inv in Hview as (v & w1' & Hinit & Hview).
      apply bind_Ok_inv in Hview as ([] & w1'' & Hload & Hview).
      injection Hview as <- <-.
      apply lift_db_frame in Hload as [Hol Hcl].
      apply view_init_Ok_inv in Hinit as (Hv & Hdom & Hw1').
      rewrite Hol, Hcl, Hw1'. simpl. rewrite Hc1 in Hdom. rewrite Hv, Ho1, Hc1.
      eexists _, false. repeat split; try reflexivity. exact Hdom.
    - apply view_init_Ok_inv in Hview as (Hv & Hdom & Hw2).
      rewrite Hw2. simpl. rewrite Hc1 in Hdom. rewrite Hv, Ho1, Hc1.
      eexists _, true. repeat split; try reflexivity. exact Hdom. }
  destruct Hw2 as (tbl & so & Hfresh & Hdom & Ho2 & Hc2 & Hid & Hnd).
  apply elem_of_dom in Hdom as [old Hold].
  unfold View.set_dependents, View.append_dependent, View.set_tbl in H.
  unfold Py.bind, Py.modify, Py.get, Py.ret, Py.raise in H. simpl in H.
  destruct (<[id:=[]]> (Catalog.tbl_dependents (cat w3)) !! TableVersionPath.tbl_id base)
    as [l|] eqn:Hl; [|discriminate].
  injection H as <- <-. simpl.
  rewrite Ho3, Ho2, Hc3, Hc2 in *. subst id.
  exists tbl, so, old. repeat split.
  - rewrite Hfresh. apply fresh_addr_None.
  - apply lookup_insert_eq.
  - exact Hnd.
  - exact Hold.
  - apply lookup_insert_eq.
  - destruct (decide (Table._id tbl = TableVersionPath.tbl_id base)); [contradiction|].
    rewrite lookup_insert_ne by congruence. apply lookup_insert_eq.
  - rewrite lookup_insert_ne in Hl by assumption.
    rewrite Hold in Hl. injection Hl as <-. apply lookup_insert_eq.
  - intros Hall Hin. rewrite Forall_forall in Hall.
    destruct (Hall _ Hin) as [o Ho]. rewrite Hfresh, fresh_addr_None in Ho. discriminate.
  - intros k Hk1 Hk2. rewrite !lookup_insert_ne by congruence. reflexivity.
Qed.

(** A view created with [is_snapshot] true sits on the snapshot path of its
    base: its own path is that path, or its own version on top of it. *)
Lemma create_snapshot_sits_on_snapshot_path dir_id name base additional_columns predicate
    num_retained_versions comment media_validation iterator_cls iterator_args
    (w w' : World DB) (a : addr) :
  View._create dir_id name base additional_columns predicate true
    num_retained_versions comment media_validation iterator_cls iterator_args w
  = (Ok a, w') ->
  exists p' tbl snapshot_only,
    View._get_snapshot_path base = Ok p' /\
    objs w' !! a = Some (AView tbl (TableVersionPath.tbl_id base) snapshot_only) /\
    (Table._tbl_version_path tbl = p' \/
     exists tv, Table._tbl_version_path tbl = TableVersionPath.Path tv (Some p')).
Proof.
  intros H. unfold View._create in H.
  apply bind_Ok_inv in H as ([columns predicate'] & w0 & Hval & H).
  apply lift_Ok_inv in Hval as [_ ->]. simpl in H.
  unfold View.persist in H.
  apply bind_Ok_inv in H as (bvp & w0 & Hbvp & H).
  apply lift_Ok_inv in Hbvp as [Hbvp ->].
  apply bind_Ok_inv in H as ([id tvo] & w1 & Hcreate & H).
  apply lift_db_frame in Hcreate as [Ho1 Hc1].
  apply bind_Ok_inv in H as (view & w2 & Hview & H).
  apply bind_Ok_inv in H as ([] & w3 & Hcommit & H).
  apply lift_db_frame in Hcommit as [Ho3 _].
  unfold View.set_dependents, View.append_dependent, View.set_tbl in H.
  unfold Py.bind, Py.modify, Py.get, Py.ret, Py.raise in H. simpl in H.
  destruct (<[id:=[]]> (Catalog.tbl_dependents (cat w3)) !! TableVersionPath.tbl_id base);
    [|discriminate].
  injection H as <- <-. simpl. rewrite Ho3.
  exists bvp. destruct tvo as [tv|].
  - apply bind_Ok_inv in Hview as (v & w1' & Hinit & Hview).
    apply bind_Ok_inv in Hview as ([] & w1'' & Hload & Hview).
    injection Hview as <- <-.
    apply lift_db_frame in Hload as [Hol _].
    apply view_init_Ok_inv in Hinit as (_ & _ & Hw1').
    rewrite Hol, Hw1'. simpl. eexists _, false. split; [exact Hbvp|].
    split; [apply lookup_insert_eq|]. right. exists tv. reflexivity.
  - apply view_init_Ok_inv in Hview as (_ & _ & Hw2).
    rewrite Hw2. simpl. eexists _, true. split; [exact Hbvp|].
    split; [apply lookup_insert_eq|]. left. reflexivity.
Qed.

(** *** Dropping a view *)

(** [l.remove(x)] takes out the first occurrence of [x] and nothing else. *)
Lemma list_remove_Some x l l' :
  list_remove x l = Some l' ->
  exists l1 l2, l = l1 ++ x :: l2 /\ l' = l1 ++ l2 /\ x ∉ l1.
Proof.
  revert l'. induction l as [|y l IH]; intros l'; simpl; [discriminate|].
  destruct (decide (y = x)) as [->|Hne].
  - intros [= <-]. exists [], l. repeat split. apply not_elem_of_nil.
  - destruct (list_remove x l) as [l0|]; simpl; [|discriminate].
    intros [= <-]. destruct (IH l0 eq_refl) as (l1 & l2 & -> & -> & Hnin).
    exists (y :: l1), l2. repeat split.
    rewrite not_elem_of_cons. split; [congruence | exact Hnin].
Qed.

Lemma check_dependents_dropped_Ok (w : World DB) deps :
  all_dropped w deps -> View.check_dependents_dropped deps w = (Ok tt, w).
Proof.
  unfold View.check_dependents_dropped.
  induction 1 as [|dep deps (o & Ho & Hd) _ IH]; simpl; [reflexivity|].
  unfold Py.bind at 1 2. unfold deref at 1. rewrite Ho.
  unfold Py.assert. rewrite Hd. simpl. exact IH.
Qed.

Lemma check_dependents_dropped_Raise (w : World DB) deps :
  Forall (fun dep => is_Some (objs w !! dep)) deps ->
  ~ all_dropped w deps ->
  View.check_dependents_dropped deps w = (Raise AssertionError, w).
Proof.
  unfold View.check_dependents_dropped.
  induction 1 as [|dep deps [o Ho] _ IH]; intros Hnot; simpl.
  - exfalso. apply Hnot. constructor.
  - unfold Py.bind at 1 2. unfold deref at 1. rewrite Ho.
    unfold Py.assert. destruct (Table._is_dropped (table_of o)) eqn:Hd; simpl.
    + apply IH. intros Hall. apply Hnot. constructor; eauto.
    + reflexivity.
Qed.

(** What [unlink] does when it succeeds. *)
Lemma unlink_Ok_inv (self : addr) (w1 w' : World DB) :
  View.unlink self w1 = (Ok tt, w') ->
  exists tbl base_id snapshot_only l l',
    objs w1 !! self = Some (AView tbl base_id snapshot_only) /\
    Catalog.tbl_dependents (cat w1) !! base_id = Some l /\
    list_remove self l = Some l' /\
    objs w' = objs w1 /\ db w' = db w1 /\
    Catalog.tbls (cat w') = Catalog.tbls (cat w1) /\
    Catalog.tbl_dependents (cat w')
    = delete (Table._id tbl) (<[base_id := l']> (Catalog.tbl_dependents (cat w1))).
Proof.
  unfold View.unlink, View.deref_view, deref, View.remove_dependent, View.del_dependents,
    View.set_dependents, Py.bind, Py.get, Py.modify, Py.put, Py.ret, Py.raise.
  destruct (objs w1 !! self) as [[x|tbl base_id so]|] eqn:Hself; try discriminate.
  destruct (Catalog.tbl_dependents (cat w1) !! base_id) as [l|] eqn:Hl; [|discriminate].
  destruct (list_remove self l) as [l'|] eqn:Hrem; [|discriminate]. simpl.
  destruct (<[base_id:=l']> (Catalog.tbl_dependents (cat w1)) !! Table._id tbl);
    [|discriminate].
  intros [= <-]. exists tbl, base_id, so, l, l'. simpl. repeat split; auto.
Qed.

Lemma unlink_Ok (self : addr) (w1 : World DB) tbl base_id snapshot_only l l' :
  objs w1 !! self = Some (AView tbl base_id snapshot_only) ->
  Catalog.tbl_dependents (cat w1) !! base_id = Some l ->
  list_remove self l = Some l' ->
  is_Some (Catalog.tbl_dependents (cat w1) !! Table._id tbl) ->
  View.unlink self w1
  = (Ok tt,
     set_cat w1 (Catalog.set_tbl_dependents (cat w1)
       (delete (Table._id tbl) (<[base_id := l']> (Catalog.tbl_dependents (cat w1)))))).
Proof.
  intros Hself Hl Hrem [d Hd].
  unfold View.unlink, View.deref_view, deref, View.remove_dependent, View.del_dependents,
    View.set_dependents, Py.bind, Py.get, Py.modify, Py.put, Py.ret, Py.raise.
  rewrite Hself, Hl, Hrem. simpl.
  destruct (decide (base_id = Table._id tbl)) as [->|Hne].
  - rewrite lookup_insert_eq. reflexivity.
  - rewrite lookup_insert_ne, Hd by assumption. reflexivity.
Qed.

Lemma drop_snapshot_only_Ok (self : addr) tbl base_id (w : World DB) d :
  objs w !! self = Some (AView tbl base_id true) ->
  _check_is_dropped tbl = Ok tt ->
  delete_md (Table._id tbl) (db w) = (Ok tt, d) ->
  is_Some (Catalog.tbls (cat w) !! Table._id tbl) ->
  View.drop_snapshot_only self tbl w
  = (Ok tt, after_drop_snapshot_only self tbl base_id d w).
Proof.
  intros Hself Hcheck Hmd [x Hx].
  unfold View.drop_snapshot_only, View.setattr_is_dropped, deref, lift_db, View.del_tbl,
    Py.bind, Py.lift, Py.get, Py.modify, Py.put, Py.ret, Py.raise.
  rewrite Hcheck, Hself. simpl. rewrite Hmd. simpl. rewrite Hx. reflexivity.
Qed.

(** C5. For a view [self] with dependents list [deps]:
    - when the entries of [deps] are handles of the heap and one of them is
      not marked dropped, [_drop] raises [AssertionError] and changes nothing;
    - when all of them are marked dropped and the view is [snapshot_only],
      [_drop] deletes the view's metadata with [delete_md], which is the only
      operation on the backing store, takes the view's id out of [tbls],
      takes the view out of its base's list and deletes its own entry;
    - when all of them are marked dropped and the view is not
      [snapshot_only], [_drop] is [Table._drop] followed by the same two
      updates of [tbl_dependents];
    - whenever [_drop] succeeds, the last thing it did was to take the first
      occurrence of the view out of its base's list and to delete the view's
      own entry. *)
Theorem drop_spec (self : addr) (tbl : Table.t) (base_id : UUID) (snapshot_only : bool)
    (deps : list addr) (w : World DB) :
  objs w !! self = Some (AView tbl base_id snapshot_only) ->
  Catalog.tbl_dependents (cat w) !! Table._id tbl = Some deps ->
  (Forall (fun dep => is_Some (objs w !! dep)) deps -> ~ all_dropped w deps ->
     View._drop self w = (Raise AssertionError, w))
  /\
  (all_dropped w deps -> snapshot_only = true ->
     forall d x l l',
       _check_is_dropped tbl = Ok tt ->
       delete_md (Table._id tbl) (db w) = (Ok tt, d) ->
       Catalog.tbls (cat w) !! Table._id tbl = Some x ->
       Catalog.tbl_dependents (cat w) !! base_id = Some l ->
       list_remove self l = Some l' ->
       View._drop self w
       = (Ok tt,
          {| objs := <[self := AView (Table.set_is_dropped tbl true) base_id true]> (objs w);
             cat := {| Catalog.tbls := delete (Table._id tbl) (Catalog.tbls (cat w));
                       Catalog.tbl_dependents :=
                         delete (Table._id tbl)
                           (<[base_id := l']> (Catalog.tbl_dependents (cat w))) |};
             db := d |}))
  /\
  (all_dropped w deps -> snapshot_only = false ->
     View._drop self w
     = match Table_drop self w with
       | (Ok _, w1) => View.unlink self w1
       | (Raise e, w1) => (Raise e, w1)
       end)
  /\
  (forall w', View._drop self w = (Ok tt, w') ->
     exists w1 tbl1 base1 so1 l l1 l2,
       View.unlink self w1 = (Ok tt, w') /\
       objs w1 !! self = Some (AView tbl1 base1 so1) /\
       Catalog.tbl_dependents (cat w1) !! base1 = Some l /\
       l = l1 ++ self :: l2 /\ (self ∉ l1) /\
       Catalog.tbl_dependents (cat w') !! Table._id tbl1 = None /\
       (base1 <> Table._id tbl1 ->
          Catalog.tbl_dependents (cat w') !! base1 = Some (l1 ++ l2))).
Proof.
  intros Hself Hdeps.
  assert (Hstart :
    View._drop self w
    = Py.bind (View.check_dependents_dropped deps)
        (fun _ => Py.bind (if snapshot_only then View.drop_snapshot_only self tbl
                           else Table_drop self) (fun _ => View.unlink self)) w).
  { unfold View._drop, View.deref_view, deref. unfold Py.bind at 1 2.
    rewrite Hself. simpl. unfold Py.bind at 1. unfold Py.get at 1.
    rewrite Hdeps. reflexivity. }
  repeat split.
  - intros Hheap Hnot. rewrite Hstart.
    apply bind_Raise. apply check_dependents_dropped_Raise; assumption.
  - intros Hall -> d x l l' Hcheck Hmd Hx Hl Hrem. rewrite Hstart.
    rewrite (bind_Ok _ _ _ _ _ (check_dependents_dropped_Ok _ _ Hall)).
    rewrite (bind_Ok _ _ _ tt _
               (drop_snapshot_only_Ok self tbl base_id w d Hself Hcheck Hmd (mk_is_Some _ _ Hx))).
    rewrite (unlink_Ok self _ (Table.set_is_dropped tbl true) base_id true l l').
    + reflexivity.
    + simpl. apply lookup_insert_eq.
    + simpl. exact Hl.
    + exact Hrem.
    + simpl. rewrite Hdeps. eauto.
  - intros Hall ->. rewrite Hstart.
    rewrite (bind_Ok _ _ _ _ _ (check_dependents_dropped_Ok _ _ Hall)).
    unfold Py.bind. destruct (Table_drop self w) as [[[]|e] w1]; reflexivity.
  - intros w' Hok. rewrite Hstart in Hok.
    apply bind_Ok_inv in Hok as ([] & w0 & _ & Hok).
    apply bind_Ok_inv in Hok as ([] & w1 & _ & Hok).
    destruct (unlink_Ok_inv _ _ _ Hok)
      as (tbl1 & base1 & so1 & l & l' & Hself1 & Hl & Hrem & _ & _ & _ & Hd).
    destruct (list_remove_Some _ _ _ Hrem) as (l1 & l2 & -> & -> & Hnin).
    exists w1, tbl1, base1, so1, (l1 ++ self :: l2), l1, l2.
    repeat split; try assumption.
    + rewrite Hd. apply lookup_delete_eq.
    + intros Hne. rewrite Hd. rewrite lookup_delete_ne by congruence.
      apply lookup_insert_eq.
Qed.

End with_env.
End ViewSpec.

(** ** dataframe.py *)

Module DataFrameSpec.
Import DataFrameTerms.

#[local] Arguments DataFrame._select_list_check_rep : simpl never.
#[local] Arguments DataFrame._normalize_select_list : simpl never.

Section with_exprs.
Context `{ES : ExprSystem}.

(** Copies of values are the values. *)
Lemma copy_entries {B} (l : list (Expr * B)) :
  map (fun ent => (copy ent.1, ent.2)) l = l.
Proof. induction l as [|[e b] l IH]; simpl; [|rewrite IH]; reflexivity. Qed.

Lemma copy_list (l : list Expr) : map copy l = l.
Proof. apply map_id. Qed.

Lemma copy_option (o : option Expr) : copy <$> o = o.
Proof. destruct o; reflexivity. Qed.

Lemma copy_option_list (o : option (list Expr)) : map copy <$> o = o.
Proof. destruct o as [l|]; simpl; [rewrite copy_list|]; reflexivity. Qed.

Lemma copy_option_entries {B} (o : option (list (Expr * B))) :
  map (fun ent => (copy ent.1, ent.2)) <$> o = o.
Proof. destruct o as [l|]; simpl; [rewrite copy_entries|]; reflexivity. Qed.

(** *** The constructor *)

(** [__init__] in one step: it fails where a check fails, and otherwise
    allocates a copy of the order-by list it was given and the new object,
    and touches nothing else. *)
Lemma init_eq tbl select_list where_clause group_by_clause grouping_tbl
    order_by_clause limit (h : DataFrame.Heap) :
  DataFrame.__init__ tbl select_list where_clause group_by_clause grouping_tbl
    order_by_clause limit h
  = match init_checks tbl select_list group_by_clause grouping_tbl with
    | Raise e => (Raise e, h)
    | Ok n =>
        match order_by_clause with
        | None =>
            (Ok (fresh (dom (DataFrame.frames h))),
             DataFrame.set_frames h
               (<[fresh (dom (DataFrame.frames h)) :=
                    frame_of tbl select_list where_clause group_by_clause grouping_tbl
                      None limit n]> (DataFrame.frames h)))
        | Some a =>
            match DataFrame.lists h !! a with
            | None => (Raise Dangling, h)
            | Some l =>
                (Ok (fresh (dom (DataFrame.frames h))),
                 {| DataFrame.frames :=
                      <[fresh (dom (DataFrame.frames h)) :=
                          frame_of tbl select_list where_clause group_by_clause
                            grouping_tbl (Some (fresh (dom (DataFrame.lists h)))) limit n]>
                        (DataFrame.frames h);
                    DataFrame.lists :=
                      <[fresh (dom (DataFrame.lists h)) := l]> (DataFrame.lists h) |})
            end
        end
    end.
Proof.
  unfold DataFrame.__init__, init_checks.
  rewrite (copy_option_entries select_list), copy_option, copy_option_list.
  unfold Py.bind at 1. unfold Py.lift at 1.
  destruct (DataFrame._select_list_check_rep select_list) as [[]|e]; simpl; [|reflexivity].
  unfold Py.bind at 1. unfold Py.lift at 1.
  destruct (DataFrame._normalize_select_list tbl select_list) as [[exprs names]|e];
    simpl; [|reflexivity].
  unfold Py.bind at 1. unfold Py.lift at 1.
  destruct (DataFrame._select_list_check_rep (Some (zip exprs (map Some names))))
    as [[]|e]; simpl; [|reflexivity].
  unfold Py.bind at 1. unfold Py.assert at 1.
  destruct (length names =? length exprs)%nat; simpl; [|reflexivity].
  unfold Py.bind at 1. unfold Py.assert at 1.
  destruct (negb (bool_decide (is_Some group_by_clause))
            || negb (bool_decide (is_Some grouping_tbl))); simpl; [|reflexivity].
  destruct order_by_clause as [a|]; simpl.
  - unfold Py.bind, DataFrame.read_list, DataFrame.alloc_list, Py.ret.
    destruct (DataFrame.lists h !! a) as [l|]; simpl; [|reflexivity].
    rewrite copy_entries. reflexivity.
  - reflexivity.
Qed.

Lemma preserved_refl h : preserved h h.
Proof. split; auto. Qed.

Lemma preserved_trans h1 h2 h3 : preserved h1 h2 -> preserved h2 h3 -> preserved h1 h3.
Proof. intros [F1 L1] [F2 L2]. split; auto. Qed.

Lemma insert_fresh_lookup {A} (m : gmap addr A) (v x : A) (k : addr) :
  m !! k = Some x -> <[fresh (dom m) := v]> m !! k = Some x.
Proof.
  intros Hk. rewrite lookup_insert_ne; [exact Hk|].
  intros <-. pose proof (is_fresh (dom m)) as Hf.
  apply Hf. apply elem_of_dom. eauto.
Qed.

Lemma init_preserved tbl select_list where_clause group_by_clause grouping_tbl
    order_by_clause limit (h h' : DataFrame.Heap) r :
  DataFrame.__init__ tbl select_list where_clause group_by_clause grouping_tbl
    order_by_clause limit h = (r, h') ->
  preserved h h'.
Proof.
  rewrite init_eq.
  destruct (init_checks tbl select_list group_by_clause grouping_tbl) as [n|e].
  2:{ intros [= <- <-]. apply preserved_refl. }
  destruct order_by_clause as [a|].
  - destruct (DataFrame.lists h !! a) as [l|].
    + intros [= <- <-]. split; simpl; intros; apply insert_fresh_lookup; assumption.
    + intros [= <- <-]. apply preserved_refl.
  - intros [= <- <-]. split; simpl; intros; [apply insert_fresh_lookup|]; assumption.
Qed.

(** *** The builder methods and their receiver *)

Lemma get_frame_bind {A} (self : addr) (k : DataFrame.t -> M DataFrame.Heap A) h :
  Py.bind (DataFrame.get_frame self) k h
  = match DataFrame.frames h !! self with
    | Some df => k df h
    | None => (Raise Dangling, h)
    end.
Proof.
  unfold Py.bind, DataFrame.get_frame.
  destruct (DataFrame.frames h !! self); reflexivity.
Qed.

Lemma lift_bind {S A B} (o : outcome A) (k : A -> M S B) (s : S) :
  Py.bind (Py.lift o) k s
  = match o with Ok a => k a s | Raise e => (Raise e, s) end.
Proof. unfold Py.bind, Py.lift. destruct o; reflexivity. Qed.

(** A step that raised, or returned the receiver, left the heap as it was. *)
Ltac unchanged := intros [= <- <-]; apply preserved_refl.

(** [where] leaves every object of the heap as it was. *)
Lemma where_preserved self pred h r h' :
  DataFrame.where_ self pred h = (r, h') -> preserved h h'.
Proof.
  unfold DataFrame.where_. rewrite get_frame_bind.
  destruct (DataFrame.frames h !! self) as [df|]; [|unchanged].
  destruct (as_Expr pred) as [e|]; [|unchanged].
  destruct (negb (is_bool_type (expr_col_type e)));
    [unchanged | apply init_preserved].
Qed.

(** [limit] leaves every object of the heap as it was. *)
Lemma limit_preserved self n h r h' :
  DataFrame.limit self n h = (r, h') -> preserved h h'.
Proof.
  unfold DataFrame.limit. rewrite get_frame_bind.
  destruct (DataFrame.frames h !! self) as [df|]; [|unchanged].
  apply init_preserved.
Qed.

(** [group_by] leaves every object of the heap as it was. *)
Lemma group_by_preserved self grouping_items h r h' :
  DataFrame.group_by self grouping_items h = (r, h') -> preserved h h'.
Proof.
  unfold DataFrame.group_by. rewrite get_frame_bind.
  destruct (DataFrame.frames h !! self) as [df|]; [|unchanged].
  case_bool_decide; [unchanged|].
  rewrite lift_bind.
  destruct (DataFrame.group_by_loop df (length grouping_items) grouping_items) as [g|e];
    [apply init_preserved | unchanged].
Qed.

(** [select] leaves every object of the heap as it was. *)
Lemma select_preserved self items named_items h r h' :
  DataFrame.select self items named_items h = (r, h') -> preserved h h'.
Proof.
  unfold DataFrame.select. rewrite get_frame_bind.
  destruct (DataFrame.frames h !! self) as [df|]; [|unchanged].
  case_bool_decide; [unchanged|].
  rewrite lift_bind.
  destruct (DataFrame.check_names named_items) as [[]|e];
    [|unchanged].
  destruct (length _ =? 0)%nat; [unchanged|].
  rewrite lift_bind.
  destruct (DataFrame.wrap_items _) as [sl|e]; [|unchanged].
  rewrite lift_bind.
  destruct (DataFrame._normalize_select_list _ _) as [n|e];
    [|unchanged].
  rewrite lift_bind.
  destruct (DataFrame.check_repeated _ _ _) as [[]|e];
    [apply init_preserved | unchanged].
Qed.

(** [order_by] on a receiver without an order-by list leaves every object of
    the heap as it was: the list it extends is a new one. *)
Lemma order_by_preserved_None self df expr_list asc h r h' :
  DataFrame.frames h !! self = Some df ->
  DataFrame.order_by_clause df = None ->
  DataFrame.order_by self expr_list asc h = (r, h') -> preserved h h'.
Proof.
  intros Hself Hnone. unfold DataFrame.order_by. rewrite get_frame_bind, Hself, lift_bind.
  destruct (DataFrame.check_order_exprs expr_list) as [exprs|e];
    [|unchanged].
  rewrite Hnone.
  unfold Py.bind at 1. unfold DataFrame.alloc_list at 1.
  unfold Py.bind at 1. unfold DataFrame.extend_list, Py.bind, DataFrame.read_list,
    Py.modify. simpl. rewrite lookup_insert_eq. simpl.
  rewrite insert_insert_eq. intros Hinit.
  apply init_preserved in Hinit. eapply preserved_trans; [|exact Hinit].
  split; simpl; intros; [|apply insert_fresh_lookup]; assumption.
Qed.

(** C1. The builder methods do not all leave the receiver as it was: when the
    receiver has an order-by list, [order_by] appends the new entries to that
    very list.  After the call, whatever it returns, the receiver's order-by
    list holds its former entries followed by the new ones, so it differs
    from what it was as soon as one expression is given; the receiver's other
    attributes are as before. *)
Theorem order_by_extends_receiver (h : DataFrame.Heap) (self : addr) (df : DataFrame.t)
    (a : addr) (l : list (Expr * bool)) (expr_list : list Any) (exprs : list Expr)
    (asc : bool) :
  DataFrame.frames h !! self = Some df ->
  DataFrame.order_by_clause df = Some a ->
  DataFrame.lists h !! a = Some l ->
  DataFrame.check_order_exprs expr_list = Ok exprs ->
  exists r h',
    DataFrame.order_by self expr_list asc h = (r, h') /\
    DataFrame.frames h' !! self = Some df /\
    DataFrame.lists h' !! a = Some (l ++ map (fun e => (e, asc)) exprs) /\
    (exprs <> [] -> DataFrame.lists h' !! a <> DataFrame.lists h !! a).
Proof.
  intros Hself Ha Hl Hexprs.
  destruct (DataFrame.order_by self expr_list asc h) as [r h'] eqn:Hrun.
  exists r, h'. split; [reflexivity|].
  unfold DataFrame.order_by in Hrun.
  rewrite get_frame_bind, Hself, lift_bind, Hexprs, Ha in Hrun.
  unfold Py.bind at 1 in Hrun. unfold Py.ret at 1 in Hrun.
  unfold Py.bind at 1 in Hrun.
  unfold DataFrame.extend_list, Py.bind, DataFrame.read_list, Py.modify in Hrun.
  rewrite Hl in Hrun. simpl in Hrun.
  apply init_preserved in Hrun as [Hframes Hlists].
  assert (Hnew : DataFrame.lists h' !! a = Some (l ++ map (fun e => (e, asc)) exprs)).
  { apply Hlists. simpl. rewrite lookup_insert_eq. reflexivity. }
  repeat split.
  - apply Hframes. exact Hself.
  - exact Hnew.
  - intros Hne. rewrite Hnew, Hl. intros [= Heq].
    apply (f_equal length) in Heq. rewrite length_app, length_map in Heq.
    destruct exprs; [congruence | simpl in Heq; lia].
Qed.

(** C10. On a receiver whose select list is not set, [select] with no item
    returns the receiver itself and leaves the heap as it was, so the select
    list is still free afterwards.  On a receiver whose select list is set,
    [select] raises [Error], with or without items. *)
Theorem select_nothing (h : DataFrame.Heap) (self : addr) (df : DataFrame.t) :
  DataFrame.frames h !! self = Some df ->
  (DataFrame.select_list df = None ->
     DataFrame.select self [] [] h = (Ok self, h)) /\
  (is_Some (DataFrame.select_list df) ->
     forall items named_items,
       DataFrame.select self items named_items h
       = (Raise (Error "Select list already specified"), h)).
Proof.
  intros Hself. split.
  - intros Hnone. unfold DataFrame.select. rewrite get_frame_bind, Hself, Hnone.
    rewrite bool_decide_eq_false_2 by (intros [? [=]]). reflexivity.
  - intros Hsome items named_items. unfold DataFrame.select.
    rewrite get_frame_bind, Hself. rewrite bool_decide_eq_true_2 by exact Hsome.
    reflexivity.
Qed.

(** *** Parameters *)

Lemma unique_vars_loop_Ok vars m m' :
  DataFrame.unique_vars_loop vars m = Ok m' ->
  (forall n u, m !! n = Some u -> m' !! n = Some u) /\
  (forall v, v ∈ vars ->
     exists u, m' !! var_name v = Some u /\ var_col_type u = var_col_type v) /\
  (forall n u, m' !! n = Some u -> m !! n = Some u \/ (u ∈ vars /\ var_name u = n)).
Proof.
  revert m. induction vars as [|var rest IH]; intros m; simpl.
  - intros [= <-]. repeat split; auto. intros v Hv. inversion Hv.
  - destruct (m !! var_name var) as [first|] eqn:Hfirst.
    + case_bool_decide as Hty; [discriminate|].
      intros Hloop. destruct (IH _ Hloop) as (Hkeep & Hall & Hfrom).
      repeat split; auto.
      * intros v Hv. apply elem_of_cons in Hv as [->|Hv]; [|auto].
        exists first. split; [apply Hkeep; exact Hfirst | exact Hty].
      * intros n u Hu. destruct (Hfrom _ _ Hu) as [|[Hin Hn]]; [auto|].
        right. split; [right; exact Hin | exact Hn].
    + intros Hloop. destruct (IH _ Hloop) as (Hkeep & Hall & Hfrom).
      repeat split.
      * intros n u Hu. apply Hkeep. rewrite lookup_insert_ne; [exact Hu|]. congruence.
      * intros v Hv. apply elem_of_cons in Hv as [->|Hv]; [|auto].
        exists var. split; [|reflexivity]. apply Hkeep. apply lookup_insert_eq.
      * intros n u Hu. destruct (Hfrom _ _ Hu) as [Hins|[Hin Hn]].
        -- destruct (decide (var_name var = n)) as [<-|Hne].
           ++ rewrite lookup_insert_eq in Hins. injection Hins as <-.
              right. split; [left|reflexivity].
           ++ rewrite lookup_insert_ne in Hins by assumption. auto.
        -- right. split; [right; exact Hin | exact Hn].
Qed.

Lemma unique_vars_loop_Raise seen vars m e :
  (forall n u, m !! n = Some u -> var_name u = n /\ u ∈ seen) ->
  DataFrame.unique_vars_loop vars m = Raise e ->
  exists v u, v ∈ vars /\ u ∈ seen ++ vars /\
    var_name u = var_name v /\
    var_col_type u <> var_col_type v /\
    e = Error ("Multiple definitions of parameter " +:+ var_name v).
Proof.
  revert seen m. induction vars as [|var rest IH]; intros seen m Hm; simpl; [discriminate|].
  destruct (m !! var_name var) as [first|] eqn:Hfirst.
  - case_bool_decide as Hty.
    + intros [= <-]. destruct (Hm _ _ Hfirst) as [Hn Hin].
      exists var, first. repeat split; auto.
      * left.
      * apply elem_of_app. left. exact Hin.
    + intros Hloop. destruct (IH seen m Hm Hloop) as (v & u & Hv & Hu & Hn & Hty' & ->).
      exists v, u. repeat split; auto.
      * right; exact Hv.
      * apply elem_of_app in Hu as [Hu|Hu]; apply elem_of_app; [left|right; right]; exact Hu.
  - intros Hloop.
    destruct (IH (seen ++ [var]) (<[var_name var := var]> m)) with (2 := Hloop)
      as (v & u & Hv & Hu & Hn & Hty' & ->).
    { intros n u Hu. destruct (decide (var_name var = n)) as [<-|Hne].
      - rewrite lookup_insert_eq in Hu. injection Hu as <-.
        split; [reflexivity|]. apply elem_of_app. right. left.
      - rewrite lookup_insert_ne in Hu by assumption.
        destruct (Hm _ _ Hu) as [Hn Hin]. split; [exact Hn|].
        apply elem_of_app. left. exact Hin. }
    exists v, u. repeat split; auto.
    + right; exact Hv.
    + rewrite <- app_assoc in Hu. exact Hu.
Qed.

Lemma vars_eq self df order_by h :
  DataFrame.frames h !! self = Some df ->
  DataFrame.read_opt_list (DataFrame.order_by_clause df) h = (Ok order_by, h) ->
  DataFrame._vars self h
  = match DataFrame.unique_vars_loop (vars_of df order_by) ∅ with
    | Ok m => (Ok m, h)
    | Raise e => (Raise e, h)
    end.
Proof.
  intros Hself Hread. unfold DataFrame._vars.
  rewrite get_frame_bind, Hself. unfold Py.bind. rewrite Hread.
  unfold Py.lift, vars_of. destruct (DataFrame.unique_vars_loop _ _); reflexivity.
Qed.

Lemma bind_loop_named_in unique_vars args var_exprs :
  DataFrame.bind_loop unique_vars args var_exprs
  = DataFrame.bind_loop unique_vars (named_in unique_vars args) var_exprs.
Proof.
  unfold named_in. revert var_exprs.
  induction args as [|[n val] rest IH]; intros var_exprs; [reflexivity|].
  destruct (unique_vars !! n) as [v|] eqn:Hn.
  - rewrite filter_cons_True by (simpl; rewrite Hn; eauto).
    simpl. rewrite Hn. destruct (from_object val); [apply IH | reflexivity].
  - rewrite filter_cons_False by (simpl; rewrite Hn; intros [? [=]]).
    simpl. rewrite Hn. apply IH.
Qed.

Lemma bind_loop_Raise unique_vars args var_exprs :
  (exists n val, (n, val) ∈ args /\ is_Some (unique_vars !! n)
                 /\ from_object val = None) ->
  exists msg, DataFrame.bind_loop unique_vars args var_exprs = Raise (Error msg).
Proof.
  revert var_exprs. induction args as [|[n' val'] rest IH];
    intros var_exprs (n & val & Hin & [v Hv] & Hconv).
  - inversion Hin.
  - simpl. apply elem_of_cons in Hin as [[= <- <-]|Hin].
    + rewrite Hv, Hconv. eauto.
    + destruct (unique_vars !! n') as [v'|]; [|apply IH; eauto 6].
      destruct (from_object val'); [apply IH; eauto 6 | eauto].
Qed.

Lemma bind_loop_Ok unique_vars args var_exprs result :
  DataFrame.bind_loop unique_vars args var_exprs = Ok result ->
  exists new, result = var_exprs ++ new /\
    Forall2 (binds unique_vars) (named_in unique_vars args) new.
Proof.
  unfold named_in. revert var_exprs.
  induction args as [|[n val] rest IH]; intros var_exprs; simpl.
  - intros [= <-]. exists []. rewrite app_nil_r. split; [reflexivity|constructor].
  - destruct (unique_vars !! n) as [v|] eqn:Hn.
    + rewrite filter_cons_True by (simpl; rewrite Hn; eauto).
      destruct (from_object val) as [arg_expr|] eqn:Hconv; [|discriminate].
      intros Hloop. destruct (IH _ Hloop) as (new & -> & Hall).
      exists ((var_expr v, arg_expr) :: new). rewrite <- app_assoc. split; [reflexivity|].
      constructor; [|exact Hall]. exists v. auto.
    + rewrite filter_cons_False by (simpl; rewrite Hn; intros [? [=]]).
      apply IH.
Qed.

(** [bind] once the variables are known: the loop over the arguments, a new
    order-by list, and the constructor. *)
Lemma bind_eq self df order_by unique_vars args h :
  DataFrame.frames h !! self = Some df ->
  DataFrame.read_opt_list (DataFrame.order_by_clause df) h = (Ok order_by, h) ->
  DataFrame.unique_vars_loop (vars_of df order_by) ∅ = Ok unique_vars ->
  DataFrame.bind self args h
  = match DataFrame.bind_loop unique_vars args [] with
    | Raise e => (Raise e, h)
    | Ok var_exprs =>
        Py.bind
          (match order_by with
           | Some o =>
               Py.bind (DataFrame.alloc_list
                          (zip (list_substitute (map fst o) var_exprs) (map snd o)))
                       (fun a => Py.ret (Some a))
           | None => Py.ret None
           end)
          (fun order_by_clause =>
             DataFrame.__init__ (DataFrame.tbl df)
               (Some (zip (list_substitute (DataFrame._select_list_exprs df) var_exprs)
                          (map (fun kv => Some kv.1) (DataFrame._schema df))))
               ((fun w => substitute w var_exprs) <$> DataFrame.where_clause df)
               ((fun g => list_substitute g var_exprs) <$> DataFrame.group_by_clause df)
               (DataFrame.grouping_tbl df) order_by_clause (DataFrame.limit_val df)) h
    end.
Proof.
  intros Hself Hread Hvars. unfold DataFrame.bind.
  rewrite get_frame_bind, Hself.
  unfold Py.bind at 1. rewrite Hread.
  unfold Py.bind at 1. rewrite (vars_eq _ _ _ _ Hself Hread), Hvars.
  rewrite lift_bind.
  destruct (DataFrame.bind_loop unique_vars args []) as [var_exprs|e]; [|reflexivity].
  rewrite copy_list, copy_option, copy_option_list.
  destruct order_by as [o|]; simpl; [|reflexivity].
  replace (map (fun p : Expr * bool => copy p.1) o) with (map fst o); [reflexivity|].
  apply map_ext. intros [e b]. reflexivity.
Qed.

(** What a successful [__init__] leaves behind. *)
Lemma frame_init_Ok_inv tbl select_list where_clause group_by_clause grouping_tbl
    order_by_clause limit (h h' : DataFrame.Heap) (a : addr) :
  DataFrame.__init__ tbl select_list where_clause group_by_clause grouping_tbl
    order_by_clause limit h = (Ok a, h') ->
  exists n order_by_clause',
    init_checks tbl select_list group_by_clause grouping_tbl = Ok n /\
    a = fresh (dom (DataFrame.frames h)) /\
    DataFrame.frames h'
      = <[a := frame_of tbl select_list where_clause group_by_clause grouping_tbl
                order_by_clause' limit n]> (DataFrame.frames h) /\
    match order_by_clause with
    | None => order_by_clause' = None /\ DataFrame.lists h' = DataFrame.lists h
    | Some a0 =>
        exists l, DataFrame.lists h !! a0 = Some l /\
          order_by_clause' = Some (fresh (dom (DataFrame.lists h))) /\
          DataFrame.lists h' = <[fresh (dom (DataFrame.lists h)) := l]> (DataFrame.lists h)
    end.
Proof.
  rewrite init_eq.
  destruct (init_checks tbl select_list group_by_clause grouping_tbl) as [n|e];
    [|discriminate].
  destruct order_by_clause as [a0|].
  - destruct (DataFrame.lists h !! a0) as [l|] eqn:Hl; [|discriminate].
    intros [= <- <-]. exists n, (Some (fresh (dom (DataFrame.lists h)))). simpl.
    repeat split. exists l. auto.
  - intros [= <- <-]. exists n, None. simpl. auto.
Qed.

(** C8. [parameters] and [bind] on a DataFrame whose variables are [vars_of]
    (those of the select list, the where clause, the group-by and the
    order-by expressions).
    - When no name is declared with two types, [parameters] returns a
      dictionary with one entry per name of a variable, mapped to the
      variable's type; otherwise [parameters] raises [Error], and so does
      [bind].
    - [bind] does not depend on the arguments that name no variable; it
      raises [Error] when the value given for a variable cannot be made into
      an expression; when it succeeds it returns a new object, leaves the
      objects of the heap as they were, and the new object's select list,
      where clause, group-by and order-by expressions are those of the
      receiver under the substitution that maps each variable named in the
      arguments to the expression made from its value. *)
Theorem parameters_bind_spec (h : DataFrame.Heap) (self : addr) (df : DataFrame.t)
    (order_by : option (list (Expr * bool))) :
  DataFrame.frames h !! self = Some df ->
  DataFrame.read_opt_list (DataFrame.order_by_clause df) h = (Ok order_by, h) ->
  (consistent (vars_of df order_by) ->
     exists params,
       DataFrame.parameters self h = (Ok params, h) /\
       (forall n, is_Some (params !! n) <->
                  exists v, v ∈ vars_of df order_by /\ var_name v = n) /\
       (forall v, v ∈ vars_of df order_by ->
                  params !! var_name v = Some (var_col_type v)))
  /\
  (~ consistent (vars_of df order_by) ->
     exists msg,
       DataFrame.parameters self h = (Raise (Error msg), h) /\
       forall args, DataFrame.bind self args h = (Raise (Error msg), h))
  /\
  (forall unique_vars args,
     DataFrame._vars self h = (Ok unique_vars, h) ->
     DataFrame.bind self args h = DataFrame.bind self (named_in unique_vars args) h /\
     ((exists n val, (n, val) ∈ args /\ is_Some (unique_vars !! n)
                     /\ from_object val = None) ->
        exists msg, DataFrame.bind self args h = (Raise (Error msg), h)) /\
     (forall a' h',
        DataFrame.bind self args h = (Ok a', h') ->
        exists var_exprs df',
          Forall2 (binds unique_vars) (named_in unique_vars args) var_exprs /\
          DataFrame.frames h !! a' = None /\
          DataFrame.frames h' !! a' = Some df' /\
          preserved h h' /\
          DataFrame.tbl df' = DataFrame.tbl df /\
          DataFrame.select_list df'
            = Some (zip (list_substitute (DataFrame._select_list_exprs df) var_exprs)
                        (map (fun kv => Some kv.1) (DataFrame._schema df))) /\
          DataFrame.where_clause df'
            = (fun w => substitute w var_exprs) <$> DataFrame.where_clause df /\
          DataFrame.group_by_clause df'
            = (fun g => list_substitute g var_exprs) <$> DataFrame.group_by_clause df /\
          DataFrame.grouping_tbl df' = DataFrame.grouping_tbl df /\
          DataFrame.limit_val df' = DataFrame.limit_val df /\
          DataFrame.read_opt_list (DataFrame.order_by_clause df') h'
            = (Ok ((fun o => zip (list_substitute (map fst o) var_exprs) (map snd o))
                     <$> order_by), h'))).
Proof.
  intros Hself Hread.
  pose proof (vars_eq self df order_by h Hself Hread) as Hvars.
  split; [|split].
  - intros Hcons. unfold DataFrame.parameters, Py.bind. rewrite Hvars.
    destruct (DataFrame.unique_vars_loop (vars_of df order_by) ∅) as [m|e] eqn:Hloop.
    + destruct (unique_vars_loop_Ok _ _ _ Hloop) as (_ & Hall & Hfrom).
      exists (var_col_type <$> m). split; [reflexivity|]. split.
      * intros n. rewrite lookup_fmap, fmap_is_Some. split.
        -- intros [u Hu]. destruct (Hfrom _ _ Hu) as [Hempty|[Hin Hn]].
           ++ rewrite lookup_empty in Hempty. discriminate.
           ++ eauto.
        -- intros (v & Hv & <-). destruct (Hall _ Hv) as (u & Hu & _). eauto.
      * intros v Hv. destruct (Hall _ Hv) as (u & Hu & Hty).
        rewrite lookup_fmap, Hu. simpl. rewrite Hty. reflexivity.
    + exfalso.
      destruct (unique_vars_loop_Raise [] _ _ _ (fun n u H => ltac:(rewrite lookup_empty in H; discriminate)) Hloop)
        as (v & u & Hv & Hu & Hn & Hty & _).
      apply Hty. apply Hcons; assumption.
  - intros Hnot.
    destruct (DataFrame.unique_vars_loop (vars_of df order_by) ∅) as [m|e] eqn:Hloop.
    + exfalso. apply Hnot. intros v1 v2 H1 H2 Hn.
      destruct (unique_vars_loop_Ok _ _ _ Hloop) as (_ & Hall & _).
      destruct (Hall _ H1) as (u1 & Hu1 & <-).
      destruct (Hall _ H2) as (u2 & Hu2 & <-).
      rewrite Hn in Hu1. congruence.
    + destruct (unique_vars_loop_Raise [] _ _ _ (fun n u H => ltac:(rewrite lookup_empty in H; discriminate)) Hloop)
        as (v & u & _ & _ & _ & _ & ->).
      eexists. split.
      * unfold DataFrame.parameters, Py.bind. rewrite Hvars. reflexivity.
      * intros args. unfold DataFrame.bind.
        rewrite get_frame_bind, Hself. unfold Py.bind at 1. rewrite Hread.
        unfold Py.bind at 1. rewrite Hvars. reflexivity.
  - intros unique_vars args Huv. rewrite Hvars in Huv.
    destruct (DataFrame.unique_vars_loop (vars_of df order_by) ∅) as [m|e] eqn:Hloop;
      [|discriminate].
    injection Huv as ->.
    split; [|split].
    + rewrite !(bind_eq _ _ _ _ _ _ Hself Hread Hloop).
      rewrite <- bind_loop_named_in. reflexivity.
    + intros Hbad. destruct (bind_loop_Raise unique_vars args [] Hbad) as [msg Hmsg].
      exists msg. rewrite (bind_eq _ _ _ _ _ _ Hself Hread Hloop), Hmsg. reflexivity.
    + intros a' h' Hrun. rewrite (bind_eq _ _ _ _ _ _ Hself Hread Hloop) in Hrun.
      destruct (DataFrame.bind_loop unique_vars args []) as [var_exprs|e] eqn:Hargs;
        [|discriminate].
      destruct (bind_loop_Ok _ _ _ _ Hargs) as (new & Hnew & Hbinds).
      simpl in Hnew. subst new.
      apply bind_Ok_inv in Hrun as (ob & h1 & Hob & Hinit).
      pose proof (init_preserved _ _ _ _ _ _ _ _ _ _ Hinit) as Hpres.
      apply frame_init_Ok_inv in Hinit as (n & ob' & _ & Ha' & Hframes & Hlists).
      assert (Hh1 : DataFrame.frames h1 = DataFrame.frames h /\ preserved h h1).
      { destruct order_by as [o|].
        - apply bind_Ok_inv in Hob as (a2 & h2 & Halloc & Hret).
          injection Hret as <- <-. unfold DataFrame.alloc_list in Halloc.
          injection Halloc as <- <-. simpl. split; [reflexivity|].
          split; simpl; intros; [|apply insert_fresh_lookup]; assumption.
        - injection Hob as <- <-. split; [reflexivity|apply preserved_refl]. }
      destruct Hh1 as [Hf1 Hp1].
      exists var_exprs, (frame_of (DataFrame.tbl df)
        (Some (zip (list_substitute (DataFrame._select_list_exprs df) var_exprs)
                   (map (fun kv => Some kv.1) (DataFrame._schema df))))
        ((fun w => substitute w var_exprs) <$> DataFrame.where_clause df)
        ((fun g => list_substitute g var_exprs) <$> DataFrame.group_by_clause df)
        (DataFrame.grouping_tbl df) ob' (DataFrame.limit_val df) n).
      split; [exact Hbinds|].
      split; [rewrite Ha', Hf1; apply fresh_addr_None|].
      split; [rewrite Hframes; apply lookup_insert_eq|].
      split; [eapply preserved_trans; eauto|].
      repeat (split; [reflexivity|]). simpl.
      destruct order_by as [o|].
      * apply bind_Ok_inv in Hob as (a2 & h2 & Halloc & Hret).
        injection Hret as <- <-. unfold DataFrame.alloc_list in Halloc.
        injection Halloc as <- <-.
        destruct Hlists as (l & Hl & -> & Hl').
        simpl in Hl. rewrite lookup_insert_eq in Hl. injection Hl as <-.
        unfold DataFrame.read_opt_list, Py.bind, DataFrame.read_list.
        rewrite Hl', lookup_insert_eq. reflexivity.
      * injection Hob as <- <-. destruct Hlists as [-> _]. reflexivity.
Qed.

(** *** Serialization *)

(** Every object that [__init__] returns is in that state. *)
Lemma init_valid tbl select_list where_clause group_by_clause grouping_tbl
    order_by_clause limit (h h' : DataFrame.Heap) (a : addr) :
  DataFrame.__init__ tbl select_list where_clause group_by_clause grouping_tbl
    order_by_clause limit h = (Ok a, h') ->
  exists df, DataFrame.frames h' !! a = Some df /\ valid df.
Proof.
  intros Hinit. apply frame_init_Ok_inv in Hinit as (n & ob' & Hchecks & _ & Hframes & _).
  eexists. split; [rewrite Hframes; apply lookup_insert_eq|].
  exists n. simpl. auto.
Qed.

Section roundtrip.
Context `{SL : !SerialLaws}.

Lemma entries_roundtrip {B} (l : list (Expr * B)) :
  map (fun ent => (from_dict ent.1, ent.2)) (map (fun ent => (as_dict ent.1, ent.2)) l) = l.
Proof.
  induction l as [|[e b] l IH]; simpl; [reflexivity|].
  rewrite from_dict_as_dict, IH. reflexivity.
Qed.

Lemma exprs_roundtrip (l : list Expr) : map from_dict (map as_dict l) = l.
Proof.
  induction l as [|e l IH]; simpl; [reflexivity|].
  rewrite from_dict_as_dict, IH. reflexivity.
Qed.

(** C9. For a DataFrame as [__init__] leaves it, whose order-by list is in
    the heap, and serializers that invert each other, [as_dict] succeeds
    without changing the heap and [from_dict] on its result returns an object
    with the same table path, select list, where clause, group-by clause,
    grouping table, limit, normalized select list and schema, and an order-by
    list with the same entries; the objects of the heap are left as they
    were.  The query plan is compiled from these attributes alone. *)
Theorem from_dict_as_dict_roundtrip (h : DataFrame.Heap) (self : addr) (df : DataFrame.t)
    (order_by : option (list (Expr * bool))) :
  DataFrame.frames h !! self = Some df ->
  valid df ->
  DataFrame.read_opt_list (DataFrame.order_by_clause df) h = (Ok order_by, h) ->
  exists d a' h' df',
    DataFrame.as_dict_ self h = (Ok d, h) /\
    DataFrame.from_dict_ d h = (Ok a', h') /\
    DataFrame.frames h' !! a' = Some df' /\
    preserved h h' /\
    DataFrame.tbl df' = DataFrame.tbl df /\
    DataFrame.select_list df' = DataFrame.select_list df /\
    DataFrame.where_clause df' = DataFrame.where_clause df /\
    DataFrame.group_by_clause df' = DataFrame.group_by_clause df /\
    DataFrame.grouping_tbl df' = DataFrame.grouping_tbl df /\
    DataFrame.limit_val df' = DataFrame.limit_val df /\
    DataFrame._select_list_exprs df' = DataFrame._select_list_exprs df /\
    DataFrame._schema df' = DataFrame._schema df /\
    DataFrame.read_opt_list (DataFrame.order_by_clause df') h' = (Ok order_by, h').
Proof.
  intros Hself (n & Hchecks & Hexprs & Hschema) Hread.
  assert (Has : DataFrame.as_dict_ self h
    = (Ok {| DataFrame.d_classname := "DataFrame";
             DataFrame.d_tbl := path_as_dict (DataFrame.tbl df);
             DataFrame.d_select_list :=
               map (fun ent => (as_dict ent.1, ent.2)) <$> DataFrame.select_list df;
             DataFrame.d_where_clause := as_dict <$> DataFrame.where_clause df;
             DataFrame.d_group_by_clause := map as_dict <$> DataFrame.group_by_clause df;
             DataFrame.d_grouping_tbl := tbl_version_as_dict <$> DataFrame.grouping_tbl df;
             DataFrame.d_order_by_clause :=
               map (fun ent => (as_dict ent.1, ent.2)) <$> order_by;
             DataFrame.d_limit_val := DataFrame.limit_val df |}, h)).
  { unfold DataFrame.as_dict_. rewrite get_frame_bind, Hself.
    unfold Py.bind. rewrite Hread. reflexivity. }
  match type of Has with _ = (Ok ?d0, _) => set (d := d0) in * end.
  exists d.
  assert (Hfrom : DataFrame.from_dict_ d h
    = Py.bind (match order_by with
               | Some o => Py.bind (DataFrame.alloc_list o) (fun a => Py.ret (Some a))
               | None => Py.ret None
               end)
        (fun ob => DataFrame.__init__ (DataFrame.tbl df) (DataFrame.select_list df)
                     (DataFrame.where_clause df) (DataFrame.group_by_clause df)
                     (DataFrame.grouping_tbl df) ob (DataFrame.limit_val df)) h).
  { unfold DataFrame.from_dict_, d. simpl.
    rewrite path_from_dict_as_dict.
    replace (map (fun ent => (from_dict ent.1, ent.2))
               <$> (map (fun ent => (as_dict ent.1, ent.2)) <$> DataFrame.select_list df))
      with (DataFrame.select_list df)
      by (destruct (DataFrame.select_list df); simpl;
          [rewrite entries_roundtrip|]; reflexivity).
    replace (from_dict <$> (as_dict <$> DataFrame.where_clause df))
      with (DataFrame.where_clause df)
      by (destruct (DataFrame.where_clause df); simpl;
          [rewrite from_dict_as_dict|]; reflexivity).
    replace (map from_dict <$> (map as_dict <$> DataFrame.group_by_clause df))
      with (DataFrame.group_by_clause df)
      by (destruct (DataFrame.group_by_clause df); simpl;
          [rewrite exprs_roundtrip|]; reflexivity).
    replace (tbl_version_from_dict <$> (tbl_version_as_dict <$> DataFrame.grouping_tbl df))
      with (DataFrame.grouping_tbl df)
      by (destruct (DataFrame.grouping_tbl df); simpl;
          [rewrite tbl_version_from_dict_as_dict|]; reflexivity).
    destruct order_by as [o|]; simpl; [rewrite entries_roundtrip|]; reflexivity. }
  rewrite Hfrom. clear Hfrom.
  destruct order_by as [o|].
  - unfold Py.bind at 1. unfold Py.bind at 1. unfold DataFrame.alloc_list, Py.ret.
    rewrite init_eq, Hchecks. simpl. rewrite lookup_insert_eq.
    do 3 eexists. split; [exact Has|]. split; [reflexivity|]. simpl.
    split; [apply lookup_insert_eq|].
    split.
    { split; simpl; intros; [apply insert_fresh_lookup; assumption|].
      apply insert_fresh_lookup. apply insert_fresh_lookup. assumption. }
    simpl. repeat (split; [reflexivity|]).
    split; [symmetry; exact Hexprs|]. split; [symmetry; exact Hschema|].
    unfold DataFrame.read_opt_list, Py.bind, DataFrame.read_list. simpl.
    rewrite lookup_insert_eq. reflexivity.
  - unfold Py.bind at 1. unfold Py.ret at 1.
    rewrite init_eq, Hchecks.
    do 3 eexists. split; [exact Has|]. split; [reflexivity|]. simpl.
    split; [apply lookup_insert_eq|].
    split.
    { split; simpl; intros; [apply insert_fresh_lookup|]; assumption. }
    simpl. repeat (split; [reflexivity|]).
    split; [symmetry; exact Hexprs|]. split; [symmetry; exact Hschema|].
    reflexivity.
Qed.

End roundtrip.

(** *** Well-formed heaps *)

Lemma wf_empty : wf {| DataFrame.frames := ∅; DataFrame.lists := ∅ |}.
Proof. intros x df Hx. simpl in Hx. rewrite lookup_empty in Hx. discriminate. Qed.

(** Writing a list object keeps the heap well formed. *)
Lemma wf_set_list h a l :
  wf h -> wf (DataFrame.set_lists h (<[a := l]> (DataFrame.lists h))).
Proof.
  intros Hwf x df Hx. destruct (Hwf x df Hx) as [Hvalid Hlist].
  split; [exact Hvalid|]. intros a' Ha'. simpl.
  apply lookup_insert_is_Some'. right. apply Hlist. exact Ha'.
Qed.

Lemma wf_init tbl select_list where_clause group_by_clause grouping_tbl
    order_by_clause limit (h h' : DataFrame.Heap) r :
  wf h ->
  DataFrame.__init__ tbl select_list where_clause group_by_clause grouping_tbl
    order_by_clause limit h = (r, h') ->
  wf h'.
Proof.
  intros Hwf. rewrite init_eq.
  destruct (init_checks tbl select_list group_by_clause grouping_tbl) as [n|e] eqn:Hchecks;
    [|intros [= <- <-]; exact Hwf].
  assert (Hnew : forall ob, valid (frame_of tbl select_list where_clause group_by_clause
                                     grouping_tbl ob limit n)).
  { intros ob. exists n. simpl. auto. }
  destruct order_by_clause as [a|].
  - destruct (DataFrame.lists h !! a) as [l|]; [|intros [= <- <-]; exact Hwf].
    intros [= <- <-] x df. simpl.
    destruct (decide (fresh (dom (DataFrame.frames h)) = x)) as [<-|Hne].
    + rewrite lookup_insert_eq. intros [= <-]. split; [apply Hnew|].
      simpl. intros a' [= <-]. rewrite lookup_insert_eq. eauto.
    + rewrite lookup_insert_ne by assumption. intros Hx.
      destruct (Hwf x df Hx) as [Hvalid Hlist]. split; [exact Hvalid|].
      intros a' Ha'. apply lookup_insert_is_Some'. right. apply Hlist. exact Ha'.
  - intros [= <- <-] x df. simpl.
    destruct (decide (fresh (dom (DataFrame.frames h)) = x)) as [<-|Hne].
    + rewrite lookup_insert_eq. intros [= <-]. split; [apply Hnew|].
      simpl. intros a' [=].
    + rewrite lookup_insert_ne by assumption. apply Hwf.
Qed.

(** In a well-formed heap an object is valid and its order-by list can be
    read: the hypotheses of the properties of [parameters], [bind] and
    [as_dict] hold there. *)
Lemma wf_frame h self df :
  wf h -> DataFrame.frames h !! self = Some df ->
  valid df /\
  exists order_by,
    DataFrame.read_opt_list (DataFrame.order_by_clause df) h = (Ok order_by, h).
Proof.
  intros Hwf Hself. destruct (Hwf self df Hself) as [Hvalid Hlist].
  split; [exact Hvalid|].
  unfold DataFrame.read_opt_list, Py.bind, DataFrame.read_list, Py.ret.
  destruct (DataFrame.order_by_clause df) as [a|]; [|eauto].
  destruct (Hlist a eq_refl) as [l ->]. eauto.
Qed.

(** Every method of the class keeps the heap well formed. *)
Lemma wf_where self pred h r h' :
  wf h -> DataFrame.where_ self pred h = (r, h') -> wf h'.
Proof.
  intros Hwf. unfold DataFrame.where_. rewrite get_frame_bind.
  destruct (DataFrame.frames h !! self) as [df|]; [|intros [= <- <-]; exact Hwf].
  destruct (as_Expr pred) as [e|]; [|intros [= <- <-]; exact Hwf].
  destruct (negb (is_bool_type (expr_col_type e)));
    [intros [= <- <-]; exact Hwf | apply wf_init; exact Hwf].
Qed.

Lemma wf_limit self n h r h' :
  wf h -> DataFrame.limit self n h = (r, h') -> wf h'.
Proof.
  intros Hwf. unfold DataFrame.limit. rewrite get_frame_bind.
  destruct (DataFrame.frames h !! self) as [df|]; [|intros [= <- <-]; exact Hwf].
  apply wf_init; exact Hwf.
Qed.

Lemma wf_group_by self grouping_items h r h' :
  wf h -> DataFrame.group_by self grouping_items h = (r, h') -> wf h'.
Proof.
  intros Hwf. unfold DataFrame.group_by. rewrite get_frame_bind.
  destruct (DataFrame.frames h !! self) as [df|]; [|intros [= <- <-]; exact Hwf].
  case_bool_decide; [intros [= <- <-]; exact Hwf|].
  rewrite lift_bind.
  destruct (DataFrame.group_by_loop df (length grouping_items) grouping_items) as [g|e];
    [apply wf_init; exact Hwf | intros [= <- <-]; exact Hwf].
Qed.

Lemma wf_select self items named_items h r h' :
  wf h -> DataFrame.select self items named_items h = (r, h') -> wf h'.
Proof.
  intros Hwf. unfold DataFrame.select. rewrite get_frame_bind.
  destruct (DataFrame.frames h !! self) as [df|]; [|intros [= <- <-]; exact Hwf].
  case_bool_decide; [intros [= <- <-]; exact Hwf|].
  rewrite lift_bind.
  destruct (DataFrame.check_names named_items) as [[]|e];
    [|intros [= <- <-]; exact Hwf].
  destruct (length _ =? 0)%nat; [intros [= <- <-]; exact Hwf|].
  rewrite lift_bind.
  destruct (DataFrame.wrap_items _) as [sl|e]; [|intros [= <- <-]; exact Hwf].
  rewrite lift_bind.
  destruct (DataFrame._normalize_select_list _ _) as [n|e];
    [|intros [= <- <-]; exact Hwf].
  rewrite lift_bind.
  destruct (DataFrame.check_repeated _ _ _) as [[]|e];
    [apply wf_init; exact Hwf | intros [= <- <-]; exact Hwf].
Qed.

Lemma wf_order_by self expr_list asc h r h' :
  wf h -> DataFrame.order_by self expr_list asc h = (r, h') -> wf h'.
Proof.
  intros Hwf. unfold DataFrame.order_by. rewrite get_frame_bind.
  destruct (DataFrame.frames h !! self) as [df|] eqn:Hself;
    [|intros [= <- <-]; exact Hwf].
  rewrite lift_bind.
  destruct (DataFrame.check_order_exprs expr_list) as [exprs|e];
    [|intros [= <- <-]; exact Hwf].
  destruct (DataFrame.order_by_clause df) as [a|] eqn:Ha.
  - unfold Py.bind at 1. unfold Py.ret at 1. unfold Py.bind at 1.
    unfold DataFrame.extend_list, Py.bind, DataFrame.read_list, Py.modify.
    destruct (DataFrame.lists h !! a) as [l|]; [|intros [= <- <-]; exact Hwf].
    apply wf_init. apply wf_set_list. exact Hwf.
  - unfold Py.bind at 1. unfold DataFrame.alloc_list at 1. unfold Py.bind at 1.
    unfold DataFrame.extend_list, Py.bind, DataFrame.read_list, Py.modify. simpl.
    rewrite lookup_insert_eq. simpl.
    apply wf_init. apply wf_set_list. apply (wf_set_list h _ []). exact Hwf.
Qed.

Lemma wf_bind self args h r h' :
  wf h -> DataFrame.bind self args h = (r, h') -> wf h'.
Proof.
  intros Hwf. destruct (DataFrame.frames h !! self) as [df|] eqn:Hself.
  2:{ unfold DataFrame.bind. rewrite get_frame_bind, Hself. intros [= <- <-]. exact Hwf. }
  destruct (wf_frame h self df Hwf Hself) as [_ [order_by Hread]].
  destruct (DataFrame.unique_vars_loop (vars_of df order_by) ∅) as [uv|e] eqn:Hloop.
  - rewrite (bind_eq _ _ _ _ _ _ Hself Hread Hloop).
    destruct (DataFrame.bind_loop uv args []) as [var_exprs|e];
      [|intros [= <- <-]; exact Hwf].
    destruct order_by as [o|].
    + unfold Py.bind at 1. unfold Py.bind at 1. unfold DataFrame.alloc_list, Py.ret.
      apply wf_init. apply wf_set_list. exact Hwf.
    + unfold Py.bind at 1. unfold Py.ret at 1. apply wf_init. exact Hwf.
  - unfold DataFrame.bind. rewrite get_frame_bind, Hself.
    unfold Py.bind at 1. rewrite Hread. unfold Py.bind at 1.
    rewrite (vars_eq _ _ _ _ Hself Hread), Hloop. intros [= <- <-]. exact Hwf.
Qed.

Lemma wf_from_dict d h r h' :
  wf h -> DataFrame.from_dict_ d h = (r, h') -> wf h'.
Proof.
  intros Hwf. unfold DataFrame.from_dict_.
  destruct (DataFrame.d_order_by_clause d) as [o|].
  - unfold Py.bind at 1. unfold Py.bind at 1. unfold DataFrame.alloc_list, Py.ret.
    apply wf_init. apply wf_set_list. exact Hwf.
  - unfold Py.bind at 1. unfold Py.ret at 1. apply wf_init. exact Hwf.
Qed.

End with_exprs.
End DataFrameSpec.

(** * Further properties *)

Lemma bind_Raise_inv {S A B} (m : M S A) (k : A -> M S B) s e s' :
  Py.bind m k s = (Raise e, s') ->
  m s = (Raise e, s') \/ exists a s1, m s = (Ok a, s1) /\ k a s1 = (Raise e, s').
Proof.
  unfold Py.bind. destruct (m s) as [[a|e0] s1]; intros H.
  - right. eauto.
  - left. injection H as -> ->. reflexivity.
Qed.

Lemma lift_Raise_inv {S A} (o : outcome A) (s s' : S) e :
  Py.lift o s = (Raise e, s') -> o = Raise e /\ s' = s.
Proof. unfold Py.lift. intros [= -> ->]. auto. Qed.

(** ** catalog/view.py *)

Module ViewLaws.
Import TableVersionPathSpec ViewTerms.
Section with_env.
Context `{ES : ExprSystem} `{CE : !CatalogEnv}.

(** *** The snapshot path *)

Lemma get_snapshot_path_is_snapshot
    (Hcopy : forall tv, TableVersion.is_snapshot (create_snapshot_copy tv) = true)
    (p p' : TableVersionPath.t) :
  View._get_snapshot_path p = Ok p' -> TableVersionPath.is_snapshot p' = true.
Proof.
  intros Hp'.
  destruct (ViewSpec.get_snapshot_path_versions Hcopy p) as (q & Hq & Hvers).
  rewrite Hp' in Hq. injection Hq as <-.
  apply is_snapshot_iff. rewrite Hvers. apply Forall_forall. intros tv' Hin.
  apply list_elem_of_fmap in Hin as (tv & -> & _).
  unfold pinned. destruct (TableVersion.is_snapshot tv) eqn:Htv; auto.
Qed.

(** X1. Taking the snapshot path of a snapshot path changes nothing: when
    snapshot copies are snapshot versions, the path that [_get_snapshot_path]
    returns is returned as it is by a second call. *)
Theorem get_snapshot_path_idempotent
    (Hcopy : forall tv, TableVersion.is_snapshot (create_snapshot_copy tv) = true)
    (p p' : TableVersionPath.t) :
  View._get_snapshot_path p = Ok p' -> View._get_snapshot_path p' = Ok p'.
Proof.
  intros Hp'. apply ViewSpec.get_snapshot_path_fixed.
  eapply get_snapshot_path_is_snapshot; eauto.
Qed.

(** *** Creation and the catalog *)

Lemma view_init_Raise id dir_id name path base_id snapshot_only (w w' : World DB) e :
  View.__init__ id dir_id name path base_id snapshot_only w = (Raise e, w') -> w' = w.
Proof.
  unfold View.__init__, Py.bind, Py.get, Py.assert, Py.put, Py.ret, Py.raise.
  case_bool_decide; [discriminate|]. intros [= _ <-]. reflexivity.
Qed.

Lemma view_init_cat id dir_id name path base_id snapshot_only (w w' : World DB) a :
  View.__init__ id dir_id name path base_id snapshot_only w = (Ok a, w') ->
  cat w' = cat w /\ base_id ∈ dom (Catalog.tbl_dependents (cat w)).
Proof.
  intros H. apply ViewSpec.view_init_Ok_inv in H as (_ & Hdom & ->). auto.
Qed.

(** The three updates that end [_create] cannot fail once the base has a
    dependents entry. *)
Lemma register_Ok (id base_id : UUID) (view : addr) (w : World DB) :
  base_id ∈ dom (Catalog.tbl_dependents (cat w)) ->
  exists w',
    Py.bind (View.set_dependents id [])
      (fun _ => Py.bind (View.append_dependent base_id view)
         (fun _ => Py.bind (View.set_tbl id view) (fun _ => Py.ret view))) w
    = (Ok view, w').
Proof.
  intros Hdom. apply elem_of_dom in Hdom as [old Hold].
  unfold View.set_dependents, View.append_dependent, View.set_tbl.
  unfold Py.bind, Py.modify, Py.get, Py.ret, Py.raise. simpl.
  destruct (decide (id = base_id)) as [->|Hne].
  - rewrite lookup_insert_eq. eauto.
  - rewrite lookup_insert_ne, Hold by assumption. eauto.
Qed.

(** X2. [_create] never leaves the catalog half updated: whenever it raises,
    at whatever step, [tbls] and [tbl_dependents] are as they were before the
    call. *)
Theorem create_failure_keeps_catalog dir_id name base additional_columns predicate
    is_snapshot num_retained_versions comment media_validation iterator_cls iterator_args
    (w w' : World DB) (e : exn) :
  View._create dir_id name base additional_columns predicate is_snapshot
    num_retained_versions comment media_validation iterator_cls iterator_args w
  = (Raise e, w') ->
  cat w' = cat w.
Proof.
  intros H. unfold View._create in H.
  apply bind_Raise_inv in H as [H|([columns predicate'] & w0 & Hval & H)].
  { apply lift_Raise_inv in H as [_ ->]. reflexivity. }
  apply lift_Ok_inv in Hval as [_ ->]. simpl in H. unfold View.persist in H.
  apply bind_Raise_inv in H as [H|(bvp & w0 & Hbvp & H)].
  { apply lift_Raise_inv in H as [_ ->]. reflexivity. }
  apply lift_Ok_inv in Hbvp as [_ ->].
  apply bind_Raise_inv in H as [H|([id tvo] & w1 & Hcreate & H)].
  { apply lift_db_frame in H as [_ Hc]. exact Hc. }
  apply lift_db_frame in Hcreate as [_ Hc1].
  apply bind_Raise_inv in H as [H|(view & w2 & Hview & H)].
  { destruct tvo as [tv|].
    - apply bind_Raise_inv in H as [H|(v & w1' & Hinit & H)].
      + apply view_init_Raise in H. congruence.
      + apply view_init_cat in Hinit as [Hc _].
        apply bind_Raise_inv in H as [H|([] & w1'' & _ & H)]; [|discriminate].
        apply lift_db_frame in H as [_ Hc']. congruence.
    - apply view_init_Raise in H. congruence. }
  assert (Hw2 : cat w2 = cat w1
                /\ TableVersionPath.tbl_id base ∈ dom (Catalog.tbl_dependents (cat w1))).
  { destruct tvo as [tv|].
    - apply bind_Ok_inv in Hview as (v & w1' & Hinit & Hview).
      apply bind_Ok_inv in Hview as ([] & w1'' & Hload & Hview).
      injection Hview as <- <-.
      apply lift_db_frame in Hload as [_ Hcl].
      apply view_init_cat in Hinit as [Hc Hdom]. split; [congruence|exact Hdom].
    - apply view_init_cat in Hview. exact Hview. }
  destruct Hw2 as [Hc2 Hdom].
  apply bind_Raise_inv in H as [H|([] & w3 & Hcommit & H)].
  { apply lift_db_frame in H as [_ Hc]. congruence. }
  apply lift_db_frame in Hcommit as [_ Hc3].
  exfalso.
  destruct (register_Ok id (TableVersionPath.tbl_id base) view w3) as [w4 Hreg].
  { rewrite Hc3, Hc2. exact Hdom. }
  rewrite Hreg in H. discriminate.
Qed.

(** The catalog after a successful [_create]. *)
Lemma create_Ok_catalog dir_id name base additional_columns predicate is_snapshot
    num_retained_versions comment media_validation iterator_cls iterator_args
    (w w' : World DB) (a : addr) :
  View._create dir_id name base additional_columns predicate is_snapshot
    num_retained_versions comment media_validation iterator_cls iterator_args w
  = (Ok a, w') ->
  exists tbl snapshot_only l,
    a = fresh (dom (objs w)) /\
    objs w' = <[a := AView tbl (TableVersionPath.tbl_id base) snapshot_only]> (objs w) /\
    <[Table._id tbl := []]> (Catalog.tbl_dependents (cat w))
      !! TableVersionPath.tbl_id base = Some l /\
    cat w' = {| Catalog.tbls := <[Table._id tbl := a]> (Catalog.tbls (cat w));
                Catalog.tbl_dependents :=
                  <[TableVersionPath.tbl_id base := l ++ [a]]>
                    (<[Table._id tbl := []]> (Catalog.tbl_dependents (cat w))) |}.
Proof.
  intros H. unfold View._create in H.
  apply bind_Ok_inv in H as ([columns predicate'] & w0 & Hval & H).
  apply lift_Ok_inv in Hval as [_ ->]. simpl in H.
  unfold View.persist in H.
  apply bind_Ok_inv in H as (bvp & w0 & Hbvp & H).
  apply lift_Ok_inv in Hbvp as [_ ->].
  apply bind_Ok_inv in H as ([id tvo] & w1 & Hcreate & H).
  apply lift_db_frame in Hcreate as [Ho1 Hc1].
  apply bind_Ok_inv in H as (view & w2 & Hview & H).
  apply bind_Ok_inv in H as ([] & w3 & Hcommit & H).
  apply lift_db_frame in Hcommit as [Ho3 Hc3].
  assert (Hw2 : exists tbl so,
             view = fresh (dom (objs w)) /\
             objs w2 = <[view := AView tbl (TableVersionPath.tbl_id base) so]> (objs w) /\
             cat w2 = cat w /\ Table._id tbl = id).
  { destruct tvo as [tv|].
    - apply bind_Ok_inv in Hview as (v & w1' & Hinit & Hview).
      apply bind_Ok_inv in Hview as ([] & w1'' & Hload & Hview).
      injection Hview as <- <-.
      apply lift_db_frame in Hload as [Hol Hcl].
      apply ViewSpec.view_init_Ok_inv in Hinit as (Hv & _ & Hw1').
      rewrite Hol, Hcl, Hw1'. simpl. rewrite Hv, Ho1, Hc1.
      eexists _, false. repeat split; reflexivity.
    - apply ViewSpec.view_init_Ok_inv in Hview as (Hv & _ & Hw2).
      rewrite Hw2. simpl. rewrite Hv, Ho1, Hc1.
      eexists _, true. repeat split; reflexivity. }
  destruct Hw2 as (tbl & so & Hfresh & Ho2 & Hc2 & Hid).
  unfold View.set_dependents, View.append_dependent, View.set_tbl in H.
  unfold Py.bind, Py.modify, Py.get, Py.ret, Py.raise in H. simpl in H.
  destruct (<[id:=[]]> (Catalog.tbl_dependents (cat w3)) !! TableVersionPath.tbl_id base)
    as [l|] eqn:Hl; [|discriminate].
  injection H as <- <-. simpl.
  rewrite Ho3, Ho2, Hc3, Hc2 in *. subst id.
  exists tbl, so, l. repeat split; try assumption. 
Qed.

(** *** Dropping *)

Lemma drop_start (self : addr) tbl base_id snapshot_only deps (w : World DB) :
  objs w !! self = Some (AView tbl base_id snapshot_only) ->
  Catalog.tbl_dependents (cat w) !! Table._id tbl = Some deps ->
  View._drop self w
  = Py.bind (View.check_dependents_dropped deps)
      (fun _ => Py.bind (if snapshot_only then View.drop_snapshot_only self tbl
                         else Table_drop self) (fun _ => View.unlink self)) w.
Proof.
  intros Hself Hdeps.
  unfold View._drop, View.deref_view, deref. unfold Py.bind at 1 2.
  rewrite Hself. simpl. unfold Py.bind at 1. unfold Py.get at 1.
  rewrite Hdeps. reflexivity.
Qed.

Lemma list_remove_app_last (a : addr) (l : list addr) :
  a ∉ l -> list_remove a (l ++ [a]) = Some l.
Proof.
  induction l as [|y l IH]; intros Hnin; simpl.
  - rewrite decide_True by reflexivity. reflexivity.
  - apply not_elem_of_cons in Hnin as [Hne Hnin].
    rewrite decide_False by congruence. rewrite (IH Hnin). reflexivity.
Qed.

Lemma list_remove_None (a : addr) (l : list addr) :
  a ∉ l -> list_remove a l = None.
Proof.
  induction l as [|y l IH]; intros Hnin; simpl; [reflexivity|].
  apply not_elem_of_cons in Hnin as [Hne Hnin].
  rewrite decide_False by congruence. rewrite (IH Hnin). reflexivity.
Qed.

(** X3. Creating a [snapshot_only] view and dropping it again gives back the
    catalog: when the view's id was not in the catalog before, the base's
    dependents are handles of the heap, the new handle passes
    [_check_is_dropped] and [delete_md] succeeds, [_drop] on the handle that
    [_create] returned succeeds and [tbls] and [tbl_dependents] are what they
    were before [_create]. *)
Theorem create_then_drop_restores_catalog dir_id name base additional_columns predicate
    is_snapshot num_retained_versions comment media_validation iterator_cls iterator_args
    (w w1 : World DB) (a : addr) (tbl : Table.t) (old : list addr) (d : DB) :
  View._create dir_id name base additional_columns predicate is_snapshot
    num_retained_versions comment media_validation iterator_cls iterator_args w
  = (Ok a, w1) ->
  objs w1 !! a = Some (AView tbl (TableVersionPath.tbl_id base) true) ->
  Catalog.tbls (cat w) !! Table._id tbl = None ->
  Catalog.tbl_dependents (cat w) !! Table._id tbl = None ->
  Catalog.tbl_dependents (cat w) !! TableVersionPath.tbl_id base = Some old ->
  Forall (fun x => is_Some (objs w !! x)) old ->
  _check_is_dropped tbl = Ok tt ->
  delete_md (Table._id tbl) (db w1) = (Ok tt, d) ->
  exists w2,
    View._drop a w1 = (Ok tt, w2) /\
    cat w2 = cat w /\
    db w2 = d.
Proof.
  intros Hrun Hobj Htbls Hown Hold Hheap Hcheck Hmd.
  destruct (create_Ok_catalog _ _ _ _ _ _ _ _ _ _ _ _ _ _ Hrun)
    as (tbl' & so & l & Ha & Hobjs & Hl & Hcat).
  assert (Heq : AView tbl' (TableVersionPath.tbl_id base) so
                = AView tbl (TableVersionPath.tbl_id base) true).
  { rewrite Hobjs, lookup_insert_eq in Hobj. congruence. }
  injection Heq as -> ->.
  assert (Hne : Table._id tbl <> TableVersionPath.tbl_id base) by congruence.
  rewrite lookup_insert_ne, Hold in Hl by assumption. injection Hl as <-.
  assert (Hnin : a ∉ old).
  { intros Hin. rewrite Forall_forall in Hheap. destruct (Hheap _ Hin) as [o Ho].
    rewrite Ha, fresh_addr_None in Ho. discriminate. }
  rewrite (drop_start a tbl (TableVersionPath.tbl_id base) true [] w1 Hobj).
  2:{ rewrite Hcat. simpl. rewrite lookup_insert_ne by congruence. apply lookup_insert_eq. }
  rewrite (bind_Ok _ _ _ tt w1) by reflexivity.
  rewrite (bind_Ok _ _ _ tt _
             (ViewSpec.drop_snapshot_only_Ok a tbl (TableVersionPath.tbl_id base) w1 d
                Hobj Hcheck Hmd
                ltac:(rewrite Hcat; simpl; rewrite lookup_insert_eq; eauto))).
  rewrite (ViewSpec.unlink_Ok a _ (Table.set_is_dropped tbl true)
             (TableVersionPath.tbl_id base) true (old ++ [a]) old).
  - eexists. split; [reflexivity|]. split; [|reflexivity].
    simpl. rewrite Hcat. simpl. destruct (cat w) as [tbls0 deps0]. simpl in *.
    unfold Catalog.set_tbl_dependents, Catalog.set_tbls. simpl. f_equal.
    + rewrite delete_insert_eq. apply delete_id. exact Htbls.
    + rewrite insert_insert_eq.
      rewrite delete_insert_ne by congruence.
      rewrite delete_insert_eq, (delete_id _ _ Hown).
      apply insert_id. exact Hold.
  - simpl. apply lookup_insert_eq.
  - simpl. rewrite Hcat. simpl. apply lookup_insert_eq.
  - apply list_remove_app_last. exact Hnin.
  - simpl. rewrite Hcat. simpl. rewrite lookup_insert_ne by congruence.
    rewrite lookup_insert_eq. eauto.
Qed.

(** X4. How [_drop] fails.  Without a dependents entry for the view's id it
    raises [KeyError] and changes nothing.  For a [snapshot_only] view that is
    not in its base's dependents list it raises [ValueError] only after it
    has set the handle's [is_dropped], deleted the metadata and taken the id
    out of [tbls]: these updates stay, and [tbl_dependents] is as before. *)
Theorem drop_failures (self : addr) (tbl : Table.t) (base_id : UUID)
    (snapshot_only : bool) (w : World DB) :
  objs w !! self = Some (AView tbl base_id snapshot_only) ->
  (Catalog.tbl_dependents (cat w) !! Table._id tbl = None ->
     View._drop self w = (Raise KeyError, w))
  /\
  (forall deps d x l,
     snapshot_only = true ->
     Catalog.tbl_dependents (cat w) !! Table._id tbl = Some deps ->
     all_dropped w deps ->
     _check_is_dropped tbl = Ok tt ->
     delete_md (Table._id tbl) (db w) = (Ok tt, d) ->
     Catalog.tbls (cat w) !! Table._id tbl = Some x ->
     Catalog.tbl_dependents (cat w) !! base_id = Some l ->
     self ∉ l ->
     View._drop self w
     = (Raise ValueError,
        {| objs := <[self := AView (Table.set_is_dropped tbl true) base_id true]> (objs w);
           cat := {| Catalog.tbls := delete (Table._id tbl) (Catalog.tbls (cat w));
                     Catalog.tbl_dependents := Catalog.tbl_dependents (cat w) |};
           db := d |})).
Proof.
  intros Hself. split.
  - intros Hnone. unfold View._drop, View.deref_view, deref. unfold Py.bind at 1 2.
    rewrite Hself. simpl. unfold Py.bind at 1. unfold Py.get at 1.
    rewrite Hnone. reflexivity.
  - intros deps d x l -> Hdeps Hall Hcheck Hmd Hx Hl Hnin.
    rewrite (drop_start self tbl base_id true deps w Hself Hdeps).
    rewrite (bind_Ok _ _ _ _ _ (ViewSpec.check_dependents_dropped_Ok _ _ Hall)).
    rewrite (bind_Ok _ _ _ tt _
               (ViewSpec.drop_snapshot_only_Ok self tbl base_id w d Hself Hcheck Hmd
                  (mk_is_Some _ _ Hx))).
    unfold View.unlink, View.deref_view, deref, View.remove_dependent,
      Py.bind, Py.get, Py.ret, Py.raise. simpl.
    rewrite lookup_insert_eq. simpl. rewrite Hl, (list_remove_None _ _ Hnin).
    reflexivity.
Qed.

End with_env.
End ViewLaws.

(** ** Dictionaries *)

Lemma dict_set_fresh {V} (k : string) (v : V) (d : list (string * V)) :
  k ∉ map fst d -> dict_set k v d = d ++ [(k, v)].
Proof.
  induction d as [|[k' v'] d IH]; simpl; intros Hk; [reflexivity|].
  apply not_elem_of_cons in Hk as [Hne Hk].
  destruct (decide (k' = k)) as [->|_]; [contradiction|].
  rewrite IH by exact Hk. reflexivity.
Qed.

Lemma dict_fold_NoDup {V} (items acc : list (string * V)) :
  NoDup (map fst (acc ++ items)) ->
  foldl (fun d kv => dict_set kv.1 kv.2 d) acc items = acc ++ items.
Proof.
  revert acc. induction items as [|[k v] items IH]; intros acc Hnd; simpl.
  - rewrite app_nil_r. reflexivity.
  - rewrite dict_set_fresh.
    + rewrite IH; rewrite <- app_assoc; [reflexivity | exact Hnd].
    + rewrite map_app in Hnd. apply NoDup_app in Hnd as (_ & Hdisj & _).
      intros Hin. apply (Hdisj k Hin). simpl. apply elem_of_cons. left. reflexivity.
Qed.

(** A dictionary built from items with distinct keys has these items, in
    their order. *)
Lemma dict_of_items_NoDup {V} (items : list (string * V)) :
  NoDup (map fst items) -> dict_of_items items = items.
Proof. intros Hnd. unfold dict_of_items. rewrite dict_fold_NoDup; [reflexivity | exact Hnd]. Qed.

Lemma dict_set_keys {V} (P : string -> Prop) (k : string) (v : V) (d : list (string * V)) :
  P k -> Forall P (map fst d) -> Forall P (map fst (dict_set k v d)).
Proof.
  intros Hk. induction d as [|[k' v'] d IH]; simpl; intros Hd.
  - constructor; [exact Hk | constructor].
  - apply Forall_cons in Hd as [Hk' Hd]. destruct (decide (k' = k)); simpl.
    + constructor; assumption.
    + constructor; [exact Hk' | apply IH; exact Hd].
Qed.

Lemma dict_set_length {V} (k : string) (v : V) (d : list (string * V)) :
  length d <= length (dict_set k v d) <= S (length d).
Proof.
  induction d as [|[k' v'] d IH]; simpl; [lia|].
  destruct (decide (k' = k)); simpl; lia.
Qed.

Lemma dict_fold_keys {V} (P : string -> Prop) (items acc : list (string * V)) :
  Forall P (map fst items) -> Forall P (map fst acc) ->
  Forall P (map fst (foldl (fun d kv => dict_set kv.1 kv.2 d) acc items)).
Proof.
  revert acc. induction items as [|[k v] items IH]; intros acc Hitems Hacc; simpl;
    [exact Hacc|].
  simpl in Hitems. apply Forall_cons in Hitems as [Hk Hitems].
  apply IH; [exact Hitems | apply dict_set_keys; assumption].
Qed.

Lemma dict_fold_length {V} (items acc : list (string * V)) :
  length acc <= length (foldl (fun d kv => dict_set kv.1 kv.2 d) acc items)
  <= length acc + length items.
Proof.
  revert acc. induction items as [|[k v] items IH]; intros acc; simpl; [lia|].
  pose proof (IH (dict_set k v acc)) as H1.
  pose proof (dict_set_length k v acc) as H2. lia.
Qed.

(** ** dataframe.py: the select list *)

Module DataFrameLaws.
Import DataFrameTerms DataFrameSpec DataFrameValue.

#[local] Arguments DataFrame._select_list_check_rep : simpl never.
#[local] Arguments DataFrame._normalize_select_list : simpl never.

Section with_exprs.
Context `{ES : ExprSystem}.

(** *** Names *)

Lemma suffixed_ne (d : string) (j : nat) : d +:+ "_" +:+ pretty j <> d.
Proof. induction d as [|c d IH]; simpl; [discriminate | intros [= H]; auto]. Qed.

Lemma suffixed_inj (d : string) (j k : nat) :
  d +:+ "_" +:+ pretty j = d +:+ "_" +:+ pretty k -> j = k.
Proof.
  intros H. apply (inj (String.app d)) in H. simpl in H. injection H as H.
  exact (pretty_nat_inj _ _ H).
Qed.

Lemma size_list_to_set_le (l : list string) :
  size (list_to_set l : gset string) <= length l.
Proof.
  induction l as [|x l IH].
  - change (size (∅ : gset string) <= 0). rewrite size_empty. lia.
  - change (size ({[x]} ∪ list_to_set l : gset string) <= S (length l)).
    rewrite size_union_alt, size_singleton.
    pose proof (subseteq_size (list_to_set l ∖ {[x]}) (list_to_set l : gset string)) as Hs.
    assert (Hsub : list_to_set l ∖ {[x]} ⊆ (list_to_set l : gset string)) by set_solver.
    specialize (Hs Hsub). lia.
Qed.

(** The candidates [d_1 .. d_n] cannot all be taken, together with [d], by a
    set of at most [n] names. *)
Lemma candidates_not_all_seen (d : string) (seen : gset string) (n : nat) :
  d ∈ seen -> size seen <= n ->
  ~ (forall j, 1 <= j < 1 + n -> d +:+ "_" +:+ pretty j ∈ seen).
Proof.
  intros Hd Hsize Hall.
  pose (cands := d :: map (fun j => d +:+ "_" +:+ pretty j) (seq 1 n)).
  assert (Hnd : NoDup cands).
  { unfold cands. apply NoDup_cons. split.
    - intros Hin. apply list_elem_of_fmap in Hin as (j & Hj & _).
      symmetry in Hj. exact (suffixed_ne _ _ Hj).
    - apply (NoDup_fmap_2_strong _).
      + intros j k _ _ Hjk. exact (suffixed_inj _ _ _ Hjk).
      + apply NoDup_seq. }
  assert (Hsub : (list_to_set cands : gset string) ⊆ seen).
  { intros x Hx. apply elem_of_list_to_set in Hx. unfold cands in Hx.
    apply elem_of_cons in Hx as [->|Hx]; [exact Hd|].
    apply list_elem_of_fmap in Hx as (j & -> & Hj).
    apply elem_of_seq in Hj. apply Hall. lia. }
  apply subseteq_size in Hsub. rewrite size_list_to_set in Hsub by exact Hnd.
  unfold cands in Hsub. simpl in Hsub. rewrite length_map, length_seq in Hsub. lia.
Qed.

(** The inner loop stops at the first candidate that is not taken, or runs
    through all of them. *)
Lemma find_unused_first (d : string) (seen : gset string) (n start : nat) (c : string) :
  (exists j, start <= j < start + n /\
     DataFrame.find_unused d seen (seq start n) c = d +:+ "_" +:+ pretty j /\
     (d +:+ "_" +:+ pretty j ∉ seen) /\
     forall j', start <= j' < j -> d +:+ "_" +:+ pretty j' ∈ seen)
  \/ (forall j, start <= j < start + n -> d +:+ "_" +:+ pretty j ∈ seen).
Proof.
  revert start c. induction n as [|n IH]; intros start c.
  - right. intros j Hj. lia.
  - simpl. case_bool_decide as Hc.
    + left. exists start. repeat split; [lia | lia | exact Hc | intros j' Hj'; lia].
    + assert (Hin : d +:+ "_" +:+ pretty start ∈ seen).
      { destruct (decide (d +:+ "_" +:+ pretty start ∈ seen)); [assumption|contradiction]. }
      destruct (IH (S start) (d +:+ "_" +:+ pretty start)) as [(j & Hj & Hr & Hn & Hbefore)|Hall].
      * left. exists j. repeat split; [lia | lia | exact Hr | exact Hn |].
        intros j' Hj'. destruct (decide (j' = start)) as [->|Hne]; [exact Hin|].
        apply Hbefore. lia.
      * right. intros j Hj. destruct (decide (j = start)) as [->|Hne]; [exact Hin|].
        apply Hall. lia.
Qed.

(** The name of one entry. *)
Lemma column_name_of_named_as (i : nat) (expr : Expr) (name : option string)
    (out_names : list string) :
  named_as i expr name out_names
    (DataFrame.column_name_of i expr name out_names (list_to_set out_names)).
Proof.
  unfold named_as, DataFrame.column_name_of.
  destruct name as [s|]; [reflexivity|].
  destruct (default_column_name expr) as [d|]; [|reflexivity].
  case_bool_decide as Hd.
  - right. apply elem_of_list_to_set in Hd as Hd'. split; [exact Hd'|].
    destruct (find_unused_first d (list_to_set out_names) (length out_names) 1 d)
      as [(j & Hj & Hr & Hn & Hbefore)|Hall].
    + exists j. rewrite Hr. repeat split; [lia | lia | |].
      * intros Hin. apply Hn. apply (elem_of_list_to_set (C:=gset string)). exact Hin.
      * intros j' Hj'. apply (elem_of_list_to_set (C:=gset string)), Hbefore, Hj'.
    + exfalso. apply (candidates_not_all_seen d (list_to_set out_names) (length out_names)).
      * exact Hd.
      * apply size_list_to_set_le.
      * exact Hall.
  - left. split; [|reflexivity]. intros Hin. apply Hd. apply (elem_of_list_to_set (C:=gset string)). exact Hin.
Qed.

(** The outer loop: the expressions in order, one name per entry, and the set
    of names seen is the set of the names given. *)
Lemma normalize_loop_spec (sl : list (Expr * option string)) (i : nat)
    (out_exprs : list Expr) (out_names : list string) :
  exists new,
    DataFrame.normalize_loop i sl out_exprs out_names (list_to_set out_names)
    = (out_exprs ++ map fst sl, out_names ++ new, list_to_set (out_names ++ new)) /\
    length new = length sl /\
    forall k e nm, sl !! k = Some (e, nm) ->
      exists name, new !! k = Some name /\
        named_as (i + k) e nm (out_names ++ take k new) name.
Proof.
  revert i out_exprs out_names. induction sl as [|[expr name] sl IH];
    intros i out_exprs out_names.
  - exists []. simpl. rewrite !app_nil_r. repeat split. intros k e nm Hk. discriminate.
  - simpl.
    set (c := DataFrame.column_name_of i expr name out_names (list_to_set out_names)).
    replace ({[c]} ∪ list_to_set out_names : gset string)
      with (list_to_set (out_names ++ [c]) : gset string)
      by (rewrite list_to_set_app_L; simpl; set_solver).
    destruct (IH (S i) (out_exprs ++ [expr]) (out_names ++ [c])) as (new & Hrun & Hlen & Hnames).
    exists (c :: new). rewrite Hrun. rewrite <- !app_assoc. simpl.
    repeat split; [lia|].
    intros [|k] e nm Hk; simpl in Hk.
    + injection Hk as <- <-. exists c. split; [reflexivity|].
      simpl. rewrite Nat.add_0_r, app_nil_r. apply column_name_of_named_as.
    + destruct (Hnames k e nm Hk) as (nm' & Hnew & Hok).
      exists nm'. split; [exact Hnew|].
      simpl. rewrite <- app_assoc in Hok. simpl in Hok.
      replace (i + S k) with (S i + k) by lia. exact Hok.
Qed.


Lemma normalize_eq (tbl : TableVersionPath.t)
    (select_list : option (list (Expr * option string))) :
  exists names,
    DataFrame._normalize_select_list tbl select_list
    = Ok (map fst (expanded tbl select_list), names) /\
    length names = length (expanded tbl select_list) /\
    forall k e nm, expanded tbl select_list !! k = Some (e, nm) ->
      exists name, names !! k = Some name /\ named_as k e nm (take k names) name.
Proof.
  unfold DataFrame._normalize_select_list. fold (expanded tbl select_list).
  destruct (normalize_loop_spec (expanded tbl select_list) 0 [] []) as (names & Hrun & Hlen & Hnames).
  exists names. change (list_to_set [] : gset string) with (∅ : gset string) in Hrun.
  rewrite Hrun. simpl.
  rewrite length_map, Hlen, Nat.eqb_refl. simpl.
  rewrite bool_decide_eq_true_2 by reflexivity. simpl.
  split; [reflexivity|]. split; [reflexivity | exact Hnames].
Qed.

Lemma fst_expanded (tbl : TableVersionPath.t)
    (select_list : option (list (Expr * option string))) :
  map fst (expanded tbl select_list)
  = match select_list with
    | Some l => map fst l
    | None => column_refs tbl
    end.
Proof.
  destruct select_list as [l|]; simpl; [reflexivity|].
  rewrite map_map. simpl. apply map_id.
Qed.

(** X5. [_normalize_select_list] always returns: its two closing assertions
    never fail.  It returns the expressions of the select list in their
    order (the columns of the table when no select list is given) and as many
    names as expressions. *)
Theorem normalize_select_list_total (tbl : TableVersionPath.t)
    (select_list : option (list (Expr * option string))) :
  exists names,
    DataFrame._normalize_select_list tbl select_list
    = Ok (match select_list with
          | Some l => map fst l
          | None => column_refs tbl
          end, names) /\
    length names = length (match select_list with
                           | Some l => map fst l
                           | None => column_refs tbl
                           end).
Proof.
  destruct (normalize_eq tbl select_list) as (names & Hrun & Hlen & _).
  exists names. rewrite Hrun, <- fst_expanded, length_map. auto.
Qed.

(** X6. The name of each output column: a name given by the caller is kept
    as it is; an unnamed expression without a default name is called
    [col_k], [k] being its position; an unnamed expression with a default
    name keeps that name unless an earlier column has it, and then gets the
    first of [name_1], [name_2], ... that no earlier column has, which always
    exists. *)
Theorem normalize_select_list_names (tbl : TableVersionPath.t)
    (select_list : option (list (Expr * option string)))
    (exprs : list Expr) (names : list string) (k : nat) (e : Expr) (nm : option string) :
  DataFrame._normalize_select_list tbl select_list = Ok (exprs, names) ->
  expanded tbl select_list !! k = Some (e, nm) ->
  exists name, names !! k = Some name /\ named_as k e nm (take k names) name.
Proof.
  intros Hrun Hk. destruct (normalize_eq tbl select_list) as (names' & Hrun' & _ & Hnames).
  rewrite Hrun in Hrun'. injection Hrun' as _ <-. exact (Hnames k e nm Hk).
Qed.

Lemma NoDup_from_earlier (names : list string) :
  (forall k name, names !! k = Some name -> name ∉ take k names) -> NoDup names.
Proof.
  intros Hearlier. apply NoDup_alt. intros i j x Hi Hj.
  destruct (Nat.lt_trichotomy i j) as [Hlt|[->|Hlt]]; [|reflexivity|]; exfalso.
  - apply (Hearlier j x Hj). apply elem_of_take. eauto.
  - apply (Hearlier i x Hi). apply elem_of_take. eauto.
Qed.

(** X7. When no entry is named by the caller and every expression has a
    default name, the names of the output columns are pairwise distinct: the
    suffixes never produce a duplicate.  This is the case of a DataFrame
    without a select list over a table whose column references have default
    names. *)
Theorem default_names_distinct (tbl : TableVersionPath.t)
    (select_list : option (list (Expr * option string)))
    (exprs : list Expr) (names : list string) :
  DataFrame._normalize_select_list tbl select_list = Ok (exprs, names) ->
  Forall (fun ent => ent.2 = None /\ is_Some (default_column_name ent.1))
    (expanded tbl select_list) ->
  NoDup names.
Proof.
  intros Hrun Hall. destruct (normalize_eq tbl select_list) as (names' & Hrun' & Hlen & Hnames).
  rewrite Hrun in Hrun'. injection Hrun' as _ <-.
  apply NoDup_from_earlier. intros k name Hk.
  assert (Hlt : k < length (expanded tbl select_list)).
  { rewrite <- Hlen. apply lookup_lt_is_Some. eauto. }
  apply lookup_lt_is_Some in Hlt as [[e nm] Hent].
  destruct (Hnames k e nm Hent) as (name' & Hk' & Hnamed).
  rewrite Hk in Hk'. injection Hk' as <-.
  rewrite Forall_forall in Hall.
  destruct (Hall (e, nm)) as [Hnone [d Hd]]; [eapply list_elem_of_lookup_2; exact Hent|].
  simpl in Hnone, Hd. subst nm. unfold named_as in Hnamed. rewrite Hd in Hnamed.
  destruct Hnamed as [[Hfree ->]|(_ & j & _ & _ & Hfree & _)]; exact Hfree.
Qed.


(** *** The constructor *)

(** The constructor on arguments that pass its checks. *)
Lemma init_value tbl select_list where_clause group_by_clause grouping_tbl
    order_by_clause limit (h : DataFrame.Heap) (n : list Expr * list string) :
  init_checks tbl select_list group_by_clause grouping_tbl = Ok n ->
  (forall a0, order_by_clause = Some a0 -> is_Some (DataFrame.lists h !! a0)) ->
  exists a h',
    DataFrame.__init__ tbl select_list where_clause group_by_clause grouping_tbl
      order_by_clause limit h = (Ok a, h') /\
    preserved h h' /\
    builds h a h'
      {| DataFrameValue.tbl := tbl;
         DataFrameValue.select_list_exprs := n.1;
         DataFrameValue.schema := dict_of_items (zip n.2 (map expr_col_type n.1));
         DataFrameValue.select_list := select_list;
         DataFrameValue.where_clause := where_clause;
         DataFrameValue.group_by_clause := group_by_clause;
         DataFrameValue.grouping_tbl := grouping_tbl;
         DataFrameValue.order_by_clause :=
           match order_by_clause with
           | Some a0 => DataFrame.lists h !! a0
           | None => None
           end;
         DataFrameValue.limit_val := limit |}.
Proof.
  intros Hchecks Hread.
  destruct (DataFrame.__init__ tbl select_list where_clause group_by_clause grouping_tbl
              order_by_clause limit h) as [r h'] eqn:Hrun.
  pose proof (init_preserved _ _ _ _ _ _ _ _ _ _ Hrun) as Hpres.
  rewrite init_eq, Hchecks in Hrun.
  destruct order_by_clause as [a0|].
  - destruct (Hread a0 eq_refl) as [l Hl]. rewrite Hl in Hrun. injection Hrun as <- <-.
    eexists _, _. split; [reflexivity|]. split; [exact Hpres|].
    split; [apply fresh_addr_None|].
    eexists. split; [simpl; apply lookup_insert_eq|].
    split.
    + unfold query_of, entries. simpl. rewrite lookup_insert_eq, Hl. reflexivity.
    + simpl. intros a1 [= <-]. apply fresh_addr_None.
  - injection Hrun as <- <-.
    eexists _, _. split; [reflexivity|]. split; [exact Hpres|].
    split; [apply fresh_addr_None|].
    eexists. split; [simpl; apply lookup_insert_eq|].
    split; [reflexivity | simpl; intros a1 [=]].
Qed.

(** What a successful call of the constructor has done. *)
Lemma init_Ok_value tbl select_list where_clause group_by_clause grouping_tbl
    order_by_clause limit (h h' : DataFrame.Heap) (a : addr) :
  DataFrame.__init__ tbl select_list where_clause group_by_clause grouping_tbl
    order_by_clause limit h = (Ok a, h') ->
  exists n,
    init_checks tbl select_list group_by_clause grouping_tbl = Ok n /\
    preserved h h' /\
    builds h a h'
      {| DataFrameValue.tbl := tbl;
         DataFrameValue.select_list_exprs := n.1;
         DataFrameValue.schema := dict_of_items (zip n.2 (map expr_col_type n.1));
         DataFrameValue.select_list := select_list;
         DataFrameValue.where_clause := where_clause;
         DataFrameValue.group_by_clause := group_by_clause;
         DataFrameValue.grouping_tbl := grouping_tbl;
         DataFrameValue.order_by_clause :=
           match order_by_clause with
           | Some a0 => DataFrame.lists h !! a0
           | None => None
           end;
         DataFrameValue.limit_val := limit |}.
Proof.
  intros Hrun.
  destruct (frame_init_Ok_inv _ _ _ _ _ _ _ _ _ _ Hrun) as (n & ob' & Hchecks & _ & _ & Hob).
  exists n. split; [exact Hchecks|].
  destruct (init_value tbl select_list where_clause group_by_clause grouping_tbl
              order_by_clause limit h n Hchecks) as (a' & h'' & Hrun' & Hpres & Hbuilds).
  { intros a0 ->. destruct Hob as (l & Hl & _). eauto. }
  rewrite Hrun in Hrun'. injection Hrun' as <- <-. auto.
Qed.

(** The checks of the constructor raise nothing but [AssertionError]. *)
Lemma init_checks_Raise tbl select_list group_by_clause grouping_tbl e :
  init_checks tbl select_list group_by_clause grouping_tbl = Raise e -> e = AssertionError.
Proof.
  unfold init_checks.
  assert (Hrep : forall sl e0, DataFrame._select_list_check_rep sl = Raise e0 ->
                   e0 = AssertionError).
  { intros sl e0. unfold DataFrame._select_list_check_rep. destruct sl as [l|]; [|discriminate].
    destruct (negb (0 <? length l)%nat); [intros [= <-]; reflexivity|].
    destruct (forallb _ l); [discriminate | intros [= <-]; reflexivity]. }
  destruct (DataFrame._select_list_check_rep select_list) as [[]|e0] eqn:H1; simpl.
  2:{ intros [= <-]. exact (Hrep _ _ H1). }
  destruct (normalize_eq tbl select_list) as (names & -> & _). simpl.
  destruct (DataFrame._select_list_check_rep (Some _)) as [[]|e0] eqn:H2; simpl.
  2:{ intros [= <-]. exact (Hrep _ _ H2). }
  destruct (negb (length names =? length _)%nat); [intros [= <-]; reflexivity|].
  destruct (negb _); [intros [= <-]; reflexivity | discriminate].
Qed.

(** The checks return what [_normalize_select_list] returns. *)
Lemma init_checks_Ok tbl select_list group_by_clause grouping_tbl n :
  init_checks tbl select_list group_by_clause grouping_tbl = Ok n ->
  DataFrame._select_list_check_rep select_list = Ok tt /\
  DataFrame._normalize_select_list tbl select_list = Ok n /\
  DataFrame._select_list_check_rep (Some (zip n.1 (map Some n.2))) = Ok tt /\
  (group_by_clause = None \/ grouping_tbl = None).
Proof.
  unfold init_checks. intros H.
  apply obind_Ok_inv in H as ([] & H1 & H).
  apply obind_Ok_inv in H as (n' & H2 & H).
  apply obind_Ok_inv in H as ([] & H3 & H).
  destruct (negb (length n'.2 =? length n'.1)%nat); [discriminate|].
  destruct group_by_clause as [g|], grouping_tbl as [gt|]; simpl in H;
    try discriminate; injection H as <-; auto.
Qed.

(** The checks depend on the group-by arguments only in that not both may be
    given. *)
Lemma init_checks_regroup tbl select_list g gt g' gt' n :
  init_checks tbl select_list g gt = Ok n ->
  g' = None \/ gt' = None ->
  init_checks tbl select_list g' gt' = Ok n.
Proof.
  intros H Hor. apply init_checks_Ok in H as (H1 & H2 & H3 & _).
  assert (Hlen : (length n.2 =? length n.1)%nat = true).
  { destruct (normalize_eq tbl select_list) as (names & Hrun & Hl & _).
    rewrite H2 in Hrun. injection Hrun as ->. simpl. rewrite length_map, Hl.
    apply Nat.eqb_refl. }
  unfold init_checks. rewrite H1. simpl. rewrite H2. simpl. rewrite H3. simpl.
  rewrite Hlen. simpl.
  destruct Hor as [-> | ->]; [|destruct g']; simpl; try reflexivity.
Qed.


(** *** The builder methods *)

(** The attributes of an object of a well-formed heap pass the checks of the
    constructor again, with its own or any other admissible grouping. *)
Lemma valid_checks (df : DataFrame.t) g gt :
  valid df -> g = None \/ gt = None ->
  exists n, init_checks (DataFrame.tbl df) (DataFrame.select_list df) g gt = Ok n /\
    DataFrame._select_list_exprs df = n.1 /\
    DataFrame._schema df = dict_of_items (zip n.2 (map expr_col_type n.1)).
Proof.
  intros (n & Hc & He & Hs) Hor. exists n.
  split; [eapply init_checks_regroup; eauto | auto].
Qed.

Lemma valid_grouping (df : DataFrame.t) :
  valid df -> DataFrame.group_by_clause df = None \/ DataFrame.grouping_tbl df = None.
Proof. intros (n & Hc & _). apply init_checks_Ok in Hc. tauto. Qed.

(** The step that ends [where], [group_by] and [limit]: a new object with the
    receiver's table and select list. *)
Lemma rebuild (h : DataFrame.Heap) (self : addr) (df : DataFrame.t) w g gt lim :
  wf h -> DataFrame.frames h !! self = Some df -> g = None \/ gt = None ->
  exists a h',
    DataFrame.__init__ (DataFrame.tbl df) (DataFrame.select_list df) w g gt
      (DataFrame.order_by_clause df) lim h = (Ok a, h') /\
    preserved h h' /\
    builds h a h' (with_limit (with_grouping (with_where (query_of h df) w) g gt) lim).
Proof.
  intros Hwf Hself Hor. destruct (Hwf self df Hself) as [Hvalid Hlist].
  destruct (valid_checks df g gt Hvalid Hor) as (n & Hchecks & He & Hs).
  destruct (init_value (DataFrame.tbl df) (DataFrame.select_list df) w g gt
              (DataFrame.order_by_clause df) lim h n Hchecks Hlist)
    as (a & h' & Hrun & Hpres & Hbuilds).
  exists a, h'. split; [exact Hrun|]. split; [exact Hpres|].
  unfold with_limit, with_grouping, with_where, query_of, entries. simpl.
  rewrite He, Hs. exact Hbuilds.
Qed.

(** X8. [where] with a boolean expression, on any object of a well-formed
    heap: it returns a new object whose predicate is the given expression,
    whatever predicate the receiver had (the two are not combined), and whose
    other attributes are the receiver's; nothing that was in the heap is
    changed. *)
Theorem where_builds (h : DataFrame.Heap) (self : addr) (df : DataFrame.t)
    (pred : Any) (e : Expr) :
  wf h -> DataFrame.frames h !! self = Some df ->
  as_Expr pred = Some e -> is_bool_type (expr_col_type e) = true ->
  exists a h',
    DataFrame.where_ self pred h = (Ok a, h') /\
    preserved h h' /\
    builds h a h' (with_where (query_of h df) (Some e)).
Proof.
  intros Hwf Hself Hexpr Hbool.
  destruct (rebuild h self df (Some e) (DataFrame.group_by_clause df)
              (DataFrame.grouping_tbl df) (DataFrame.limit_val df) Hwf Hself)
    as (a & h' & Hrun & Hpres & Hbuilds).
  { apply valid_grouping. apply (Hwf self df Hself). }
  exists a, h'. split; [|split; [exact Hpres | exact Hbuilds]].
  unfold DataFrame.where_. rewrite get_frame_bind, Hself, Hexpr, Hbool. exact Hrun.
Qed.

(** X9. [limit] on any object of a well-formed heap always returns: a new
    object whose limit is the given number, whatever limit the receiver had,
    and whose other attributes are the receiver's; nothing that was in the
    heap is changed. *)
Theorem limit_builds (h : DataFrame.Heap) (self : addr) (df : DataFrame.t) (n : Z) :
  wf h -> DataFrame.frames h !! self = Some df ->
  exists a h',
    DataFrame.limit self n h = (Ok a, h') /\
    preserved h h' /\
    builds h a h' (with_limit (query_of h df) (Some n)).
Proof.
  intros Hwf Hself.
  destruct (rebuild h self df (DataFrame.where_clause df) (DataFrame.group_by_clause df)
              (DataFrame.grouping_tbl df) (Some n) Hwf Hself)
    as (a & h' & Hrun & Hpres & Hbuilds).
  { apply valid_grouping. apply (Hwf self df Hself). }
  exists a, h'. split; [|split; [exact Hpres | exact Hbuilds]].
  unfold DataFrame.limit. rewrite get_frame_bind, Hself. exact Hrun.
Qed.

(** *** group_by *)

(** The loop of [group_by] over items that are expressions. *)
Lemma group_by_loop_exprs (df : DataFrame.t) (n_items : nat) (pre rest : list Any) :
  Forall (fun item => as_Table item = None /\ is_Some (as_Expr item)) pre ->
  DataFrame.group_by_loop df n_items (pre ++ rest)
  = DataFrame.group_by_loop df n_items rest.
Proof.
  induction 1 as [|item pre [Htbl [e He]] _ IH]; simpl; [reflexivity|].
  rewrite Htbl, He. exact IH.
Qed.

Lemma exprs_of_exprs (items : list Any) (exprs : list Expr) :
  Forall2 (fun item e => as_Table item = None /\ as_Expr item = Some e) items exprs ->
  DataFrame.exprs_of items = exprs /\
  Forall (fun item => as_Table item = None /\ is_Some (as_Expr item)) items.
Proof.
  induction 1 as [|item e items exprs [Htbl He] _ [IH1 IH2]]; [split; [reflexivity|constructor]|].
  split.
  - unfold DataFrame.exprs_of in *. rewrite <- IH1. simpl. rewrite He. reflexivity.
  - constructor; [eauto | exact IH2].
Qed.

(** X10. [group_by] on an object of a well-formed heap without a group-by
    clause.  Given expressions only (possibly none), it returns a new object
    whose group-by clause is the list of these expressions and which has no
    grouping table, even when the receiver had one: a grouping table set by
    an earlier [group_by] is replaced without an error.  Given one table
    whose id is found on the receiver's path above the receiver's own table,
    it returns a new object whose grouping table is the version the given
    handle refers to, and which has no group-by clause.  The other attributes
    are the receiver's and nothing that was in the heap is changed. *)
Theorem group_by_builds (h : DataFrame.Heap) (self : addr) (df : DataFrame.t) :
  wf h -> DataFrame.frames h !! self = Some df ->
  DataFrame.group_by_clause df = None ->
  (forall items exprs,
     Forall2 (fun item e => as_Table item = None /\ as_Expr item = Some e) items exprs ->
     exists a h',
       DataFrame.group_by self items h = (Ok a, h') /\
       preserved h h' /\
       builds h a h' (with_grouping (query_of h df) (Some exprs) None)) /\
  (forall item t base,
     as_Table item = Some t ->
     TableVersionPath.find_tbl_version (DataFrame.tbl df)
       (TableVersionPath.tbl_id (Table._tbl_version_path t)) = Some base ->
     TableVersion.id base <> TableVersionPath.tbl_id (DataFrame.tbl df) ->
     exists a h',
       DataFrame.group_by self [item] h = (Ok a, h') /\
       preserved h h' /\
       builds h a h'
         (with_grouping (query_of h df) None
            (Some (TableVersionPath.tbl_version (Table._tbl_version_path t))))).
Proof.
  intros Hwf Hself Hnone. split.
  - intros items exprs Hitems. apply exprs_of_exprs in Hitems as [Hexprs Hall].
    destruct (rebuild h self df (DataFrame.where_clause df) (Some exprs) None
                (DataFrame.limit_val df) Hwf Hself) as (a & h' & Hrun & Hpres & Hbuilds);
      [auto|].
    exists a, h'. split; [|split; [exact Hpres | exact Hbuilds]].
    unfold DataFrame.group_by. rewrite get_frame_bind, Hself, Hnone.
    rewrite bool_decide_eq_false_2 by (intros [? [=]]).
    rewrite lift_bind.
    rewrite <- (app_nil_r items) at 2. rewrite group_by_loop_exprs by exact Hall.
    simpl. rewrite Hexprs. exact Hrun.
  - intros item t base Htbl Hfind Hne.
    destruct (rebuild h self df (DataFrame.where_clause df) None
                (Some (TableVersionPath.tbl_version (Table._tbl_version_path t)))
                (DataFrame.limit_val df) Hwf Hself) as (a & h' & Hrun & Hpres & Hbuilds);
      [auto|].
    exists a, h'. split; [|split; [exact Hpres | exact Hbuilds]].
    unfold DataFrame.group_by. rewrite get_frame_bind, Hself, Hnone.
    rewrite bool_decide_eq_false_2 by (intros [? [=]]).
    rewrite lift_bind. simpl. rewrite Htbl, Hfind.
    rewrite bool_decide_eq_false_2 by exact Hne. exact Hrun.
Qed.

(** X11. What [group_by] rejects, each time with an [Error] and without any
    change: a receiver that has a group-by clause; an item that is neither a
    table nor an expression; a table given together with other items; a table
    whose id is not on the receiver's path, or is the id of the receiver's own
    table.  The items before the rejected one are expressions. *)
Theorem group_by_rejects (h : DataFrame.Heap) (self : addr) (df : DataFrame.t)
    (items : list Any) :
  DataFrame.frames h !! self = Some df ->
  (is_Some (DataFrame.group_by_clause df) ->
     DataFrame.group_by self items h = (Raise (Error "Group-by already specified"), h)) /\
  (DataFrame.group_by_clause df = None ->
   forall pre item rest,
     items = pre ++ item :: rest ->
     Forall (fun item => as_Table item = None /\ is_Some (as_Expr item)) pre ->
     (as_Table item = None -> as_Expr item = None ->
        DataFrame.group_by self items h
        = (Raise (Error ("Invalid expression in group_by(): " +:+ str_Any item)), h)) /\
     (forall t, as_Table item = Some t -> 1 < length items ->
        DataFrame.group_by self items h
        = (Raise (Error "group_by(): only one table can be specified"), h)) /\
     (forall t, as_Table item = Some t -> length items = 1 ->
        match TableVersionPath.find_tbl_version (DataFrame.tbl df)
                (TableVersionPath.tbl_id (Table._tbl_version_path t)) with
        | Some base => TableVersion.id base = TableVersionPath.tbl_id (DataFrame.tbl df)
        | None => True
        end ->
        DataFrame.group_by self items h
        = (Raise (Error ("group_by(): " +:+ Table._name t +:+ " is not a base table of "
                         +:+ TableVersionPath.tbl_name (DataFrame.tbl df))), h))).
Proof.
  intros Hself. split.
  - intros Hsome. unfold DataFrame.group_by. rewrite get_frame_bind, Hself.
    rewrite bool_decide_eq_true_2 by exact Hsome. reflexivity.
  - intros Hnone pre item rest -> Hpre.
    assert (Hstart : forall r,
              DataFrame.group_by_loop df (length (pre ++ item :: rest)) (item :: rest)
              = Raise r ->
              DataFrame.group_by self (pre ++ item :: rest) h = (Raise r, h)).
    { intros r Hr. unfold DataFrame.group_by. rewrite get_frame_bind, Hself, Hnone.
      rewrite bool_decide_eq_false_2 by (intros [? [=]]).
      rewrite lift_bind, group_by_loop_exprs by exact Hpre. rewrite Hr. reflexivity. }
    repeat split.
    + intros Htbl Hexpr. apply Hstart. simpl. rewrite Htbl, Hexpr. reflexivity.
    + intros t Htbl Hlen. apply Hstart. simpl. rewrite Htbl.
      apply Nat.ltb_lt in Hlen. rewrite Hlen. reflexivity.
    + intros t Htbl Hlen Hfind. apply Hstart. simpl. rewrite Htbl, Hlen. simpl.
      destruct (TableVersionPath.find_tbl_version _ _) as [base|]; [|reflexivity].
      rewrite bool_decide_eq_true_2 by exact Hfind. reflexivity.
Qed.


(** *** select *)

Lemma check_repeated_Ok_inv (all_names : list string) (seen : gset string)
    (names : list string) :
  DataFrame.check_repeated all_names seen names = Ok tt ->
  NoDup names /\ forall x, x ∈ names -> x ∉ seen.
Proof.
  revert seen. induction names as [|n names IH]; intros seen; simpl.
  - intros _. split; [constructor|]. intros x Hx. apply elem_of_nil in Hx. contradiction.
  - case_bool_decide as Hn; [discriminate|]. intros H. apply IH in H as [Hnd Hdisj].
    split.
    + apply NoDup_cons. split; [|exact Hnd].
      intros Hin. apply (Hdisj n Hin). apply elem_of_union. left. apply elem_of_singleton.
      reflexivity.
    + intros x Hx. apply elem_of_cons in Hx as [->|Hx]; [exact Hn|].
      intros Hs. apply (Hdisj x Hx). apply elem_of_union. right. exact Hs.
Qed.

Lemma check_repeated_Raise (all_names : list string) (seen : gset string)
    (pre : list string) (n : string) (rest : list string) :
  NoDup pre -> (forall x, x ∈ pre -> x ∉ seen) -> n ∈ seen \/ n ∈ pre ->
  DataFrame.check_repeated all_names seen (pre ++ n :: rest)
  = Raise (Error ("Repeated column name " +:+ dquote +:+ n +:+ dquote
                  +:+ " in select() at positions: "
                  +:+ join_comma (map pretty (DataFrame.positions_of n 0 all_names)))).
Proof.
  revert seen. induction pre as [|x pre IH]; intros seen Hnd Hdisj Hor; simpl.
  - destruct Hor as [Hs|Hp]; [|apply elem_of_nil in Hp; contradiction].
    rewrite bool_decide_eq_true_2 by exact Hs. reflexivity.
  - apply NoDup_cons in Hnd as [Hx Hnd].
    rewrite bool_decide_eq_false_2 by (apply Hdisj; apply elem_of_cons; left; reflexivity).
    apply IH.
    + exact Hnd.
    + intros y Hy Hs. apply elem_of_union in Hs as [Hs|Hs].
      * apply elem_of_singleton in Hs. subst y. contradiction.
      * apply (Hdisj y); [apply elem_of_cons; right; exact Hy | exact Hs].
    + destruct Hor as [Hs|Hp].
      * left. apply elem_of_union. right. exact Hs.
      * apply elem_of_cons in Hp as [->|Hp]; [left|right; exact Hp].
        apply elem_of_union. left. apply elem_of_singleton. reflexivity.
Qed.

Lemma wrap_items_snd (base_list : list (Any * option string))
    (sl : list (Expr * option string)) :
  DataFrame.wrap_items base_list = Ok sl -> map snd sl = map snd base_list.
Proof.
  revert sl. induction base_list as [|[raw name] base_list IH]; intros sl; simpl.
  - intros [= <-]. reflexivity.
  - destruct (is_invalid_type _); [discriminate|].
    intros H. apply obind_Ok_inv in H as (rest' & Hrest & [= <-]).
    simpl. rewrite (IH rest' Hrest). reflexivity.
Qed.

(** X12. A [select] with at least one item that returns has built a new
    object: its select list is the wrapped items, its expressions are theirs,
    and its schema has exactly one entry per item, in the order of the items
    (positional ones first), under pairwise distinct names, those of
    [_normalize_select_list].  The other attributes are the receiver's and
    nothing that was in the heap is changed. *)
Theorem select_builds (h : DataFrame.Heap) (self : addr) (df : DataFrame.t)
    (items : list Any) (named_items : list (string * Any)) (a : addr)
    (h' : DataFrame.Heap) :
  DataFrame.frames h !! self = Some df ->
  items <> [] \/ named_items <> [] ->
  DataFrame.select self items named_items h = (Ok a, h') ->
  exists sl names,
    DataFrame.wrap_items (map (fun expr => (expr, None)) items
                          ++ map (fun kv => (kv.2, Some kv.1)) named_items) = Ok sl /\
    DataFrame._normalize_select_list (DataFrame.tbl df) (Some sl) = Ok (map fst sl, names) /\
    NoDup names /\
    length names = length items + length named_items /\
    preserved h h' /\
    builds h a h' (with_select (query_of h df) sl names).
Proof.
  intros Hself Hne. unfold DataFrame.select. rewrite get_frame_bind, Hself.
  case_bool_decide as Hsel; [discriminate|].
  rewrite lift_bind. destruct (DataFrame.check_names named_items) as [[]|e]; [|discriminate].
  set (base := map (fun expr : Any => (expr, None)) items
               ++ map (fun kv : string * Any => (kv.2, Some kv.1)) named_items).
  assert (Hbase : length base = length items + length named_items).
  { unfold base. rewrite length_app, !length_map. reflexivity. }
  assert (Hpos : 0 < length items + length named_items).
  { destruct Hne as [Hi|Hn]; [destruct items | destruct named_items];
      simpl; try congruence; lia. }
  destruct (length base =? 0)%nat eqn:Hzero.
  { apply Nat.eqb_eq in Hzero. lia. }
  rewrite lift_bind. destruct (DataFrame.wrap_items base) as [sl|e] eqn:Hwrap; [|discriminate].
  rewrite lift_bind.
  destruct (normalize_eq (DataFrame.tbl df) (Some sl)) as (names & Hnorm & Hlen & _).
  simpl in Hnorm, Hlen. rewrite Hnorm. rewrite lift_bind. simpl.
  destruct (DataFrame.check_repeated names ∅ names) as [[]|e] eqn:Hrep; [|discriminate].
  intros Hrun. apply check_repeated_Ok_inv in Hrep as [Hnd _].
  apply init_Ok_value in Hrun as (n & Hchecks & Hpres & Hbuilds).
  apply init_checks_Ok in Hchecks as (_ & Hn & _).
  rewrite Hnorm in Hn. injection Hn as <-. simpl in Hbuilds.
  assert (Hsl : length sl = length base).
  { apply wrap_items_snd in Hwrap. apply (f_equal length) in Hwrap.
    rewrite !length_map in Hwrap. exact Hwrap. }
  exists sl, names.
  split; [reflexivity|]. split; [exact Hnorm|]. split; [exact Hnd|].
  split; [lia|]. split; [exact Hpres|].
  destruct Hbuilds as (Hfresh & df' & Hdf' & Hq & Hown).
  split; [exact Hfresh|]. exists df'.
  split; [exact Hdf'|]. split; [|exact Hown]. rewrite Hq.
  unfold with_select, query_of, entries. simpl. f_equal.
  rewrite map_map. apply dict_of_items_NoDup.
  pose proof (fst_zip names (map (fun ent : Expr * option string => expr_col_type ent.1) sl))
    as Hfst.
  change (length names
          <= length (map (fun ent : Expr * option string => expr_col_type ent.1) sl) ->
          map fst (zip names (map (fun ent : Expr * option string => expr_col_type ent.1) sl))
          = names) in Hfst.
  rewrite Hfst; [exact Hnd|]. rewrite length_map. lia.
Qed.

(** X13. [select] rejects a list of items two of which end up under the
    same name (given by the caller or generated): it raises the [Error] that
    names the first column whose name an earlier column has, with the
    positions of all columns of that name, and changes nothing. *)
Theorem select_repeated_name (h : DataFrame.Heap) (self : addr) (df : DataFrame.t)
    (items : list Any) (named_items : list (string * Any))
    (sl : list (Expr * option string)) (names pre : list string) (n : string)
    (rest : list string) :
  DataFrame.frames h !! self = Some df ->
  DataFrame.select_list df = None ->
  DataFrame.check_names named_items = Ok tt ->
  DataFrame.wrap_items (map (fun expr => (expr, None)) items
                        ++ map (fun kv => (kv.2, Some kv.1)) named_items) = Ok sl ->
  DataFrame._normalize_select_list (DataFrame.tbl df) (Some sl) = Ok (map fst sl, names) ->
  names = pre ++ n :: rest -> NoDup pre -> n ∈ pre ->
  DataFrame.select self items named_items h
  = (Raise (Error ("Repeated column name " +:+ dquote +:+ n +:+ dquote
                   +:+ " in select() at positions: "
                   +:+ join_comma (map pretty (DataFrame.positions_of n 0 names)))), h).
Proof.
  intros Hself Hnone Hnames Hwrap Hnorm Hsplit Hnd Hin.
  unfold DataFrame.select. rewrite get_frame_bind, Hself, Hnone.
  rewrite bool_decide_eq_false_2 by (intros [? [=]]).
  rewrite lift_bind, Hnames.
  set (base := map (fun expr : Any => (expr, None)) items
               ++ map (fun kv : string * Any => (kv.2, Some kv.1)) named_items) in *.
  assert (Hlen : length base <> 0).
  { pose proof (wrap_items_snd _ _ Hwrap) as Hsnd. apply (f_equal length) in Hsnd.
    rewrite !length_map in Hsnd.
    destruct (normalize_eq (DataFrame.tbl df) (Some sl)) as (names' & Hnorm' & Hl & _).
    rewrite Hnorm in Hnorm'. injection Hnorm' as <-. simpl in Hl.
    rewrite Hsplit, length_app in Hl. simpl in Hl. lia. }
  apply Nat.eqb_neq in Hlen. rewrite Hlen.
  rewrite lift_bind, Hwrap, lift_bind, Hnorm, lift_bind. simpl.
  rewrite Hsplit at 2.
  rewrite check_repeated_Raise; [reflexivity | exact Hnd | | right; exact Hin].
  intros x _ Hx. apply elem_of_empty in Hx. exact Hx.
Qed.

(** *** order_by *)

(** The constructor at the end of [order_by], on the heap in which the list
    [a_list] has been written. *)
Lemma order_by_tail (h : DataFrame.Heap) (self : addr) (df : DataFrame.t)
    (a_list : addr) (new_entries : list (Expr * bool)) :
  wf h -> DataFrame.frames h !! self = Some df ->
  exists a h',
    DataFrame.__init__ (DataFrame.tbl df) (DataFrame.select_list df)
      (DataFrame.where_clause df) (DataFrame.group_by_clause df)
      (DataFrame.grouping_tbl df) (Some a_list) (DataFrame.limit_val df)
      {| DataFrame.frames := DataFrame.frames h;
         DataFrame.lists := <[a_list := new_entries]> (DataFrame.lists h) |}
    = (Ok a, h') /\
    builds h a h' (with_order (query_of h df) (Some new_entries)) /\
    (forall x d, DataFrame.frames h !! x = Some d -> DataFrame.frames h' !! x = Some d) /\
    (forall x l, x <> a_list -> DataFrame.lists h !! x = Some l ->
       DataFrame.lists h' !! x = Some l) /\
    DataFrame.lists h' !! a_list = Some new_entries.
Proof.
  intros Hwf Hself. destruct (Hwf self df Hself) as [Hvalid _].
  destruct (valid_checks df (DataFrame.group_by_clause df) (DataFrame.grouping_tbl df)
              Hvalid (valid_grouping df Hvalid)) as (n & Hchecks & He & Hs).
  set (h1 := {| DataFrame.frames := DataFrame.frames h;
                DataFrame.lists := <[a_list := new_entries]> (DataFrame.lists h) |}).
  destruct (init_value (DataFrame.tbl df) (DataFrame.select_list df)
              (DataFrame.where_clause df) (DataFrame.group_by_clause df)
              (DataFrame.grouping_tbl df) (Some a_list) (DataFrame.limit_val df) h1 n Hchecks)
    as (a & h' & Hrun & [Hframes Hlists] & Hfresh & df' & Hdf' & Hq & Hown).
  { intros a0 [= <-]. simpl. rewrite lookup_insert_eq. eauto. }
  exists a, h'. split; [exact Hrun|]. split; [|split; [|split]].
  - split; [exact Hfresh|]. exists df'. split; [exact Hdf'|]. split.
    + rewrite Hq. unfold with_order, query_of. simpl. rewrite lookup_insert_eq, He, Hs.
      reflexivity.
    + intros a0 Ha0. specialize (Hown a0 Ha0). simpl in Hown.
      destruct (decide (a_list = a0)) as [->|Hne].
      * rewrite lookup_insert_eq in Hown. discriminate.
      * rewrite lookup_insert_ne in Hown by exact Hne. exact Hown.
  - intros x d Hx. apply Hframes. exact Hx.
  - intros x l Hne Hx. apply Hlists. simpl. rewrite lookup_insert_ne by auto. exact Hx.
  - apply Hlists. simpl. apply lookup_insert_eq.
Qed.

(** [order_by] in one step, once its arguments are accepted: the list that
    is written is the receiver's, or a new one. *)
Lemma order_by_eq (h : DataFrame.Heap) (self : addr) (df : DataFrame.t)
    (expr_list : list Any) (exprs : list Expr) (asc : bool) :
  wf h -> DataFrame.frames h !! self = Some df ->
  DataFrame.check_order_exprs expr_list = Ok exprs ->
  DataFrame.order_by self expr_list asc h
  = DataFrame.__init__ (DataFrame.tbl df) (DataFrame.select_list df)
      (DataFrame.where_clause df) (DataFrame.group_by_clause df)
      (DataFrame.grouping_tbl df)
      (Some (default (fresh (dom (DataFrame.lists h))) (DataFrame.order_by_clause df)))
      (DataFrame.limit_val df)
      {| DataFrame.frames := DataFrame.frames h;
         DataFrame.lists :=
           <[default (fresh (dom (DataFrame.lists h))) (DataFrame.order_by_clause df) :=
               default [] (entries h df) ++ map (fun e => (e, asc)) exprs]>
             (DataFrame.lists h) |}.
Proof.
  intros Hwf Hself Hcheck. destruct (Hwf self df Hself) as [_ Hlist].
  unfold DataFrame.order_by. rewrite get_frame_bind, Hself, lift_bind, Hcheck.
  unfold entries.
  destruct (DataFrame.order_by_clause df) as [a0|] eqn:Ha0.
  - destruct (Hlist a0 eq_refl) as [l Hl]. rewrite Hl. simpl.
    unfold Py.bind at 1. unfold Py.ret at 1. unfold Py.bind at 1.
    unfold DataFrame.extend_list, Py.bind, DataFrame.read_list, Py.modify.
    rewrite Hl. reflexivity.
  - simpl.
    unfold Py.bind at 1. unfold DataFrame.alloc_list at 1. unfold Py.bind at 1.
    unfold DataFrame.extend_list, Py.bind, DataFrame.read_list, Py.modify. simpl.
    rewrite lookup_insert_eq. simpl. rewrite insert_insert_eq. reflexivity.
Qed.

(** X14. [order_by] with expressions, on any object of a well-formed heap:
    it returns a new object whose order-by entries are the receiver's
    entries (none, if it had no list) followed by one entry per expression,
    each with the given direction; the new object has a list object of its
    own; its other attributes are the receiver's, and every object of the
    heap is as it was. *)
Theorem order_by_builds (h : DataFrame.Heap) (self : addr) (df : DataFrame.t)
    (expr_list : list Any) (exprs : list Expr) (asc : bool) :
  wf h -> DataFrame.frames h !! self = Some df ->
  DataFrame.check_order_exprs expr_list = Ok exprs ->
  exists a h',
    DataFrame.order_by self expr_list asc h = (Ok a, h') /\
    builds h a h'
      (with_order (query_of h df)
         (Some (default [] (entries h df) ++ map (fun e => (e, asc)) exprs))) /\
    (forall x d, DataFrame.frames h !! x = Some d -> DataFrame.frames h' !! x = Some d).
Proof.
  intros Hwf Hself Hcheck.
  rewrite (order_by_eq h self df expr_list exprs asc Hwf Hself Hcheck).
  destruct (order_by_tail h self df
              (default (fresh (dom (DataFrame.lists h))) (DataFrame.order_by_clause df))
              (default [] (entries h df) ++ map (fun e => (e, asc)) exprs) Hwf Hself)
    as (a & h' & Hrun & Hbuilds & Hframes & _).
  exists a, h'. auto.
Qed.

(** A constructor that raises leaves the heap as it was. *)
Lemma init_Raise tbl select_list where_clause group_by_clause grouping_tbl
    order_by_clause limit (h h' : DataFrame.Heap) e :
  DataFrame.__init__ tbl select_list where_clause group_by_clause grouping_tbl
    order_by_clause limit h = (Raise e, h') -> h' = h.
Proof.
  rewrite init_eq.
  destruct (init_checks tbl select_list group_by_clause grouping_tbl) as [n|e0];
    [|intros [= _ <-]; reflexivity].
  destruct order_by_clause as [a0|]; [|discriminate].
  destruct (DataFrame.lists h !! a0); [discriminate | intros [= _ <-]; reflexivity].
Qed.

(** X15. A call of [select], [where], [group_by], [order_by] or [limit]
    that raises, on a well-formed heap, leaves the heap exactly as it was: no
    object is added and no list is extended.  In particular [order_by]
    extends the receiver's list only when it returns. *)
Theorem raising_builder_leaves_heap (h : DataFrame.Heap) (self : addr) (e : exn)
    (h' : DataFrame.Heap) :
  wf h ->
  (forall items named_items,
     DataFrame.select self items named_items h = (Raise e, h') -> h' = h) /\
  (forall pred, DataFrame.where_ self pred h = (Raise e, h') -> h' = h) /\
  (forall items, DataFrame.group_by self items h = (Raise e, h') -> h' = h) /\
  (forall expr_list asc, DataFrame.order_by self expr_list asc h = (Raise e, h') -> h' = h) /\
  (forall n, DataFrame.limit self n h = (Raise e, h') -> h' = h).
Proof.
  intros Hwf. repeat split.
  - intros items named_items. unfold DataFrame.select. rewrite get_frame_bind.
    destruct (DataFrame.frames h !! self) as [df|]; [|intros [= _ <-]; reflexivity].
    case_bool_decide; [intros [= _ <-]; reflexivity|].
    rewrite lift_bind. destruct (DataFrame.check_names named_items) as [[]|e0];
      [|intros [= _ <-]; reflexivity].
    destruct (length _ =? 0)%nat; [discriminate|].
    rewrite lift_bind. destruct (DataFrame.wrap_items _) as [sl|e0];
      [|intros [= _ <-]; reflexivity].
    rewrite lift_bind. destruct (DataFrame._normalize_select_list _ _) as [n|e0];
      [|intros [= _ <-]; reflexivity].
    rewrite lift_bind. destruct (DataFrame.check_repeated _ _ _) as [[]|e0];
      [apply init_Raise | intros [= _ <-]; reflexivity].
  - intros pred. unfold DataFrame.where_. rewrite get_frame_bind.
    destruct (DataFrame.frames h !! self) as [df|]; [|intros [= _ <-]; reflexivity].
    destruct (as_Expr pred) as [p|]; [|intros [= _ <-]; reflexivity].
    destruct (negb _); [intros [= _ <-]; reflexivity | apply init_Raise].
  - intros items. unfold DataFrame.group_by. rewrite get_frame_bind.
    destruct (DataFrame.frames h !! self) as [df|]; [|intros [= _ <-]; reflexivity].
    case_bool_decide; [intros [= _ <-]; reflexivity|].
    rewrite lift_bind. destruct (DataFrame.group_by_loop _ _ _) as [g|e0];
      [apply init_Raise | intros [= _ <-]; reflexivity].
  - intros expr_list asc Hrun.
    destruct (DataFrame.frames h !! self) as [df|] eqn:Hself.
    + destruct (DataFrame.check_order_exprs expr_list) as [exprs|e0] eqn:Hcheck.
      * rewrite (order_by_eq h self df expr_list exprs asc Hwf Hself Hcheck) in Hrun.
        destruct (order_by_tail h self df
                    (default (fresh (dom (DataFrame.lists h))) (DataFrame.order_by_clause df))
                    (default [] (entries h df) ++ map (fun e => (e, asc)) exprs) Hwf Hself)
          as (a & h'' & Hok & _).
        rewrite Hok in Hrun. discriminate.
      * unfold DataFrame.order_by in Hrun.
        rewrite get_frame_bind, Hself, lift_bind, Hcheck in Hrun.
        injection Hrun as _ <-. reflexivity.
    + unfold DataFrame.order_by in Hrun. rewrite get_frame_bind, Hself in Hrun.
      injection Hrun as _ <-. reflexivity.
  - intros n. unfold DataFrame.limit. rewrite get_frame_bind.
    destruct (DataFrame.frames h !! self) as [df|]; [|intros [= _ <-]; reflexivity].
    apply init_Raise.
Qed.


(** *** What every object satisfies *)

Lemma check_rep_names (exprs : list Expr) (names : list string) :
  length names <= length exprs ->
  DataFrame._select_list_check_rep (Some (zip exprs (map Some names))) = Ok tt ->
  names <> [] /\ Forall (fun k => is_valid_identifier k = true) names.
Proof.
  unfold DataFrame._select_list_check_rep. intros Hlen.
  destruct (negb (0 <? length (zip exprs (map Some names)))%nat) eqn:Hpos; [discriminate|].
  destruct (forallb _ _) eqn:Hall; [intros _|discriminate]. split.
  - intros ->. destruct exprs; discriminate.
  - clear Hpos. revert exprs Hlen Hall. induction names as [|k names IH]; intros exprs Hlen Hall;
      [constructor|].
    destruct exprs as [|e exprs]; simpl in Hlen; [lia|].
    simpl in Hall. apply andb_prop in Hall as [Hk Hall].
    constructor; [exact Hk | apply (IH exprs); [lia | exact Hall]].
Qed.

Lemma valid_facts (df : DataFrame.t) :
  valid df ->
  DataFrame._select_list_exprs df <> [] /\
  DataFrame._select_list_exprs df
    = match DataFrame.select_list df with
      | Some l => map fst l
      | None => column_refs (DataFrame.tbl df)
      end /\
  0 < length (DataFrame._schema df) <= length (DataFrame._select_list_exprs df) /\
  Forall (fun k => is_valid_identifier k = true) (map fst (DataFrame._schema df)) /\
  (DataFrame.group_by_clause df = None \/ DataFrame.grouping_tbl df = None).
Proof.
  intros (n & Hchecks & He & Hs).
  apply init_checks_Ok in Hchecks as (_ & Hnorm & Hrep & Hgroup).
  destruct (normalize_eq (DataFrame.tbl df) (DataFrame.select_list df))
    as (names & Hnorm' & Hlen & _).
  rewrite Hnorm in Hnorm'. injection Hnorm' as ->. simpl in *.
  rewrite <- (length_map fst), fst_expanded in Hlen. rewrite fst_expanded in *.
  apply check_rep_names in Hrep as [Hne Hvalid]; [|lia].
  assert (Hzip : map fst (zip names (map expr_col_type (DataFrame._select_list_exprs df)))
                 = names).
  { rewrite He. apply (fst_zip names). rewrite length_map. lia. }
  split; [|split; [|split; [|split]]].
  - rewrite He. intros Hnil. rewrite Hnil in Hlen. destruct names; [congruence|discriminate].
  - exact He.
  - rewrite Hs, <- He. unfold dict_of_items.
    destruct names as [|k names]; [congruence|].
    destruct (DataFrame._select_list_exprs df) as [|e exprs]; [discriminate|]. simpl.
    pose proof (dict_fold_length (zip names (map expr_col_type exprs))
                  [(k, expr_col_type e)]) as Hfold.
    simpl in Hfold, Hlen. rewrite length_zip, length_map in Hfold. lia.
  - rewrite Hs, <- He. unfold dict_of_items. apply dict_fold_keys; [|constructor].
    rewrite Hzip. exact Hvalid.
  - exact Hgroup.
Qed.

(** X16. What holds of every object of a well-formed heap, that is of every
    DataFrame the methods of the class have built: it has at least one
    expression, those of its select list or, without one, the columns of its
    table; its schema has at least one entry and at most one per expression,
    and every key of the schema is a valid identifier; it has not both a
    group-by clause and a grouping table; its order-by list, if it has one,
    is in the heap. *)
Theorem wf_object_facts (h : DataFrame.Heap) (x : addr) (df : DataFrame.t) :
  wf h -> DataFrame.frames h !! x = Some df ->
  DataFrame._select_list_exprs df <> [] /\
  DataFrame._select_list_exprs df
    = match DataFrame.select_list df with
      | Some l => map fst l
      | None => column_refs (DataFrame.tbl df)
      end /\
  0 < length (DataFrame._schema df) <= length (DataFrame._select_list_exprs df) /\
  Forall (fun k => is_valid_identifier k = true) (map fst (DataFrame._schema df)) /\
  (DataFrame.group_by_clause df = None \/ DataFrame.grouping_tbl df = None) /\
  (is_Some (DataFrame.order_by_clause df) -> is_Some (entries h df)).
Proof.
  intros Hwf Hx. destruct (Hwf x df Hx) as [Hvalid Hlist].
  destruct (valid_facts df Hvalid) as (H1 & H2 & H3 & H4 & H5).
  repeat (split; [assumption|]).
  intros [a Ha]. unfold entries. rewrite Ha. apply Hlist. exact Ha.
Qed.

(** X17. Every method of the class that builds a DataFrame leaves a
    well-formed heap well formed, whether it returns or raises: [select],
    [where], [group_by], [order_by], [limit], [bind] and [from_dict].  The
    empty heap is well formed, so the statement above holds of every object
    these methods ever build. *)
Theorem methods_keep_wf (h : DataFrame.Heap) (self : addr) (r : outcome addr)
    (h' : DataFrame.Heap) :
  wf h ->
  (forall items named_items, DataFrame.select self items named_items h = (r, h') -> wf h') /\
  (forall pred, DataFrame.where_ self pred h = (r, h') -> wf h') /\
  (forall items, DataFrame.group_by self items h = (r, h') -> wf h') /\
  (forall expr_list asc, DataFrame.order_by self expr_list asc h = (r, h') -> wf h') /\
  (forall n, DataFrame.limit self n h = (r, h') -> wf h') /\
  (forall args, DataFrame.bind self args h = (r, h') -> wf h') /\
  (forall d, DataFrame.from_dict_ d h = (r, h') -> wf h').
Proof.
  intros Hwf.
  split; [intros items named_items; apply wf_select; exact Hwf|].
  split; [intros pred; apply wf_where; exact Hwf|].
  split; [intros items; apply wf_group_by; exact Hwf|].
  split; [intros expr_list asc; apply wf_order_by; exact Hwf|].
  split; [intros n; apply wf_limit; exact Hwf|].
  split; [intros args; apply wf_bind; exact Hwf|].
  intros d; apply wf_from_dict; exact Hwf.
Qed.

(** X18. What the constructor rejects, each time with [AssertionError] and
    without any change: an empty select list; a select list with a name that
    is not a valid identifier; no select list over a table without columns;
    a group-by clause together with a grouping table. *)
Theorem init_rejects tbl select_list where_clause group_by_clause grouping_tbl
    order_by_clause limit (h : DataFrame.Heap) :
  select_list = Some [] \/
  (exists l e s, select_list = Some l /\ (e, Some s) ∈ l /\ is_valid_identifier s = false) \/
  (select_list = None /\ column_refs tbl = []) \/
  (is_Some group_by_clause /\ is_Some grouping_tbl) ->
  DataFrame.__init__ tbl select_list where_clause group_by_clause grouping_tbl
    order_by_clause limit h = (Raise AssertionError, h).
Proof.
  intros Hcase. rewrite init_eq.
  destruct (init_checks tbl select_list group_by_clause grouping_tbl) as [n|e] eqn:Hchecks.
  2:{ apply init_checks_Raise in Hchecks. subst e. reflexivity. }
  exfalso. apply init_checks_Ok in Hchecks as (Hrep & Hnorm & Hrep' & Hgroup).
  destruct Hcase as [->|[(l & e & s & -> & Hin & Hbad)|[[-> Hcols]|[[g Hg] [gt Hgt]]]]].
  - discriminate.
  - unfold DataFrame._select_list_check_rep in Hrep.
    destruct (negb _); [discriminate|].
    destruct (forallb _ l) eqn:Hall; [|discriminate].
    rewrite forallb_forall in Hall. apply list_elem_of_In in Hin.
    specialize (Hall _ Hin). simpl in Hall. congruence.
  - destruct (normalize_eq tbl None) as (names & Hnorm' & Hlen & _).
    rewrite Hnorm in Hnorm'. injection Hnorm' as ->. simpl in *.
    rewrite Hcols in *. destruct names; [|discriminate]. discriminate.
  - destruct Hgroup; congruence.
Qed.

(** What the object that a successful constructor call adds looks like. *)
Lemma init_Ok_frame tbl select_list where_clause group_by_clause grouping_tbl
    order_by_clause limit (h h' : DataFrame.Heap) (a : addr) :
  DataFrame.__init__ tbl select_list where_clause group_by_clause grouping_tbl
    order_by_clause limit h = (Ok a, h') ->
  DataFrame.frames h !! a = None /\
  exists df',
    DataFrame.frames h' !! a = Some df' /\
    DataFrame.tbl df' = tbl /\
    DataFrame.select_list df' = select_list /\
    DataFrame.where_clause df' = where_clause /\
    DataFrame.group_by_clause df' = group_by_clause /\
    DataFrame.grouping_tbl df' = grouping_tbl /\
    DataFrame.limit_val df' = limit /\
    (is_Some order_by_clause <-> is_Some (DataFrame.order_by_clause df')).
Proof.
  intros Hrun.
  destruct (frame_init_Ok_inv _ _ _ _ _ _ _ _ _ _ Hrun) as (n & ob' & _ & -> & Hframes & Hob).
  split; [apply fresh_addr_None|].
  eexists. split; [rewrite Hframes; apply lookup_insert_eq|]. simpl.
  repeat (split; [reflexivity|]).
  destruct order_by_clause as [a0|].
  - destruct Hob as (l & _ & -> & _). split; eauto.
  - destruct Hob as [-> _]. tauto.
Qed.

End with_exprs.
End DataFrameLaws.

(** ** dataframe.py: mutation through a DataFrame and its description *)

Module DataFrameOpsLaws.
Import DataFrameTerms DataFrameSpec DataFrameValue DataFrameLaws.

Section with_store.
Context `{ES : ExprSystem}.
Variable Store : Type.
Variable Status : Type.
Variable tbl_version_update : TableVersion.t -> Any -> option Expr -> bool -> M Store Status.
Variable tbl_version_delete : TableVersion.t -> option Expr -> M Store Status.
Variable is_insertable : TableVersionPath.t -> bool.
Variable display_str : Expr -> string.

Local Abbreviation State := (DataFrameOps.State Store).
Local Abbreviation update := (DataFrameOps.update Store Status tbl_version_update).
Local Abbreviation delete := (DataFrameOps.delete Store Status tbl_version_delete is_insertable).
Local Abbreviation _description := (DataFrameOps._description display_str).

(** [_validate_mutable] on an object that has one of the four clauses. *)
Lemma validate_mutable_Raise (h : DataFrame.Heap) (self : addr) (df : DataFrame.t)
    (op_name : string) :
  DataFrame.frames h !! self = Some df ->
  is_Some (DataFrame.group_by_clause df) \/ is_Some (DataFrame.grouping_tbl df) \/
  is_Some (DataFrame.order_by_clause df) \/ is_Some (DataFrame.select_list df) \/
  is_Some (DataFrame.limit_val df) ->
  exists clause, clause ∈ ["group_by"; "order_by"; "select"; "limit"] /\
    forall op_name,
      DataFrameOps._validate_mutable self op_name h
      = (Raise (Error ("Cannot use `" +:+ op_name +:+ "` after `" +:+ clause +:+ "`")), h).
Proof.
  intros Hself Hset.
  destruct (decide (is_Some (DataFrame.group_by_clause df)
                    \/ is_Some (DataFrame.grouping_tbl df))) as [Hg|Hg].
  { exists "group_by". split; [rewrite !elem_of_cons; tauto|]. intros op.
    unfold DataFrameOps._validate_mutable. rewrite get_frame_bind, Hself.
    destruct Hg as [Hg|Hg].
    - rewrite (bool_decide_eq_true_2 _ Hg). reflexivity.
    - rewrite (bool_decide_eq_true_2 _ Hg), orb_true_r. reflexivity. }
  assert (Hg1 : ~ is_Some (DataFrame.group_by_clause df)) by tauto.
  assert (Hg2 : ~ is_Some (DataFrame.grouping_tbl df)) by tauto.
  destruct (decide (is_Some (DataFrame.order_by_clause df))) as [Ho|Ho].
  { exists "order_by". split; [rewrite !elem_of_cons; tauto|]. intros op.
    unfold DataFrameOps._validate_mutable. rewrite get_frame_bind, Hself.
    rewrite (bool_decide_eq_false_2 _ Hg1), (bool_decide_eq_false_2 _ Hg2).
    rewrite (bool_decide_eq_true_2 _ Ho). reflexivity. }
  destruct (decide (is_Some (DataFrame.select_list df))) as [Hs|Hs].
  { exists "select". split; [rewrite !elem_of_cons; tauto|]. intros op.
    unfold DataFrameOps._validate_mutable. rewrite get_frame_bind, Hself.
    rewrite (bool_decide_eq_false_2 _ Hg1), (bool_decide_eq_false_2 _ Hg2).
    rewrite (bool_decide_eq_false_2 _ Ho), (bool_decide_eq_true_2 _ Hs). reflexivity. }
  assert (Hl : is_Some (DataFrame.limit_val df)) by tauto.
  exists "limit". split; [rewrite !elem_of_cons; tauto|]. intros op.
  unfold DataFrameOps._validate_mutable. rewrite get_frame_bind, Hself.
  rewrite (bool_decide_eq_false_2 _ Hg1), (bool_decide_eq_false_2 _ Hg2).
  rewrite (bool_decide_eq_false_2 _ Ho), (bool_decide_eq_false_2 _ Hs).
  rewrite (bool_decide_eq_true_2 _ Hl). reflexivity.
Qed.

(** [_validate_mutable] on an object that has none of them. *)
Lemma validate_mutable_Ok (h : DataFrame.Heap) (self : addr) (df : DataFrame.t)
    (op_name : string) :
  DataFrame.frames h !! self = Some df ->
  DataFrame.group_by_clause df = None -> DataFrame.grouping_tbl df = None ->
  DataFrame.order_by_clause df = None -> DataFrame.select_list df = None ->
  DataFrame.limit_val df = None ->
  DataFrameOps._validate_mutable self op_name h = (Ok tt, h).
Proof.
  intros Hself H1 H2 H3 H4 H5.
  unfold DataFrameOps._validate_mutable. rewrite get_frame_bind, Hself, H1, H2, H3, H4, H5.
  reflexivity.
Qed.

(** The object a builder method has just returned has the clause the method
    sets. *)
Lemma built_has_clause (h : DataFrame.Heap) (self a : addr) (h' : DataFrame.Heap) :
  (exists n, DataFrame.limit self n h = (Ok a, h')) \/
  (exists expr_list asc, DataFrame.order_by self expr_list asc h = (Ok a, h')) \/
  (exists items, DataFrame.group_by self items h = (Ok a, h')) \/
  (exists items named_items,
     DataFrame.select self items named_items h = (Ok a, h') /\ a <> self) ->
  exists df', DataFrame.frames h' !! a = Some df' /\
    (is_Some (DataFrame.group_by_clause df') \/ is_Some (DataFrame.grouping_tbl df') \/
     is_Some (DataFrame.order_by_clause df') \/ is_Some (DataFrame.select_list df') \/
     is_Some (DataFrame.limit_val df')).
Proof.
  intros [[n Hrun]|[(expr_list & asc & Hrun)|[[items Hrun]|(items & named_items & Hrun & Hne)]]].
  - unfold DataFrame.limit in Hrun. rewrite get_frame_bind in Hrun.
    destruct (DataFrame.frames h !! self) as [df|]; [|discriminate].
    apply init_Ok_frame in Hrun as (_ & df' & Hdf' & _ & _ & _ & _ & _ & Hlim & _).
    exists df'. split; [exact Hdf'|]. rewrite Hlim. eauto 10.
  - unfold DataFrame.order_by in Hrun. rewrite get_frame_bind in Hrun.
    destruct (DataFrame.frames h !! self) as [df|]; [|discriminate].
    apply bind_Ok_inv in Hrun as (exprs & h1 & _ & Hrun).
    apply bind_Ok_inv in Hrun as (ob & h2 & _ & Hrun).
    apply bind_Ok_inv in Hrun as ([] & h3 & _ & Hrun).
    apply init_Ok_frame in Hrun as (_ & df' & Hdf' & _ & _ & _ & _ & _ & _ & Hob).
    exists df'. split; [exact Hdf'|]. right. right. left. apply Hob. eauto.
  - unfold DataFrame.group_by in Hrun. rewrite get_frame_bind in Hrun.
    destruct (DataFrame.frames h !! self) as [df|]; [|discriminate].
    case_bool_decide; [discriminate|].
    rewrite lift_bind in Hrun.
    destruct (DataFrame.group_by_loop _ _ _) as [gt|e]; [|discriminate].
    apply init_Ok_frame in Hrun as (_ & df' & Hdf' & _ & _ & _ & Hg & Hgt & _).
    exists df'. split; [exact Hdf'|]. rewrite Hg, Hgt.
    destruct gt; eauto.
  - unfold DataFrame.select in Hrun. rewrite get_frame_bind in Hrun.
    destruct (DataFrame.frames h !! self) as [df|]; [|discriminate].
    case_bool_decide; [discriminate|].
    rewrite lift_bind in Hrun.
    destruct (DataFrame.check_names named_items) as [[]|e]; [|discriminate].
    destruct (length _ =? 0)%nat; [injection Hrun as Ha _; congruence|].
    rewrite lift_bind in Hrun. destruct (DataFrame.wrap_items _) as [sl|e]; [|discriminate].
    rewrite lift_bind in Hrun.
    destruct (DataFrame._normalize_select_list _ _) as [n|e]; [|discriminate].
    rewrite lift_bind in Hrun.
    destruct (DataFrame.check_repeated _ _ _) as [[]|e]; [|discriminate].
    apply init_Ok_frame in Hrun as (_ & df' & Hdf' & _ & Hsel & _).
    exists df'. split; [exact Hdf'|]. rewrite Hsel. eauto 10.
Qed.

(** X19. [update] and [delete] on the object that [limit], [order_by],
    [group_by] or a [select] with items has returned always raise the
    [Error] that names one of these four clauses, and leave the objects and
    the backing store as they were: neither [TableVersion.update] nor
    [TableVersion.delete] is reached, whatever the table is. *)
Theorem mutation_rejected_after_builders (h : DataFrame.Heap) (self a : addr)
    (h' : DataFrame.Heap) (st : Store) :
  (exists n, DataFrame.limit self n h = (Ok a, h')) \/
  (exists expr_list asc, DataFrame.order_by self expr_list asc h = (Ok a, h')) \/
  (exists items, DataFrame.group_by self items h = (Ok a, h')) \/
  (exists items named_items,
     DataFrame.select self items named_items h = (Ok a, h') /\ a <> self) ->
  exists clause, clause ∈ ["group_by"; "order_by"; "select"; "limit"] /\
    (forall value_spec cascade,
       update a value_spec cascade {| DataFrameOps.heap := h'; DataFrameOps.store := st |}
       = (Raise (Error ("Cannot use `update` after `" +:+ clause +:+ "`")),
          {| DataFrameOps.heap := h'; DataFrameOps.store := st |})) /\
    delete a {| DataFrameOps.heap := h'; DataFrameOps.store := st |}
    = (Raise (Error ("Cannot use `delete` after `" +:+ clause +:+ "`")),
       {| DataFrameOps.heap := h'; DataFrameOps.store := st |}).
Proof.
  intros Hbuilt. apply built_has_clause in Hbuilt as (df' & Hdf' & Hset).
  destruct (validate_mutable_Raise h' a df' EmptyString Hdf' Hset) as (clause & Hin & Hraise).
  exists clause. split; [exact Hin|]. split.
  - intros value_spec cascade. unfold DataFrameOps.update, Py.bind, DataFrameOps.on_heap.
    simpl. rewrite Hraise. reflexivity.
  - unfold DataFrameOps.delete, Py.bind, DataFrameOps.on_heap. simpl.
    rewrite Hraise. reflexivity.
Qed.

(** X20. [where] followed by [update] or [delete], on a receiver that has
    no select list, grouping, order-by list or limit: [update] hands the
    table version of the receiver's path, the value specification, the
    predicate just given and the cascade flag to [TableVersion.update];
    [delete] hands the table version and that predicate to
    [TableVersion.delete] when the path is insertable, and otherwise raises
    [Error] without touching the store.  A predicate the receiver had is not
    passed on. *)
Theorem where_then_mutate (h : DataFrame.Heap) (self a : addr) (df : DataFrame.t)
    (pred : Any) (e : Expr) (h' : DataFrame.Heap) (st : Store) :
  DataFrame.frames h !! self = Some df ->
  DataFrame.group_by_clause df = None -> DataFrame.grouping_tbl df = None ->
  DataFrame.order_by_clause df = None -> DataFrame.select_list df = None ->
  DataFrame.limit_val df = None ->
  as_Expr pred = Some e ->
  DataFrame.where_ self pred h = (Ok a, h') ->
  (forall value_spec cascade,
     update a value_spec cascade {| DataFrameOps.heap := h'; DataFrameOps.store := st |}
     = let '(r, st') :=
         tbl_version_update (TableVersionPath.tbl_version (DataFrame.tbl df)) value_spec
           (Some e) cascade st in
       (r, {| DataFrameOps.heap := h'; DataFrameOps.store := st' |})) /\
  delete a {| DataFrameOps.heap := h'; DataFrameOps.store := st |}
  = if is_insertable (DataFrame.tbl df)
    then let '(r, st') :=
           tbl_version_delete (TableVersionPath.tbl_version (DataFrame.tbl df)) (Some e) st in
         (r, {| DataFrameOps.heap := h'; DataFrameOps.store := st' |})
    else (Raise (Error "Cannot delete from view"),
          {| DataFrameOps.heap := h'; DataFrameOps.store := st |}).
Proof.
  intros Hself Hg Hgt Hob Hsel Hlim Hexpr Hrun.
  unfold DataFrame.where_ in Hrun. rewrite get_frame_bind, Hself, Hexpr in Hrun.
  destruct (negb _); [discriminate|].
  apply init_Ok_frame in Hrun
    as (_ & df' & Hdf' & Htbl & Hsel' & Hw' & Hg' & Hgt' & Hlim' & Hob').
  assert (Hnone : DataFrame.order_by_clause df' = None).
  { destruct (DataFrame.order_by_clause df') as [a0|] eqn:Ha0; [|reflexivity].
    rewrite Hob in Hob'. destruct Hob' as [_ Hob']. destruct Hob' as [? [=]]. eauto. }
  assert (Hvalid : forall op, DataFrameOps._validate_mutable a op h' = (Ok tt, h')).
  { intros op. apply (validate_mutable_Ok h' a df'); congruence. }
  split.
  - intros value_spec cascade.
    unfold DataFrameOps.update, Py.bind, DataFrameOps.on_heap, DataFrameOps.on_store.
    simpl. rewrite Hvalid. simpl. unfold DataFrame.get_frame. simpl. rewrite Hdf'. simpl.
    rewrite Htbl, Hw'.
    reflexivity.
  - unfold DataFrameOps.delete, Py.bind, DataFrameOps.on_heap, DataFrameOps.on_store.
    simpl. rewrite Hvalid. simpl. unfold DataFrame.get_frame. simpl. rewrite Hdf'. simpl.
    rewrite Htbl, Hw'.
    destruct (is_insertable (DataFrame.tbl df)); reflexivity.
Qed.


(** [_description] in one step. *)
Lemma description_eq (h : DataFrame.Heap) (self : addr) (df : DataFrame.t) :
  DataFrame.frames h !! self = Some df ->
  (forall a0, DataFrame.order_by_clause df = Some a0 -> is_Some (DataFrame.lists h !! a0)) ->
  _description self h
  = (if match DataFrame.select_list df with
        | Some l => (0 <? length l)%nat
        | None => true
        end
        && (0 <? length (description_heading h df))%nat
        && (0 <? length (description_info display_str h df))%nat
        && (length (description_heading h df)
            =? length (description_info display_str h df))%nat
     then Ok (description_heading h df, description_info display_str h df)
     else Raise AssertionError, h).
Proof.
  intros Hself Hlist.
  unfold description_heading, description_info, entries.
  unfold DataFrameOps._description. rewrite get_frame_bind, Hself.
  unfold DataFrame.read_opt_list.
  destruct (DataFrame.order_by_clause df) as [a0|] eqn:Hob.
  - destruct (Hlist a0 eq_refl) as [o Ho].
    unfold Py.bind, DataFrame.read_list, Py.ret, Py.assert, Py.raise, DataFrameOps.blanks.
    rewrite Ho.
    destruct (DataFrame.select_list df) as [l|];
      destruct (DataFrame.where_clause df) as [w|];
      destruct (DataFrame.group_by_clause df) as [g|];
      destruct (DataFrame.limit_val df) as [n|]; simpl;
      repeat (match goal with
              | |- context [if ?c then _ else _] => destruct c
              end; simpl); reflexivity.
  - unfold Py.bind, DataFrame.read_list, Py.ret, Py.assert, Py.raise, DataFrameOps.blanks.
    destruct (DataFrame.select_list df) as [l|];
      destruct (DataFrame.where_clause df) as [w|];
      destruct (DataFrame.group_by_clause df) as [g|];
      destruct (DataFrame.limit_val df) as [n|]; simpl;
      repeat (match goal with
              | |- context [if ?c then _ else _] => destruct c
              end; simpl); reflexivity.
Qed.

(** The two columns have the same length exactly on the objects that can be
    described. *)
Lemma describable_lengths (h : DataFrame.Heap) (self : addr) (df : DataFrame.t) :
  wf h -> DataFrame.frames h !! self = Some df ->
  describable h df <->
  0 < length (description_info display_str h df) /\
  length (description_heading h df) = length (description_info display_str h df).
Proof.
  intros Hwf Hself. destruct (Hwf self df Hself) as [Hvalid Hlist].
  destruct (valid_facts df Hvalid) as (_ & Hexprs & Hlen & _).
  unfold describable, description_heading, description_info, entries.
  destruct (DataFrame.order_by_clause df) as [a0|] eqn:Hob;
    [destruct (Hlist a0 eq_refl) as [o Ho]; rewrite Ho|];
    (destruct (DataFrame.select_list df) as [l|] eqn:Hsel;
       [rewrite Hexprs, length_map in Hlen|]);
    destruct (DataFrame.where_clause df) as [w|];
    destruct (DataFrame.group_by_clause df) as [g|];
    destruct (DataFrame.limit_val df) as [n|];
    rewrite ?length_app; simpl;
    rewrite ?length_app; simpl; rewrite ?length_replicate, ?length_map.
  all: split;
    [intros (Hsome & Hsch & Hg & Ho');
     try (specialize (Hsch _ eq_refl));
     try (destruct g; [congruence|]); try (destruct o; [congruence|]);
     try (destruct Hsome as [[? [=]]|[[? [=]]|[[? [=]]|[[? [=]]|[? [=]]]]]]);
     simpl in *; lia
    |intros [Hpos Heq];
     first [exfalso; lia
           |split; [eauto 10|];
            split; [intros l0 Hl0; try discriminate; try (injection Hl0 as <-); lia|];
            split; [try discriminate; intros [= ->]; simpl in *; lia
                   |try discriminate; intros [= ->]; simpl in *; lia]]].
Qed.

(** X21. [_description] (on which [describe] and [repr] rest), on an
    object of a well-formed heap.  It returns when some clause is set, the
    schema has as many entries as the select list, and neither the group-by
    clause nor the order-by list is empty; it then returns the heading and
    info columns, of equal length, the info column listing the keys of the
    schema (when a select list is set), the predicate, the group-by
    expressions, the order-by entries with their direction and the limit.
    In every other case one of its assertions fails: on a DataFrame without
    any clause (also when only a grouping table is set), after [group_by] or
    [order_by] without arguments, and when two columns share a name.  The
    heap is never changed. *)
Theorem description_returns_iff (h : DataFrame.Heap) (self : addr) (df : DataFrame.t) :
  wf h -> DataFrame.frames h !! self = Some df ->
  (describable h df ->
   _description self h
   = (Ok (description_heading h df, description_info display_str h df), h) /\
   length (description_heading h df) = length (description_info display_str h df)) /\
  (~ describable h df -> _description self h = (Raise AssertionError, h)).
Proof.
  intros Hwf Hself. destruct (Hwf self df Hself) as [Hvalid Hlist].
  destruct (valid_facts df Hvalid) as (_ & Hexprs & Hlen & _).
  pose proof (describable_lengths h self df Hwf Hself) as Hiff.
  rewrite (description_eq h self df Hself Hlist).
  assert (Hsel : match DataFrame.select_list df with
                 | Some l => (0 <? length l)%nat
                 | None => true
                 end = true).
  { destruct (DataFrame.select_list df) as [l|]; [|reflexivity].
    rewrite Hexprs, length_map in Hlen. apply Nat.ltb_lt. lia. }
  rewrite Hsel. simpl.
  destruct (Nat.ltb_spec 0 (length (description_heading h df))) as [H1|H1];
    destruct (Nat.ltb_spec 0 (length (description_info display_str h df))) as [H2|H2];
    destruct (Nat.eqb_spec (length (description_heading h df))
                (length (description_info display_str h df))) as [H3|H3]; simpl.
  all: split; [intros Hd; apply Hiff in Hd as [Hpos Heq]; first [split; [reflexivity|exact Heq] | lia]
              |intros Hnot; first [reflexivity | exfalso; apply Hnot, Hiff; split; assumption]].
Qed.

End with_store.
End DataFrameOpsLaws.

(** ** dataframe.py: DataFrameResultSet *)

Module ResultSetLaws.
Import DataFrameResultSet.

Section with_values.
Variable V : Type.
Variable CT : Type.
Variable str_index : index -> string.

Local Abbreviation t := (DataFrameResultSet.t V CT).
Local Abbreviation __getitem__ := (DataFrameResultSet.__getitem__ V CT str_index).
Local Abbreviation _row_to_dict := (DataFrameResultSet._row_to_dict V CT).
Local Abbreviation _reverse := (DataFrameResultSet._reverse V CT).
Local Abbreviation __iter__ := (DataFrameResultSet.__iter__ V CT).
Local Abbreviation __len__ := (DataFrameResultSet.__len__ V CT).
Local Abbreviation rectangular := (DataFrameResultSet.rectangular V CT).
Local Abbreviation _rows := (DataFrameResultSet._rows V CT).
Local Abbreviation _col_names := (DataFrameResultSet._col_names V CT).

(** *** Indexing a list *)

Lemma py_getitem_nat {A} (l : list A) (k : nat) :
  py_getitem l (Z.of_nat k)
  = match l !! k with
    | Some x => Val x
    | None => Fail IndexError
    end.
Proof.
  unfold py_getitem.
  destruct (Z.ltb_spec (Z.of_nat k) 0%Z) as [Hneg|_]; [lia|].
  destruct (Z.ltb_spec (Z.of_nat k) 0%Z) as [Hneg|_]; [lia|]. simpl.
  destruct (Z.leb_spec (Z.of_nat (length l)) (Z.of_nat k)) as [Hge|Hlt].
  - rewrite lookup_ge_None_2 by lia. reflexivity.
  - rewrite Nat2Z.id. reflexivity.
Qed.

(** A negative index counts from the end. *)
Lemma py_getitem_neg {A} (l : list A) (k : nat) :
  k < length l ->
  py_getitem l (- Z.of_nat (S k))%Z = py_getitem l (Z.of_nat (length l - S k)).
Proof.
  intros Hk. rewrite py_getitem_nat. unfold py_getitem.
  destruct (Z.ltb_spec (- Z.of_nat (S k))%Z 0%Z) as [_|Hpos]; [|lia].
  destruct (Z.ltb_spec (- Z.of_nat (S k) + Z.of_nat (length l))%Z 0%Z) as [Hneg|_]; [lia|].
  destruct (Z.leb_spec (Z.of_nat (length l)) (- Z.of_nat (S k) + Z.of_nat (length l))%Z)
    as [Hge|_]; [lia|]. simpl.
  replace (Z.to_nat (- Z.of_nat (S k) + Z.of_nat (length l))%Z) with (length l - S k) by lia.
  reflexivity.
Qed.

(** Every index is a position, or out of range. *)
Lemma py_getitem_cases {A} (l : list A) (i : Z) :
  (exists k, k < length l /\ py_getitem l i = py_getitem l (Z.of_nat k) /\
     (i = Z.of_nat k \/ i = (Z.of_nat k - Z.of_nat (length l))%Z)) \/
  (py_getitem l i = Fail IndexError /\
   ((i < - Z.of_nat (length l))%Z \/ (Z.of_nat (length l) <= i)%Z)).
Proof.
  destruct (Z.ltb_spec i 0%Z) as [Hneg|Hpos].
  - destruct (Z.ltb_spec i (- Z.of_nat (length l))%Z) as [Hlow|Hin].
    + right. split; [|lia]. unfold py_getitem.
      destruct (Z.ltb_spec i 0%Z) as [_|?]; [|lia].
      destruct (Z.ltb_spec (i + Z.of_nat (length l))%Z 0%Z) as [_|?]; [reflexivity|lia].
    + left. exists (Z.to_nat (i + Z.of_nat (length l))%Z). split; [lia|]. split; [|lia].
      replace i with (- Z.of_nat (S (Z.to_nat (- i - 1))))%Z at 1 by lia.
      rewrite py_getitem_neg by lia. f_equal. lia.
  - destruct (Z.ltb_spec i (Z.of_nat (length l))) as [Hin|Hhigh].
    + left. exists (Z.to_nat i). split; [lia|]. split; [|lia].
      rewrite Z2Nat.id by lia. reflexivity.
    + right. split; [|lia]. rewrite <- (Z2Nat.id i) by lia. rewrite py_getitem_nat.
      rewrite lookup_ge_None_2 by lia. reflexivity.
Qed.

Lemma py_getitem_reverse {A} (l : list A) (i : Z) :
  py_getitem (reverse l) i = py_getitem l (-1 - i)%Z.
Proof.
  destruct (py_getitem_cases (reverse l) i) as [(k & Hk & -> & Hi)|[-> Hi]];
    rewrite length_reverse in *.
  - rewrite py_getitem_nat, reverse_lookup by exact Hk.
    destruct Hi as [->| ->].
    + replace (-1 - Z.of_nat k)%Z with (- Z.of_nat (S k))%Z by lia.
      rewrite py_getitem_neg, py_getitem_nat by exact Hk. reflexivity.
    + replace (-1 - (Z.of_nat k - Z.of_nat (length l)))%Z
        with (Z.of_nat (length l - S k)) by lia.
      rewrite py_getitem_nat. reflexivity.
  - destruct (py_getitem_cases l (-1 - i)%Z) as [(k & Hk & _ & Hi')|[-> _]];
      [lia | reflexivity].
Qed.

Lemma rbind_ext {A B} (r : result A) (f g : A -> result B) :
  (forall a, f a = g a) -> rbind r f = rbind r g.
Proof. intros Hfg. destruct r; simpl; auto. Qed.

Lemma collect_all_ext {A B} (f g : A -> result B) (l : list A) :
  (forall a, f a = g a) -> collect_all f l = collect_all g l.
Proof.
  intros Hfg. induction l as [|x l IH]; simpl; [reflexivity|]. rewrite Hfg, IH. reflexivity.
Qed.

(** A comprehension whose body returns on every element. *)
Lemma collect_all_Val {A B} (f : A -> result B) (l : list A) :
  (forall x, x ∈ l -> exists y, f x = Val y) ->
  exists ys, collect_all f l = Val ys /\ Forall2 (fun x y => f x = Val y) l ys.
Proof.
  induction l as [|x l IH]; intros Hall; simpl.
  - exists []. split; [reflexivity | constructor].
  - destruct (Hall x) as [y Hy]; [apply elem_of_cons; auto|].
    destruct IH as (ys & Hys & Hrel); [intros z Hz; apply Hall, elem_of_cons; auto|].
    exists (y :: ys). rewrite Hy, Hys. simpl. split; [reflexivity|].
    constructor; assumption.
Qed.

Lemma list_index_Some (x : string) (l : list string) :
  x ∈ l -> exists k, list_index x l = Some k /\ l !! k = Some x.
Proof.
  induction l as [|y l IH]; intros Hin; [apply elem_of_nil in Hin; contradiction|].
  simpl. destruct (decide (y = x)) as [->|Hne].
  - exists 0. auto.
  - apply elem_of_cons in Hin as [->|Hin]; [contradiction|].
    destruct (IH Hin) as (k & -> & Hk). exists (S k). auto.
Qed.

(** *** Rows, columns and cells *)

(** X22. On a result set whose rows have one cell per column, indexing by
    a column name that exists returns that column, one value per row, and the
    cell [rs[i, name]] is the entry [i] of that column for every integer [i],
    negative or out of range included (both raise [IndexError] together); it
    is also the cell [rs[i, k]], [k] being the first position of the name. *)
Theorem column_and_cell_agree (rs : t) (name : string) :
  rectangular rs -> name ∈ _col_names rs ->
  exists values k,
    __getitem__ rs (Single (AStr name)) = Val (Column V values) /\
    length values = __len__ rs /\
    list_index name (_col_names rs) = Some k /\
    forall i,
      __getitem__ rs (Tuple [AInt i; AStr name])
      = rbind (py_getitem values i) (fun v => Val (Cell V v)) /\
      __getitem__ rs (Tuple [AInt i; AInt (Z.of_nat k)])
      = __getitem__ rs (Tuple [AInt i; AStr name]).
Proof.
  intros Hrect Hin. destruct (list_index_Some name (_col_names rs) Hin) as (k & Hidx & Hk).
  apply lookup_lt_Some in Hk as Hlt.
  destruct (collect_all_Val (fun row : list V => py_getitem row (Z.of_nat k)) (_rows rs))
    as (values & Hcol & Hrel).
  { intros row Hrow. unfold DataFrameResultSet.rectangular in Hrect.
    rewrite Forall_forall in Hrect. specialize (Hrect row Hrow).
    cbv beta. rewrite py_getitem_nat.
    destruct (lookup_lt_is_Some_2 row k) as [v Hv]; [lia|]. rewrite Hv. eauto. }
  exists values, k.
  assert (Hname : bool_decide (name ∈ _col_names rs) = true)
    by (apply bool_decide_eq_true_2; exact Hin).
  split; [|split; [|split]].
  - unfold DataFrameResultSet.__getitem__. rewrite Hname, Hidx. simpl.
    rewrite Hcol. reflexivity.
  - symmetry. apply (Forall2_length _ _ _ Hrel).
  - exact Hidx.
  - intros i.
    assert (Hcell : rbind (py_getitem (_rows rs) i)
                      (fun row => rbind (py_getitem row (Z.of_nat k))
                                    (fun v => Val (Cell V v)))
                    = rbind (py_getitem values i) (fun v => Val (Cell V v))).
    { pose proof (Forall2_length _ _ _ Hrel) as Hlen.
      destruct (py_getitem_cases (_rows rs) i) as [(j & Hj & -> & Hi)|[-> Hi]].
      - destruct (py_getitem_cases values i) as [(j' & Hj' & -> & Hi')|[_ Hi']]; [|lia].
        assert (j' = j) by lia. subst j'.
        rewrite !py_getitem_nat.
        destruct (lookup_lt_is_Some_2 (_rows rs) j Hj) as [row Hrow].
        destruct (Forall2_lookup_l _ _ _ _ _ Hrel Hrow) as (v & Hv & Hrv).
        rewrite Hrow, Hv. simpl. rewrite Hrv. reflexivity.
      - destruct (py_getitem_cases values i) as [(j' & Hj' & _ & Hi')|[-> _]];
          [lia | reflexivity]. }
    unfold DataFrameResultSet.__getitem__. rewrite Hname, Hidx. simpl.
    split; [exact Hcell | reflexivity].
Qed.

(** The cells of one row, from position [k] on. *)
Lemma collect_cells (cols : list string) (rows : list (list V)) (row : list V)
    (i : Z) (m k : nat) :
  py_getitem rows i = Val row -> length row = length cols -> k + m = length cols ->
  collect_all
    (fun j => rbind (py_getitem cols (Z.of_nat j)) (fun name =>
              rbind (py_getitem rows i) (fun row =>
              rbind (py_getitem row (Z.of_nat j)) (fun v => Val (name, v)))))
    (seq k m)
  = Val (zip (drop k cols) (drop k row)).
Proof.
  intros Hrow Hlen. revert k. induction m as [|m IH]; intros k Hk.
  - simpl. rewrite (drop_ge cols) by lia. reflexivity.
  - destruct (lookup_lt_is_Some_2 cols k) as [name Hname]; [lia|].
    destruct (lookup_lt_is_Some_2 row k) as [v Hv]; [lia|].
    cbn [seq collect_all]. rewrite IH by lia.
    rewrite py_getitem_nat, Hname. cbn [rbind]. rewrite Hrow. cbn [rbind].
    rewrite py_getitem_nat, Hv. cbn [rbind].
    rewrite (drop_S cols name k Hname), (drop_S row v k Hv). reflexivity.
Qed.

Lemma py_getitem_elem {A} (l : list A) (i : Z) (x : A) :
  py_getitem l i = Val x -> x ∈ l.
Proof.
  destruct (py_getitem_cases l i) as [(k & Hk & -> & _)|[-> _]]; [|discriminate].
  rewrite py_getitem_nat. destruct (l !! k) as [y|] eqn:Hy; [|discriminate].
  intros [= <-]. eapply list_elem_of_lookup_2. exact Hy.
Qed.

(** A row as a dictionary. *)
Lemma row_to_dict_eq (rs : t) (i : Z) :
  rectangular rs -> NoDup (_col_names rs) ->
  _row_to_dict rs i
  = match _col_names rs with
    | [] => Val []
    | _ :: _ => rbind (py_getitem (_rows rs) i) (fun row => Val (zip (_col_names rs) row))
    end.
Proof.
  intros Hrect Hnd. unfold DataFrameResultSet._row_to_dict.
  destruct (py_getitem (_rows rs) i) as [row|r] eqn:Hrow.
  - assert (Hlen : length row = length (_col_names rs)).
    { unfold DataFrameResultSet.rectangular in Hrect. rewrite Forall_forall in Hrect.
      apply Hrect. eapply py_getitem_elem. exact Hrow. }
    rewrite <- Hrow.
    rewrite (collect_cells (_col_names rs) (_rows rs) row i (length (_col_names rs)) 0
               Hrow Hlen) by lia.
    rewrite !drop_0. simpl. rewrite Hrow. rewrite dict_of_items_NoDup.
    + destruct (_col_names rs); reflexivity.
    + pose proof (fst_zip (_col_names rs) row) as Hfst.
      change (length (_col_names rs) <= length row ->
              map fst (zip (_col_names rs) row) = _col_names rs) in Hfst.
      rewrite Hfst by lia. exact Hnd.
  - destruct (_col_names rs) as [|c cols]; [reflexivity|].
    cbn [length seq collect_all]. rewrite py_getitem_nat. reflexivity.
Qed.

(** X23. On a result set whose rows have one cell per column, under
    pairwise distinct column names: [rs[i]] is the dictionary that maps the
    column names, in their order, to the cells of row [i], and raises
    [IndexError] when [i] is out of range, unless the result set has no
    column: then [rs[i]] is the empty dictionary for every integer [i], in
    range or not.  Iterating yields these dictionaries, one per row, in the
    order of the rows. *)
Theorem rows_as_dicts (rs : t) :
  rectangular rs -> NoDup (_col_names rs) ->
  (forall i,
     __getitem__ rs (Single (AInt i))
     = match _col_names rs with
       | [] => Val (Row V [])
       | _ :: _ => rbind (py_getitem (_rows rs) i)
                     (fun row => Val (Row V (zip (_col_names rs) row)))
       end) /\
  __iter__ rs = map (fun row => Val (zip (_col_names rs) row)) (_rows rs).
Proof.
  intros Hrect Hnd. split.
  - intros i. unfold DataFrameResultSet.__getitem__.
    rewrite (row_to_dict_eq rs i Hrect Hnd).
    destruct (_col_names rs); [reflexivity|].
    destruct (py_getitem (_rows rs) i); reflexivity.
  - unfold DataFrameResultSet.__iter__, DataFrameResultSet.__len__.
    apply list_eq. intros k.
    change (((fun i => _row_to_dict rs (Z.of_nat i)) <$> seq 0 (length (_rows rs))) !! k
            = ((fun row => Val (zip (_col_names rs) row)) <$> _rows rs) !! k).
    rewrite !list_lookup_fmap.
    destruct (decide (k < length (_rows rs))) as [Hlt|Hge].
    + rewrite lookup_seq_lt by exact Hlt. simpl.
      destruct (lookup_lt_is_Some_2 (_rows rs) k Hlt) as [row Hrow]. rewrite Hrow. simpl.
      rewrite (row_to_dict_eq rs _ Hrect Hnd), py_getitem_nat, Hrow. simpl.
      destruct (_col_names rs); reflexivity.
    + rewrite lookup_seq_ge by lia. rewrite lookup_ge_None_2 by lia. reflexivity.
Qed.

(** X24. [_reverse], which [tail] applies to what it has collected: row
    [i] of the reversed result set is row [-1 - i] of the original one, for
    every integer [i], as a dictionary and cell by cell; the column names,
    the schema and the number of rows are the same, and reversing twice
    gives the result set back. *)
Theorem reverse_rows (rs : t) :
  (forall i,
     __getitem__ (_reverse rs) (Single (AInt i))
     = __getitem__ rs (Single (AInt (-1 - i)%Z))) /\
  (forall i name,
     __getitem__ (_reverse rs) (Tuple [AInt i; AStr name])
     = __getitem__ rs (Tuple [AInt (-1 - i)%Z; AStr name])) /\
  (forall i k,
     __getitem__ (_reverse rs) (Tuple [AInt i; AInt k])
     = __getitem__ rs (Tuple [AInt (-1 - i)%Z; AInt k])) /\
  __len__ (_reverse rs) = __len__ rs /\
  _reverse (_reverse rs) = rs.
Proof.
  split; [|split; [|split; [|split]]].
  - intros i. unfold DataFrameResultSet.__getitem__, DataFrameResultSet._row_to_dict.
    simpl. f_equal. f_equal. apply collect_all_ext. intros j.
    rewrite py_getitem_reverse. reflexivity.
  - intros i name. unfold DataFrameResultSet.__getitem__. simpl.
    rewrite py_getitem_reverse. reflexivity.
  - intros i k. unfold DataFrameResultSet.__getitem__. simpl.
    rewrite py_getitem_reverse. reflexivity.
  - unfold DataFrameResultSet.__len__. simpl. apply length_reverse.
  - destruct rs as [rows cols schema]. unfold DataFrameResultSet._reverse. simpl.
    rewrite reverse_involutive. reflexivity.
Qed.

End with_values.
End ResultSetLaws.

(** * The properties on explicit inputs *)

Module Examples.
Import Demo.

Example w_view_created :
  View._create 1 "v" base_path (ASchema []) (Some c1_small) false 1 "a view" true
    None None w0 = (Ok 2%positive, w_view).
Proof. vm_compute. reflexivity. Qed.

Example w_view_objs : objs w_view !! 2%positive = Some (AView v_handle 10 false).
Proof. vm_compute. reflexivity. Qed.

Example w_snapshot_created :
  View._create 1 "s" base_path (ASchema []) None true 1 "a snapshot" true
    None None w0 = (Ok 2%positive, w_snapshot).
Proof. vm_compute. reflexivity. Qed.

Example w_snapshot_objs : objs w_snapshot !! 2%positive = Some (AView s_handle 10 true).
Proof. vm_compute. reflexivity. Qed.

(** C2 on the view [v]. *)
Lemma insert_delete_raise_witness :
  objs w_view !! 2%positive = Some (AView v_handle 10 false) /\
  View.insert 2 (Some (AList 0)) false "abort" (ADict 0) w_view
    = (Raise (Error "view 'v': cannot insert into view"), w_view) /\
  View.delete 2 (Some c1_small) w_view
    = (Raise (Error "view 'v': cannot delete from view"), w_view).
Proof.
  split; [vm_compute; reflexivity|].
  apply (ViewSpec.insert_delete_raise (ES:=ES) (CE:=CE) w_view 2 v_handle 10 false
           (Some (AList 0)) false "abort" (ADict 0) (Some c1_small)).
  vm_compute. reflexivity.
Defined.

(** C3 on the path of the view [v] over the table [t]: both versions are
    replaced by snapshot copies. *)
Lemma get_snapshot_path_spec_witness :
  exists p',
    View._get_snapshot_path view_path = Ok p' /\
    Forall (fun tv => TableVersion.is_snapshot tv = true)
           (TableVersionPath.get_tbl_versions p') /\
    map TableVersion.id (TableVersionPath.get_tbl_versions p') = [11%N; 10%N] /\
    TableVersionPath.is_snapshot p' = true.
Proof.
  destruct (ViewSpec.get_snapshot_path_spec (ES:=ES) (CE:=CE)
              (fun tv => eq_refl) (fun tv => eq_refl) view_path)
    as (p' & Hp' & _ & Hall & _ & Hids & Hsnap & _).
  exists p'. repeat split; assumption.
Defined.

(** C6 on a declared column that is neither computed nor nullable. *)
Lemma create_rejects_invalid_witness :
  exists e,
    View._create 1 "v" base_path strict_columns None false 1 "a view" true None None w0
    = (Raise e, w0)
    /\ ViewTerms.raised_by_check e.
Proof.
  apply (ViewSpec.create_rejects_invalid (ES:=ES) (CE:=CE) 1 "v" base_path strict_columns None false 1
           "a view" true None None w0
           [column_of_spec ("n", inl (CInt false))]).
  - reflexivity.
  - left. exists (column_of_spec ("n", inl (CInt false))).
    split; [apply list_elem_of_singleton; reflexivity|]. split; reflexivity.
Defined.

(** C7 with the frame iterator: the columns of a component view, and a
    declared column named [frame]. *)
Lemma iterator_columns_spec_witness :
  (exists user_columns,
     _create_columns plain_columns = Ok user_columns /\
     View.validate base_path plain_columns None (Some FrameIterator) (Some (ADict 25))
     = Ok (Column.init "pos" (CInt false) false
             :: Column.init "frame_idx" (CInt false) true
             :: Column.init "frame" CJson false
             :: user_columns, None)) /\
  (exists e,
     View._create 1 "frames" base_path clashing_columns None false 1 "frames" true
       (Some FrameIterator) (Some (ADict 25)) w0
     = (Raise e, w0)).
Proof.
  destruct (ViewSpec.iterator_columns_spec (ES:=ES) (CE:=CE) base_path plain_columns None
              FrameIterator (Some (ADict 25))) as [Hcols _].
  destruct (ViewSpec.iterator_columns_spec (ES:=ES) (CE:=CE) base_path clashing_columns None
              FrameIterator (Some (ADict 25))) as (_ & Hclash & _).
  split.
  - destruct (Hcols _ None 1%N "frames" false 1%Z "frames" true w0 eq_refl)
      as [(user_columns & args & bound_args & Huser & _ & _ & Heq) _].
    exists user_columns. split; [exact Huser|].
    injection Huser as <-. reflexivity.
  - destruct (Hclash [column_of_spec ("frame", inl CJson)] (ADict 25) 25%Z
                (column_of_spec ("frame", inl CJson)) 1%N "frames" false 1%Z "frames"
                true w0 eq_refl eq_refl eq_refl)
      as (e & He & _).
    + apply list_elem_of_singleton. reflexivity.
    + right. simpl. apply elem_of_cons. right. apply list_elem_of_singleton. reflexivity.
    + exists e. exact He.
Defined.

(** C4 on the creation of the view [v]: it is the one dependent of [t]. *)
Lemma create_registers_witness :
  Catalog.tbls (cat w_view) !! 11%N = Some 2%positive /\
  Catalog.tbl_dependents (cat w_view) !! 11%N = Some [] /\
  Catalog.tbl_dependents (cat w_view) !! 10%N = Some [2%positive].
Proof.
  destruct (ViewSpec.create_registers (ES:=ES) (CE:=CE) 1 "v" base_path (ASchema []) (Some c1_small) false
              1 "a view" true None None w0 w_view 2 w_view_created)
    as (tbl & so & old & _ & Hobj & _ & Hold & Htbls & Hdeps & _).
  assert (Heq : Some (AView tbl (TableVersionPath.tbl_id base_path) so)
                = Some (AView v_handle 10 false)).
  { transitivity (objs w_view !! 2%positive); [symmetry; exact Hobj | exact w_view_objs]. }
  injection Heq as -> ->.
  vm_compute in Hold. injection Hold as <-.
  destruct Hdeps as [Hown Hbase]; [discriminate|].
  repeat split; assumption.
Defined.

(** C5 on the snapshot [s], which has no dependents: dropping it deletes its
    metadata and nothing else in the store, and [t] has no dependents left. *)
Lemma drop_spec_witness :
  exists w',
    View._drop 2 w_snapshot = (Ok tt, w') /\
    db w_snapshot = {| next_id := 12; metadata := [11%N; 10%N]; physical := [10%N] |} /\
    db w' = {| next_id := 12; metadata := [10%N]; physical := [10%N] |} /\
    Catalog.tbls (cat w') !! 11%N = None /\
    Catalog.tbl_dependents (cat w') !! 11%N = None /\
    Catalog.tbl_dependents (cat w') !! 10%N = Some [].
Proof.
  destruct (ViewSpec.drop_spec (ES:=ES) (CE:=CE) 2 s_handle 10 true [] w_snapshot)
    as (_ & Hsnap & _ & _).
  - exact w_snapshot_objs.
  - vm_compute. reflexivity.
  - eexists. split.
    + apply (Hsnap (List.Forall_nil _) eq_refl
               {| next_id := 12; metadata := [10%N]; physical := [10%N] |}
               2%positive [2%positive] []).
      * reflexivity.
      * vm_compute. reflexivity.
      * vm_compute. reflexivity.
      * vm_compute. reflexivity.
      * vm_compute. reflexivity.
    + repeat split; vm_compute; reflexivity.
Defined.

Example h_where_frame :
  exists df : @DataFrame.t ES, DataFrame.frames h_where !! 1%positive = Some df /\
             DataFrameTerms.valid df /\
             DataFrame.where_clause df = Some c1_below_x /\
             DataFrame.order_by_clause df = None.
Proof.
  destruct (DataFrameSpec.init_valid (ES:=ES) base_path None (Some c1_below_x) None None None None
              empty_heap h_where 1) as (df & Hdf & Hvalid).
  { vm_compute. reflexivity. }
  exists df. split; [exact Hdf|]. split; [exact Hvalid|].
  vm_compute in Hdf. injection Hdf as <-. split; reflexivity.
Qed.

(** C8 on [t.where(c1 < x)]: [x] is its one parameter; binding [x] to 5
    ignores the argument [y], and an object given for [x] is rejected. *)
Lemma parameters_bind_spec_witness :
  (exists params,
     DataFrame.parameters 1 h_where = (Ok params, h_where) /\
     params !! "x" = Some (CInt false)) /\
  DataFrame.bind 1 args_x_y h_where
    = DataFrame.bind 1 args_x h_where /\
  (exists a' (df' : @DataFrame.t ES),
     DataFrame.frames (DataFrame.bind 1 args_x_y h_where).2 !! a'
       = Some df' /\
     DataFrame.where_clause df' = Some (Less c1 (LiteralInt 5))) /\
  (exists msg,
     DataFrame.bind 1 args_object h_where = (Raise (Error msg), h_where)).
Proof.
  destruct h_where_frame as (df & Hdf & _ & Hwhere & Hob).
  assert (Hread : DataFrame.read_opt_list (DataFrame.order_by_clause df) h_where
                  = (Ok None, h_where)) by (rewrite Hob; reflexivity).
  assert (Hvars : DataFrameTerms.vars_of df None = [("x", CInt false)]).
  { unfold DataFrameTerms.vars_of, DataFrame.all_exprs. rewrite Hwhere.
    vm_compute in Hdf. injection Hdf as <-. reflexivity. }
  destruct (DataFrameSpec.parameters_bind_spec (ES:=ES) h_where 1 df None Hdf Hread)
    as (Hparams & _ & Hbind).
  assert (Huv : DataFrame._vars 1 h_where = (Ok {[ "x" := ("x", CInt false) ]}, h_where)).
  { vm_compute. reflexivity. }
  split; [|split; [|split]].
  - destruct Hparams as (params & Hrun & _ & Hty).
    + rewrite Hvars. intros v1 v2 H1 H2 _.
      apply list_elem_of_singleton in H1, H2. congruence.
    + exists params. split; [exact Hrun|].
      apply (Hty ("x", CInt false)). rewrite Hvars. apply list_elem_of_singleton.
      reflexivity.
  - exact (proj1 (Hbind _ args_x_y Huv)).
  - destruct (DataFrame.bind (ES:=ES) 1 args_x_y h_where) as [r h'] eqn:Hrun.
    assert (Hr : r = Ok 2%positive).
    { apply (f_equal fst) in Hrun. vm_compute in Hrun. congruence. }
    subst r.
    destruct (proj2 (proj2 (Hbind _ args_x_y Huv)) _ _ Hrun)
      as (var_exprs & df' & Hbinds & _ & Hdf' & _ & _ & _ & Hw & _).
    exists 2%positive, df'. split; [exact Hdf'|].
    rewrite Hw, Hwhere. simpl.
    inversion Hbinds as [|kv entry rest rest' (v & Hv & Hkey & Hval) Hrest Heq1 Heq2].
    inversion Hrest. subst.
    vm_compute in Hv. injection Hv as <-.
    destruct entry as [old new]. simpl in Hkey, Hval.
    injection Hval as <-. subst old. reflexivity.
  - apply (proj1 (proj2 (Hbind _ args_object Huv))).
    exists "x", AObject. split; [apply list_elem_of_singleton; reflexivity|].
    split; [|reflexivity]. vm_compute. eauto.
Defined.

Example h_ordered_frame : DataFrame.frames h_ordered !! 2%positive = Some df_ordered.
Proof. vm_compute. reflexivity. Qed.

Example h_ordered_list : DataFrame.lists h_ordered !! 2%positive = Some [(c1, true)].
Proof. vm_compute. reflexivity. Qed.

(** C1 on [df = t.order_by(c1)]: after [df.order_by(c2, asc=False)] the
    order-by list of [df] itself has two entries. *)
Lemma order_by_extends_receiver_witness :
  exists r h',
    DataFrame.order_by 2 order_args false h_ordered = (r, h') /\
    DataFrame.frames h' !! 2%positive = Some df_ordered /\
    DataFrame.lists h_ordered !! 2%positive = Some [(c1, true)] /\
    DataFrame.lists h' !! 2%positive = Some [(c1, true); (c2, false)] /\
    DataFrame.lists h' !! 2%positive <> DataFrame.lists h_ordered !! 2%positive.
Proof.
  destruct (DataFrameSpec.order_by_extends_receiver (ES:=ES) h_ordered 2 df_ordered 2
              [(c1, true)] order_args [c2] false
              h_ordered_frame eq_refl h_ordered_list eq_refl)
    as (r & h' & Hrun & Hframe & Hlist & Hne).
  exists r, h'.
  split; [exact Hrun|]. split; [exact Hframe|]. split; [exact h_ordered_list|].
  split; [exact Hlist|]. apply Hne. discriminate.
Defined.

(** C10 on the bare query and on [t.select(c1)]. *)
Lemma select_nothing_witness :
  DataFrame.select 1 [] [] h_bare = (Ok 1%positive, h_bare) /\
  DataFrame.select 2 [] [] h_selected
    = (Raise (Error "Select list already specified"), h_selected).
Proof.
  destruct (DataFrame.frames h_bare !! 1%positive) as [df1|] eqn:H1;
    [|vm_compute in H1; discriminate].
  destruct (DataFrame.frames h_selected !! 2%positive) as [df2|] eqn:H2;
    [|vm_compute in H2; discriminate].
  split.
  - apply (proj1 (DataFrameSpec.select_nothing (ES:=ES) h_bare 1 df1 H1)).
    vm_compute in H1. injection H1 as <-. reflexivity.
  - apply (proj2 (DataFrameSpec.select_nothing (ES:=ES) h_selected 2 df2 H2)).
    vm_compute in H2. injection H2 as <-. simpl. eauto.
Defined.

(** C10, counterexample.  On [t.select(c1)], the object that has a select
    list, [select()] does not return the receiver: it raises. *)
Lemma select_nothing_on_selected_raises :
  is_Some (DataFrame.frames h_selected !! 2%positive) /\
  DataFrame.select 2 [] [] h_selected
    = (Raise (Error "Select list already specified"), h_selected) /\
  DataFrame.select 2 [] [] h_selected <> (Ok 2%positive, h_selected).
Proof.
  split; [vm_compute; eauto|].
  assert (H : DataFrame.select 2 [] [] h_selected
              = (Raise (Error "Select list already specified"), h_selected))
    by (vm_compute; reflexivity).
  split; [exact H|]. rewrite H. discriminate.
Qed.

#[global] Instance demo_serial_laws : DataFrameTerms.SerialLaws (ES:=ES).
Proof.
  split.
  - intros e. reflexivity.
  - intros p. simpl.
    induction p as [tv|tv b IH] using TableVersionPathSpec.chain_ind; [reflexivity|].
    simpl. destruct b as [tv' [b'|]]; simpl in *; [|reflexivity].
    rewrite IH. reflexivity.
  - intros [i n v s]. reflexivity.
Qed.

Example df_ordered_valid : DataFrameTerms.valid df_ordered.
Proof.
  exists ([c1; c2], ["c1"; "c2"]). split; [vm_compute; reflexivity|].
  split; reflexivity.
Qed.

(** C9 on [df = t.order_by(c1)]: the object rebuilt from [df.as_dict()] has
    an order-by list with the entry of [df]. *)
Lemma from_dict_as_dict_roundtrip_witness :
  exists d a' h' (df' : @DataFrame.t ES),
    DataFrame.as_dict_ 2 h_ordered = (Ok d, h_ordered) /\
    DataFrame.from_dict_ d h_ordered = (Ok a', h') /\
    DataFrame.frames h' !! a' = Some df' /\
    DataFrame._select_list_exprs df' = [c1; c2] /\
    DataFrame.read_opt_list (DataFrame.order_by_clause df') h'
      = (Ok (Some [(c1, true)]), h').
Proof.
  destruct (DataFrameSpec.from_dict_as_dict_roundtrip (ES:=ES) h_ordered 2 df_ordered
              (Some [(c1, true)]) h_ordered_frame df_ordered_valid)
    as (d & a' & h' & df' & Has & Hfrom & Hdf' & _ & _ & _ & _ & _ & _ & _ & Hexprs & _ & Hob).
  { vm_compute. reflexivity. }
  exists d, a', h', df'. repeat split; assumption.
Defined.

End Examples.

(** * The further properties on explicit inputs *)

Module LawExamples.
Import Demo DemoMore DataFrameTerms DataFrameValue.

(** *** Views *)

(** X1 on the path of the view [v]. *)
Lemma get_snapshot_path_idempotent_witness :
  exists p',
    View._get_snapshot_path view_path = Ok p' /\
    View._get_snapshot_path p' = Ok p'.
Proof.
  eexists. split; [vm_compute; reflexivity|].
  apply (ViewLaws.get_snapshot_path_idempotent (ES:=ES) (CE:=CE) (fun tv => eq_refl)
           view_path).
  vm_compute. reflexivity.
Defined.

(** X2 on the creation of a view with a column that is neither computed nor
    nullable. *)
Lemma create_failure_keeps_catalog_witness :
  cat (View._create 1 "v" base_path strict_columns None false 1 "a view" true None None
         w0).2 = cat w0.
Proof.
  apply (ViewLaws.create_failure_keeps_catalog (ES:=ES) (CE:=CE) 1 "v" base_path
           strict_columns None false 1 "a view" true None None w0 _
           (Error "Column n: non-computed columns in views must be nullable")).
  vm_compute. reflexivity.
Defined.

(** X3 on the snapshot [s]: dropping it gives back the catalog with [t]
    alone. *)
Lemma create_then_drop_restores_catalog_witness :
  exists w2,
    View._drop 2 w_snapshot = (Ok tt, w2) /\
    cat w2 = cat w0 /\
    db w2 = {| next_id := 12; metadata := [10%N]; physical := [10%N] |}.
Proof.
  apply (ViewLaws.create_then_drop_restores_catalog (ES:=ES) (CE:=CE) 1 "s" base_path
           (ASchema []) None true 1 "a snapshot" true None None w0 w_snapshot 2 s_handle []).
  - vm_compute. reflexivity.
  - vm_compute. reflexivity.
  - vm_compute. reflexivity.
  - vm_compute. reflexivity.
  - vm_compute. reflexivity.
  - constructor.
  - reflexivity.
  - vm_compute. reflexivity.
Defined.

(** X4 on the snapshot [s], without its dependents entry and out of the
    dependents of [t]. *)
Lemma drop_failures_witness :
  View._drop 2 w_no_entry = (Raise KeyError, w_no_entry) /\
  exists w', View._drop 2 w_unlisted = (Raise ValueError, w') /\
    Catalog.tbls (cat w') !! 11%N = None /\
    Catalog.tbl_dependents (cat w') = Catalog.tbl_dependents (cat w_unlisted) /\
    db w' = {| next_id := 12; metadata := [10%N]; physical := [10%N] |}.
Proof.
  split.
  - apply (ViewLaws.drop_failures (ES:=ES) (CE:=CE) 2 s_handle 10 true w_no_entry).
    + vm_compute. reflexivity.
    + vm_compute. reflexivity.
  - eexists. split.
    + assert (Hobj : objs w_unlisted !! 2%positive = Some (AView s_handle 10 true))
        by (vm_compute; reflexivity).
      apply (proj2 (ViewLaws.drop_failures (ES:=ES) (CE:=CE) 2 s_handle 10 true w_unlisted
                      Hobj) []
               {| next_id := 12; metadata := [10%N]; physical := [10%N] |} 2%positive []).
      * reflexivity.
      * vm_compute. reflexivity.
      * constructor.
      * reflexivity.
      * vm_compute. reflexivity.
      * vm_compute. reflexivity.
      * vm_compute. reflexivity.
      * apply not_elem_of_nil.
    + split; [vm_compute; reflexivity|]. split; reflexivity.
Defined.

(** *** The select list *)

(** X6 on a select list that uses [c1] twice: the second [c1] becomes
    [c1_1]. *)
Lemma normalize_select_list_names_witness :
  DataFrame._normalize_select_list base_path (Some sl_twice)
  = Ok ([c1; c1; LiteralInt 3; c2], ["c1"; "c1_1"; "col_2"; "two"]) /\
  exists name,
    ["c1"; "c1_1"; "col_2"; "two"] !! 1 = Some name /\
    named_as (ES:=ES) 1 c1 None ["c1"] name.
Proof.
  assert (H : DataFrame._normalize_select_list (ES:=ES) base_path (Some sl_twice)
              = Ok ([c1; c1; LiteralInt 3; c2], ["c1"; "c1_1"; "col_2"; "two"]))
    by (vm_compute; reflexivity).
  split; [exact H|].
  apply (DataFrameLaws.normalize_select_list_names (ES:=ES) base_path (Some sl_twice)
           _ _ 1 c1 None H).
  reflexivity.
Defined.

(** X7 on [c1, c1, c2]. *)
Lemma default_names_distinct_witness : NoDup ["c1"; "c1_1"; "c2"].
Proof.
  apply (DataFrameLaws.default_names_distinct (ES:=ES) base_path (Some sl_defaults)
           [c1; c1; c2] ["c1"; "c1_1"; "c2"]).
  - vm_compute. reflexivity.
  - simpl. repeat (constructor; [split; [reflexivity | eexists; reflexivity]|]).
    constructor.
Defined.

(** *** The builder methods *)

Example h_bare_frame : DataFrame.frames h_bare !! 1%positive = Some df_bare.
Proof. vm_compute. reflexivity. Qed.

Example h_where_object : DataFrame.frames h_where !! 1%positive = Some df_where.
Proof. vm_compute. reflexivity. Qed.

Example h_view_frame : DataFrame.frames h_view !! 1%positive = Some df_view.
Proof. vm_compute. reflexivity. Qed.

Example h_bare_wf : wf (ES:=ES) h_bare.
Proof.
  apply (DataFrameSpec.wf_init (ES:=ES) base_path None None None None None None
           empty_heap h_bare (Ok 1%positive)); [apply DataFrameSpec.wf_empty|].
  vm_compute. reflexivity.
Qed.

Example h_where_wf : wf (ES:=ES) h_where.
Proof.
  apply (DataFrameSpec.wf_init (ES:=ES) base_path None (Some c1_below_x) None None None None
           empty_heap h_where (Ok 1%positive)); [apply DataFrameSpec.wf_empty|].
  vm_compute. reflexivity.
Qed.

Example h_view_wf : wf (ES:=ES) h_view.
Proof.
  apply (DataFrameSpec.wf_init (ES:=ES) view_path None None None None None None
           empty_heap h_view (Ok 1%positive)); [apply DataFrameSpec.wf_empty|].
  vm_compute. reflexivity.
Qed.

Example h_ordered_wf : wf (ES:=ES) h_ordered.
Proof.
  apply (DataFrameSpec.wf_order_by (ES:=ES) 1 [AExpr c1] true h_bare (Ok 2%positive) h_ordered
           h_bare_wf).
  vm_compute. reflexivity.
Qed.

(** X8 on [t.where(c1 < x)]: a second [where] replaces the predicate. *)
Lemma where_builds_witness :
  exists a h' (df' : @DataFrame.t ES),
    DataFrame.where_ 1 (AExpr c1_small) h_where = (Ok a, h') /\
    DataFrame.frames h' !! a = Some df' /\
    DataFrame.where_clause df' = Some c1_small.
Proof.
  destruct (DataFrameLaws.where_builds (ES:=ES) h_where 1 df_where (AExpr c1_small)
              c1_small h_where_wf h_where_object eq_refl eq_refl)
    as (a & h' & Hrun & _ & _ & df' & Hdf' & Hq & _).
  exists a, h', df'. split; [exact Hrun|]. split; [exact Hdf'|].
  exact (f_equal DataFrameValue.where_clause Hq).
Defined.

(** X9 on the bare query. *)
Lemma limit_builds_witness :
  exists a h' (df' : @DataFrame.t ES),
    DataFrame.limit 1 5 h_bare = (Ok a, h') /\
    DataFrame.frames h' !! a = Some df' /\
    DataFrame.limit_val df' = Some 5%Z.
Proof.
  destruct (DataFrameLaws.limit_builds (ES:=ES) h_bare 1 df_bare 5 h_bare_wf h_bare_frame)
    as (a & h' & Hrun & _ & _ & df' & Hdf' & Hq & _).
  exists a, h', df'. split; [exact Hrun|]. split; [exact Hdf'|].
  exact (f_equal DataFrameValue.limit_val Hq).
Defined.

(** X10 on the bare query over the view [v]: grouping by nothing, and by
    the table [t]. *)
Lemma group_by_builds_witness :
  (exists a h' (df' : @DataFrame.t ES),
     DataFrame.group_by 1 [] h_view = (Ok a, h') /\
     DataFrame.frames h' !! a = Some df' /\
     DataFrame.group_by_clause df' = Some [] /\
     DataFrame.grouping_tbl df' = None) /\
  (exists a h' (df' : @DataFrame.t ES),
     DataFrame.group_by 1 [ATableHandle t_handle] h_view = (Ok a, h') /\
     DataFrame.frames h' !! a = Some df' /\
     DataFrame.group_by_clause df' = None /\
     DataFrame.grouping_tbl df' = Some tv10).
Proof.
  destruct (DataFrameLaws.group_by_builds (ES:=ES) h_view 1 df_view h_view_wf h_view_frame
              eq_refl) as [Hexprs Htable].
  split.
  - destruct (Hexprs [] [] (List.Forall2_nil _))
      as (a & h' & Hrun & _ & _ & df' & Hdf' & Hq & _).
    exists a, h', df'. split; [exact Hrun|]. split; [exact Hdf'|].
    split; [exact (f_equal DataFrameValue.group_by_clause Hq)
           |exact (f_equal DataFrameValue.grouping_tbl Hq)].
  - destruct (Htable (ATableHandle t_handle) t_handle tv10 eq_refl)
      as (a & h' & Hrun & _ & _ & df' & Hdf' & Hq & _).
    + reflexivity.
    + vm_compute. discriminate.
    + exists a, h', df'. split; [exact Hrun|]. split; [exact Hdf'|].
      split; [exact (f_equal DataFrameValue.group_by_clause Hq)
             |exact (f_equal DataFrameValue.grouping_tbl Hq)].
Defined.

(** X11 on the bare query: an object after an expression. *)
Lemma group_by_rejects_witness :
  DataFrame.group_by 1 items_bad h_bare
  = (Raise (Error "Invalid expression in group_by(): <object>"), h_bare).
Proof.
  destruct (DataFrameLaws.group_by_rejects (ES:=ES) h_bare 1 df_bare items_bad h_bare_frame)
    as [_ Hrest].
  destruct (Hrest eq_refl items_c1 AObject [] eq_refl) as [Hinvalid _].
  - constructor; [split; [reflexivity | eexists; reflexivity] | constructor].
  - exact (Hinvalid eq_refl eq_refl).
Defined.

(** X12 on [t.select(c1, c1, two=c2)]. *)
Lemma select_builds_witness :
  exists df' : @DataFrame.t ES,
    DataFrame.frames h_selected_three !! 2%positive = Some df' /\
    DataFrame._schema df' = [("c1", CInt true); ("c1_1", CInt true); ("two", CString)] /\
    DataFrame._select_list_exprs df' = [c1; c1; c2].
Proof.
  destruct (DataFrameLaws.select_builds (ES:=ES) h_bare 1 df_bare items_c1_c1
              named_two 2 h_selected_three h_bare_frame)
    as (sl & names & Hwrap & Hnorm & _ & _ & _ & _ & df' & Hdf' & Hq & _).
  - left. discriminate.
  - vm_compute. reflexivity.
  - exists df'. split; [exact Hdf'|].
    vm_compute in Hwrap. injection Hwrap as <-.
    assert (Hnames : names = ["c1"; "c1_1"; "two"]).
    { vm_compute in Hnorm. congruence. }
    subst names.
    split; [exact (f_equal DataFrameValue.schema Hq)
           |exact (f_equal DataFrameValue.select_list_exprs Hq)].
Defined.

(** X13 on [t.select(c1, c1=c2)]. *)
Lemma select_repeated_name_witness :
  DataFrame.select 1 items_c1 named_c1 h_bare
  = (Raise (Error ("Repeated column name " +:+ dquote +:+ "c1" +:+ dquote
                   +:+ " in select() at positions: 0, 1")), h_bare).
Proof.
  apply (DataFrameLaws.select_repeated_name (ES:=ES) h_bare 1 df_bare items_c1
           named_c1 [(c1, None); (c2, Some "c1")] ["c1"; "c1"] ["c1"] "c1" []
           h_bare_frame eq_refl).
  - reflexivity.
  - reflexivity.
  - vm_compute. reflexivity.
  - reflexivity.
  - apply NoDup_singleton.
  - apply list_elem_of_singleton. reflexivity.
Defined.

(** X14 on [df = t.order_by(c1)] and [df.order_by(c2, asc=False)]. *)
Lemma order_by_builds_witness :
  exists a h' (df' : @DataFrame.t ES),
    DataFrame.order_by 2 order_args false h_ordered = (Ok a, h') /\
    DataFrame.frames h' !! a = Some df' /\
    entries h' df' = Some [(c1, true); (c2, false)] /\
    DataFrame.order_by_clause df' <> Some 2%positive.
Proof.
  destruct (DataFrameLaws.order_by_builds (ES:=ES) h_ordered 2 df_ordered order_args [c2]
              false h_ordered_wf)
    as (a & h' & Hrun & (_ & df' & Hdf' & Hq & Hown) & _).
  - vm_compute. reflexivity.
  - reflexivity.
  - exists a, h', df'. split; [exact Hrun|]. split; [exact Hdf'|]. split.
    + exact (f_equal DataFrameValue.order_by_clause Hq).
    + intros Hsame. specialize (Hown _ Hsame). vm_compute in Hown. discriminate.
Defined.

(** X15 on [t.order_by(c1, object)]. *)
Lemma raising_builder_leaves_heap_witness :
  (DataFrame.order_by 1 items_bad true h_bare).2 = h_bare.
Proof.
  destruct (DataFrameLaws.raising_builder_leaves_heap (ES:=ES) h_bare 1
              (Error "Invalid expression in order_by(): <object>")
              (DataFrame.order_by (ES:=ES) 1 items_bad true h_bare).2 h_bare_wf)
    as (_ & _ & _ & Horder & _).
  apply (Horder items_bad true). vm_compute. reflexivity.
Defined.

(** X16 on [df = t.order_by(c1)]. *)
Lemma wf_object_facts_witness :
  length (DataFrame._schema df_ordered) = 2 /\
  Forall (fun k => valid_identifier k = true) ["c1"; "c2"] /\
  is_Some (entries h_ordered df_ordered).
Proof.
  destruct (DataFrameLaws.wf_object_facts (ES:=ES) h_ordered 2 df_ordered h_ordered_wf)
    as (_ & _ & _ & Hkeys & _ & Hlist).
  - vm_compute. reflexivity.
  - split; [reflexivity|]. split; [exact Hkeys|]. apply Hlist. simpl. eauto.
Defined.

(** X17 on [t.limit(5)]. *)
Lemma methods_keep_wf_witness : wf (ES:=ES) h_limited.
Proof.
  destruct (DataFrameLaws.methods_keep_wf (ES:=ES) h_bare 1 (Ok 2%positive) h_limited
              h_bare_wf) as (_ & _ & _ & _ & Hlimit & _).
  apply (Hlimit 5%Z). vm_compute. reflexivity.
Defined.

(** X18 on an empty select list. *)
Lemma init_rejects_witness :
  DataFrame.__init__ (ES:=ES) base_path (Some []) None None None None None empty_heap
  = (Raise AssertionError, empty_heap).
Proof.
  apply (DataFrameLaws.init_rejects (ES:=ES)). left. reflexivity.
Defined.

(** *** Mutation and description *)

(** X19 on [t.limit(5)]. *)
Lemma mutation_rejected_after_builders_witness :
  exists clause, clause ∈ ["group_by"; "order_by"; "select"; "limit"] /\
    DataFrameOps.update log nat log_update 2 (ADict 0) true
      {| DataFrameOps.heap := h_limited; DataFrameOps.store := [] |}
    = (Raise (Error ("Cannot use `update` after `" +:+ clause +:+ "`")),
       {| DataFrameOps.heap := h_limited; DataFrameOps.store := [] |}) /\
    DataFrameOps.delete log nat log_delete insertable 2
      {| DataFrameOps.heap := h_limited; DataFrameOps.store := [] |}
    = (Raise (Error ("Cannot use `delete` after `" +:+ clause +:+ "`")),
       {| DataFrameOps.heap := h_limited; DataFrameOps.store := [] |}).
Proof.
  destruct (DataFrameOpsLaws.mutation_rejected_after_builders (ES:=ES) log nat log_update
              log_delete insertable h_bare 1 2 h_limited [])
    as (clause & Hin & Hupdate & Hdelete).
  - left. exists 5%Z. vm_compute. reflexivity.
  - exists clause. split; [exact Hin|]. split; [apply Hupdate | exact Hdelete].
Defined.

(** X20 on [t.where(c1 < 7)]: the store gets the predicate. *)
Lemma where_then_mutate_witness :
  DataFrameOps.update log nat log_update 2 (ADict 0) true
    {| DataFrameOps.heap := h_filtered; DataFrameOps.store := [] |}
  = (Ok 1, {| DataFrameOps.heap := h_filtered;
              DataFrameOps.store := [("update", 10%N, Some c1_small)] |}) /\
  DataFrameOps.delete log nat log_delete insertable 2
    {| DataFrameOps.heap := h_filtered; DataFrameOps.store := [] |}
  = (Ok 1, {| DataFrameOps.heap := h_filtered;
              DataFrameOps.store := [("delete", 10%N, Some c1_small)] |}).
Proof.
  destruct (DataFrameOpsLaws.where_then_mutate (ES:=ES) log nat log_update log_delete
              insertable h_bare 1 2 df_bare (AExpr c1_small) c1_small h_filtered []
              h_bare_frame eq_refl eq_refl eq_refl eq_refl eq_refl eq_refl)
    as [Hupdate Hdelete].
  - vm_compute. reflexivity.
  - split; [exact (Hupdate (ADict 0) true) | exact Hdelete].
Defined.

(** X21 on [df = t.order_by(c1)], which can be described, and on the bare
    query, which cannot. *)
Lemma description_returns_iff_witness :
  DataFrameOps._description class_name 2 h_ordered
  = (Ok (["Order By"], ["ColumnRef asc"]), h_ordered) /\
  DataFrameOps._description class_name 1 h_bare = (Raise AssertionError, h_bare).
Proof.
  split.
  - destruct (DataFrameOpsLaws.description_returns_iff (ES:=ES) class_name h_ordered 2
                df_ordered h_ordered_wf) as [Hyes _].
    + vm_compute. reflexivity.
    + destruct Hyes as [Hrun _].
      * split; [right; right; right; left; simpl; eauto|].
        split; [intros l [=]|]. split; [discriminate | vm_compute; discriminate].
      * rewrite Hrun. vm_compute. reflexivity.
  - destruct (DataFrameOpsLaws.description_returns_iff (ES:=ES) class_name h_bare 1
                df_bare h_bare_wf h_bare_frame) as [_ Hno].
    apply Hno. intros [Hsome _].
    destruct Hsome as [[? H]|[[? H]|[[? H]|[[? H]|[? H]]]]]; discriminate.
Defined.

(** *** Result sets *)

Example rs_two_rectangular : DataFrameResultSet.rectangular Z ctype rs_two.
Proof. repeat constructor. Qed.

(** X22 on the column [b] of a result set with two rows. *)
Lemma column_and_cell_agree_witness :
  exists values,
    DataFrameResultSet.__getitem__ Z ctype index_str rs_two
      (DataFrameResultSet.Single (DataFrameResultSet.AStr "b"))
    = DataFrameResultSet.Val (DataFrameResultSet.Column Z values) /\
    forall i,
      DataFrameResultSet.__getitem__ Z ctype index_str rs_two
        (DataFrameResultSet.Tuple [DataFrameResultSet.AInt i; DataFrameResultSet.AStr "b"])
      = DataFrameResultSet.rbind (DataFrameResultSet.py_getitem values i)
          (fun v => DataFrameResultSet.Val (DataFrameResultSet.Cell Z v)).
Proof.
  destruct (ResultSetLaws.column_and_cell_agree Z ctype index_str rs_two "b"
              rs_two_rectangular) as (values & k & Hcol & _ & _ & Hcell).
  - apply elem_of_cons. right. apply list_elem_of_singleton. reflexivity.
  - exists values. split; [exact Hcol|]. intros i. exact (proj1 (Hcell i)).
Defined.

(** X23 on the same result set. *)
Lemma rows_as_dicts_witness :
  DataFrameResultSet.__getitem__ Z ctype index_str rs_two
    (DataFrameResultSet.Single (DataFrameResultSet.AInt (-1)))
  = DataFrameResultSet.Val (DataFrameResultSet.Row Z [("a", 3%Z); ("b", 4%Z)]) /\
  DataFrameResultSet.__iter__ Z ctype rs_two
  = [DataFrameResultSet.Val [("a", 1%Z); ("b", 2%Z)];
     DataFrameResultSet.Val [("a", 3%Z); ("b", 4%Z)]].
Proof.
  destruct (ResultSetLaws.rows_as_dicts Z ctype index_str rs_two rs_two_rectangular)
    as [Hrow Hiter].
  - simpl. apply NoDup_cons. split; [|apply NoDup_singleton].
    intros Hin. apply list_elem_of_singleton in Hin. discriminate.
  - split; [rewrite Hrow | rewrite Hiter]; reflexivity.
Defined.

End LawExamples.
